(** * Verification of the contract fetcher: source parsing, comment
      stripping, audit triage and proxy detection.

    The development embeds the decision logic of
    [src/modules/sourceParser.js] and [src/modules/proxyDetector.js] and
    proves the properties numbered C1..C10. *)

From Stdlib Require Import String Ascii List NArith ZArith Bool Arith Lia.
Import ListNotations.

Local Open Scope N_scope.

(** ** JavaScript strings

    A JavaScript string is a sequence of UTF-16 code units; it is modelled
    as a list of numbers, so that every statement quantified over
    [jsstring] covers every string the program can receive. *)

Module JS.

Definition jsstring := list N.

(** Literals are written [js "..."]. *)
Definition js (s : string) : jsstring :=
  map N_of_ascii (list_ascii_of_string s).

Definition NL : N := 10.
Definition DQUOTE : N := 34.
Definition QUOTE : N := 39.
Definition STAR : N := 42.
Definition SLASH : N := 47.
Definition BACKSLASH : N := 92.

Fixpoint eqb (a b : jsstring) : bool :=
  match a, b with
  | [], [] => true
  | x :: a', y :: b' => (x =? y) && eqb a' b'
  | _, _ => false
  end.

(** White space and line terminators of ECMAScript: what [trim], [trimEnd]
    and the class [\s] remove or match. *)
Definition isWhite (c : N) : bool :=
  ((9 <=? c) && (c <=? 13)) || (c =? 32) || (c =? 160) || (c =? 5760)
  || ((8192 <=? c) && (c <=? 8202)) || (c =? 8232) || (c =? 8233)
  || (c =? 8239) || (c =? 8287) || (c =? 12288) || (c =? 65279).

Definition isDigit (c : N) : bool := (48 <=? c) && (c <=? 57).
Definition isUpper (c : N) : bool := (65 <=? c) && (c <=? 90).
Definition isLower (c : N) : bool := (97 <=? c) && (c <=? 122).

(** The class [\w]. *)
Definition isWord (c : N) : bool :=
  isDigit c || isUpper c || isLower c || (c =? 95).

(** [[a-fA-F0-9]]. *)
Definition isHex (c : N) : bool :=
  isDigit c || ((65 <=? c) && (c <=? 70)) || ((97 <=? c) && (c <=? 102)).

Definition toLower (c : N) : N := if isUpper c then c + 32 else c.

Fixpoint trimStart (s : jsstring) : jsstring :=
  match s with
  | [] => []
  | c :: r => if isWhite c then trimStart r else s
  end.

Fixpoint trimEnd (s : jsstring) : jsstring :=
  match s with
  | [] => []
  | c :: r =>
      match trimEnd r with
      | [] => if isWhite c then [] else [c]
      | r' => c :: r'
      end
  end.

Definition trim (s : jsstring) : jsstring := trimEnd (trimStart s).

Fixpoint startsWith (s p : jsstring) : bool :=
  match p, s with
  | [], _ => true
  | x :: p', y :: s' => (x =? y) && startsWith s' p'
  | _ :: _, [] => false
  end.

Definition endsWith (s p : jsstring) : bool :=
  startsWith (rev s) (rev p).

(** [s.includes(p)]: some suffix of [s] starts with [p]. *)
Fixpoint includes (s p : jsstring) : bool :=
  startsWith s p ||
  match s with
  | [] => false
  | _ :: r => includes r p
  end.

(** [s.split('\n')]: the empty string splits into one empty piece. *)
Fixpoint splitOn (sep : N) (s : jsstring) : list jsstring :=
  match s with
  | [] => [[]]
  | c :: r =>
      if c =? sep then [] :: splitOn sep r
      else match splitOn sep r with
           | l :: ls => (c :: l) :: ls
           | [] => [[c]]
           end
  end.

(** [pieces.join('\n')]. *)
Fixpoint join (sep : N) (ps : list jsstring) : jsstring :=
  match ps with
  | [] => []
  | [p] => p
  | p :: qs => p ++ sep :: join sep qs
  end.

End JS.

Import JS.

(** ** Comment stripping ([stripSolidityComments])

    The source walks an index [i] over [source]; the embedding walks the
    suffix [source.slice(i)] and carries [source[i-1]] (absent at [i = 0]).
    Each inner [while] loop of the source is a function of its own that
    hands the position it stops at back to the main loop. *)

Module Strip.

(** The loop that copies a string literal (lines 350-357 and 366-373):
    every unit is appended to the result; the loop leaves after a unit
    equal to the quote whose predecessor in the source is not a
    backslash.  [prev] is [source[i-1]]. *)
Fixpoint copyLiteral (q : N) (k : N -> jsstring -> jsstring)
    (prev : N) (s : jsstring) : jsstring :=
  match s with
  | [] => []
  | c :: r =>
      c :: (if (c =? q) && negb (prev =? BACKSLASH) then k c r
            else copyLiteral q k c r)
  end.

(** The loop that skips a block comment (lines 381-387).  Its guard is
    [i < len - 1]: it stops on the closing marker, or when at most one
    unit is left, and then the main loop resumes at that position (with
    no unit left the main loop stops and nothing more is appended). *)
Fixpoint skipBlock (k : N -> jsstring -> jsstring)
    (prev : N) (s : jsstring) : jsstring :=
  match s with
  | [] => []
  | c :: r =>
      match r with
      | [] => k prev s
      | d :: r' =>
          if (c =? STAR) && (d =? SLASH) then k d r'
          else skipBlock k c r
      end
  end.

(** The loop that skips a line comment (lines 394-401): the newline that
    ends the comment is kept. *)
Fixpoint skipLine (k : N -> jsstring -> jsstring) (s : jsstring)
  : jsstring :=
  match s with
  | [] => []
  | c :: r => if c =? NL then NL :: k NL r else skipLine k r
  end.

Definition escaped (prev : option N) : bool :=
  match prev with
  | Some p => p =? BACKSLASH
  | None => false
  end.

(** The main loop (lines 341-408), in code state at [s] with
    [prev = source[i-1]]. *)
Fixpoint scan (prev : option N) (s : jsstring) {struct s} : jsstring :=
  match s with
  | [] => []
  | c :: r =>
      if (c =? QUOTE) && negb (escaped prev) then
        c :: copyLiteral QUOTE (fun p t => scan (Some p) t) c r
      else if (c =? DQUOTE) && negb (escaped prev) then
        c :: copyLiteral DQUOTE (fun p t => scan (Some p) t) c r
      else
        match r with
        | d :: r' =>
            if (c =? SLASH) && (d =? STAR) then
              skipBlock (fun p t => scan (Some p) t) d r'
            else if (c =? SLASH) && (d =? SLASH) then
              skipLine (fun p t => scan (Some p) t) r
            else c :: scan (Some c) r
        | [] => c :: scan (Some c) r
        end
  end.

(** [result.replace(/\n{3,}/g, '\n\n')]: of a run of newlines only the
    first two are kept.  [seen] counts the newlines of the current run. *)
Fixpoint collapseNewlines (seen : nat) (s : jsstring) : jsstring :=
  match s with
  | [] => []
  | c :: r =>
      if c =? NL then
        if (seen <? 2)%nat then NL :: collapseNewlines (S seen) r
        else collapseNewlines (S seen) r
      else c :: collapseNewlines 0 r
  end.

(** [result.split('\n').map(line => line.trimEnd()).join('\n')]. *)
Definition trimLines (s : jsstring) : jsstring :=
  join NL (map trimEnd (splitOn NL s)).

Definition stripSolidityComments (source : jsstring) : jsstring :=
  trim (trimLines (collapseNewlines 0 (scan None source))) ++ [NL].

End Strip.

Import Strip.

(** ** Regular expressions

    The patterns of the source are kept as data and run by a backtracking
    matcher with the semantics of ECMAScript for the constructs the source
    uses: greedy repetition, alternation tried left to right, one capture
    group, [\b], [^] and [$] (no [m] flag), leftmost match. *)

Module Regex.

Inductive re : Type :=
| Eps
| Cls (p : N -> bool)
| Seq (a b : re)
| Alt (a b : re)
| Star (a : re)
| Group (a : re)
| WordB
| Bos
| Eos.

Definition isWordAt (c : option N) : bool :=
  match c with
  | Some x => isWord x
  | None => false
  end.

(** [run r prev s cap k]: match [r] at the position whose remaining input
    is [s] and whose preceding unit is [prev]; [k] continues with the
    position reached.  An iteration of [Star] that consumes nothing is
    refused, as in ECMAScript. *)
Fixpoint run {R : Type} (r : re) (prev : option N) (s : jsstring)
    (cap : option jsstring)
    (k : option N -> jsstring -> option jsstring -> option R)
    {struct r} : option R :=
  match r with
  | Eps => k prev s cap
  | Cls p =>
      match s with
      | c :: t => if p c then k (Some c) t cap else None
      | [] => None
      end
  | Seq a b => run a prev s cap (fun p' s' c' => run b p' s' c' k)
  | Alt a b =>
      match run a prev s cap k with
      | Some x => Some x
      | None => run b prev s cap k
      end
  | Star a =>
      (fix iter (n : nat) (prev : option N) (s : jsstring)
           (cap : option jsstring) {struct n} : option R :=
         match n with
         | O => k prev s cap
         | S n' =>
             match run a prev s cap
                     (fun p' s' c' =>
                        if (List.length s' <? List.length s)%nat
                        then iter n' p' s' c' else None) with
             | Some x => Some x
             | None => k prev s cap
             end
         end) (List.length s) prev s cap
  | Group a =>
      run a prev s cap
        (fun p' s' _ =>
           k p' s' (Some (firstn (List.length s - List.length s') s)))
  | WordB =>
      if xorb (isWordAt prev) (isWordAt (hd_error s)) then k prev s cap
      else None
  | Bos => match prev with None => k prev s cap | Some _ => None end
  | Eos => match s with [] => k prev s cap | _ :: _ => None end
  end.

(** The result of [String.prototype.match] without the [g] flag: the
    matched text and the capture group of the leftmost match. *)
Record Match := { matched : jsstring; group1 : option jsstring }.

Definition matchAt (r : re) (prev : option N) (s : jsstring)
  : option Match :=
  run r prev s None
    (fun _ s' c =>
       Some {| matched := firstn (List.length s - List.length s') s;
               group1 := c |}).

Fixpoint exec_from (r : re) (prev : option N) (s : jsstring)
  : option Match :=
  match matchAt r prev s with
  | Some m => Some m
  | None =>
      match s with
      | [] => None
      | c :: t => exec_from r (Some c) t
      end
  end.

Definition exec (r : re) (s : jsstring) : option Match :=
  exec_from r None s.

(** [r.test(s)]. *)
Definition test (r : re) (s : jsstring) : bool :=
  match exec r s with
  | Some _ => true
  | None => false
  end.

(** [s.match(r)] under the [g] flag: the successive matches, each search
    resuming where the previous match ended (one unit further after an
    empty match).  A turn consumes a unit, so [length s + 1] turns
    suffice. *)
Fixpoint matchAll_from (fuel : nat) (r : re) (prev : option N)
    (s : jsstring) : list jsstring :=
  match fuel with
  | O => []
  | S fuel' =>
      match matchAt r prev s, s with
      | Some m, c :: t =>
          match matched m with
          | [] => [] :: matchAll_from fuel' r (Some c) t
          | x :: xs =>
              (x :: xs) ::
              matchAll_from fuel' r (Some (last xs x))
                (skipn (List.length (x :: xs)) s)
          end
      | Some m, [] => [matched m]
      | None, c :: t => matchAll_from fuel' r (Some c) t
      | None, [] => []
      end
  end.

Definition matchAll (r : re) (s : jsstring) : list jsstring :=
  matchAll_from (S (List.length s)) r None s.

Definition chr (c : N) : re := Cls (N.eqb c).
Definition chri (c : N) : re := Cls (fun x => toLower x =? toLower c).
Definition plus (a : re) : re := Seq a (Star a).
Definition opt (a : re) : re := Alt a Eps.

Fixpoint seqs (l : list re) : re :=
  match l with
  | [] => Eps
  | [a] => a
  | a :: l' => Seq a (seqs l')
  end.

(** A literal, and a literal under the [i] flag. *)
Definition lit (s : string) : re := seqs (map chr (js s)).
Definition liti (s : string) : re := seqs (map chri (js s)).

Fixpoint rep (n : nat) (a : re) : re :=
  match n with
  | O => Eps
  | S O => a
  | S n' => Seq a (rep n' a)
  end.

Definition ws : re := Cls isWhite.
Definition word : re := Cls isWord.
Definition hex : re := Cls isHex.
Definition notc (c : N) : re := Cls (fun x => negb (x =? c)).

End Regex.

Import Regex.

(** ** Audit triage ([sourceParser.js]) *)

Module Triage.

(** [RED_FLAG_PATHS] (lines 134-146), every pattern under the [i] flag. *)
Definition RED_FLAG_PATHS : list re :=
  [ Seq Bos (liti "contracts/lib/");
    Seq Bos (liti "contracts/vendor/");
    Seq Bos (liti "contracts/external/");
    Seq Bos (liti "contracts/utils/");
    Seq Bos (liti "contracts/libraries/");
    Seq Bos (liti "src/lib/");
    Seq Bos (liti "src/vendor/");
    Seq Bos (liti "src/external/");
    Seq Bos (liti "lib/");
    Seq Bos (liti "vendor/");
    Seq Bos (liti "external/") ].

(** A path lies under a red-flag directory convention. *)
Definition matchesRedFlag (filePath : jsstring) : bool :=
  existsb (fun r => test r filePath) RED_FLAG_PATHS.

(** The object returned by [shouldExcludeFromAudit]; a property that is
    not set reads as [undefined], here [None]. *)
Record Exclusion := {
  shouldExclude : bool;
  reason : jsstring;
  warning : option jsstring;
  note : option jsstring
}.

(** Lines 267-269: the body in force (the earlier pattern-driven body is
    commented out in the source). *)
Definition shouldExcludeFromAudit (filePath : jsstring) : Exclusion :=
  {| shouldExclude := false;
     reason := js "custom-contract";
     warning := None;
     note := None |}.

(** Truthiness of an optional string property. *)
Definition truthy (v : option jsstring) : bool :=
  match v with
  | Some (_ :: _) => true
  | _ => false
  end.

(** [/\binterface\s+\w+/] *)
Definition RE_INTERFACE : re :=
  seqs [WordB; lit "interface"; plus ws; plus word].

(** [/function\s+\w+[^;]*\{[^}]+\}/] *)
Definition RE_FUNCTION_BODY : re :=
  seqs [lit "function"; plus ws; plus word; Star (notc 59);
        chr 123; plus (notc 125); chr 125].

(** Lines 425-439. *)
Definition isPureInterface (content : jsstring) : bool :=
  let withoutComments := stripSolidityComments content in
  if negb (test RE_INTERFACE withoutComments) then false
  else negb (test RE_FUNCTION_BODY withoutComments).

Record Warning := {
  w_file : jsstring;
  w_warning : jsstring;
  w_reason : jsstring
}.

(** [obj[key] = v] on an object kept as the list of its own entries, in
    the order they were added.  An assignment to [__proto__] goes to the
    setter of the prototype and adds no entry. *)
Fixpoint setOwn {V : Type} (o : list (jsstring * V)) (key : jsstring)
    (v : V) : list (jsstring * V) :=
  match o with
  | [] => [(key, v)]
  | (k0, v0) :: o' =>
      if JS.eqb k0 key then (k0, v) :: o' else (k0, v0) :: setOwn o' key v
  end.

Definition setProp {V : Type} (o : list (jsstring * V)) (key : jsstring)
    (v : V) : list (jsstring * V) :=
  if JS.eqb key (js "__proto__") then o else setOwn o key v.

Record Categories := {
  mainContract : option jsstring;
  criticalFiles : list jsstring;
  redFlagFiles : list jsstring;
  dependencies : list jsstring;
  interfaces : list jsstring;
  excluded : list jsstring;
  excludedReasons : list (jsstring * jsstring);
  warnings : list Warning
}.

Definition isMain (filePath : jsstring) (main : option jsstring) : bool :=
  match main with
  | Some m => JS.eqb filePath m
  | None => false
  end.

Definition textOf (v : option jsstring) : jsstring :=
  match v with
  | Some t => t
  | None => []
  end.

(** One turn of the loop of [categorizeFilesForAudit] (lines 535-564);
    [push] appends. *)
Definition categorizeStep (main : option jsstring) (cat : Categories)
    (entry : jsstring * jsstring) : Categories :=
  let (filePath, content) := entry in
  let exclusion := shouldExcludeFromAudit filePath in
  if truthy (warning exclusion) then
    {| mainContract := mainContract cat;
       criticalFiles := criticalFiles cat ++ [filePath];
       redFlagFiles := redFlagFiles cat ++ [filePath];
       dependencies := dependencies cat;
       interfaces := interfaces cat;
       excluded := excluded cat;
       excludedReasons := excludedReasons cat;
       warnings := warnings cat ++
         [{| w_file := filePath;
             w_warning := textOf (warning exclusion);
             w_reason := reason exclusion |}] |}
  else if shouldExclude exclusion then
    {| mainContract := mainContract cat;
       criticalFiles := criticalFiles cat;
       redFlagFiles := redFlagFiles cat;
       dependencies := dependencies cat;
       interfaces := interfaces cat;
       excluded := excluded cat ++ [filePath];
       excludedReasons :=
         setProp (excludedReasons cat) filePath (reason exclusion);
       warnings := warnings cat |}
  else if isMain filePath main then cat
  else if isPureInterface content then
    {| mainContract := mainContract cat;
       criticalFiles := criticalFiles cat;
       redFlagFiles := redFlagFiles cat;
       dependencies := dependencies cat;
       interfaces := interfaces cat ++ [filePath];
       excluded := excluded cat;
       excludedReasons := excludedReasons cat;
       warnings :=
         if truthy (note exclusion) then
           warnings cat ++
             [{| w_file := filePath;
                 w_warning := textOf (note exclusion);
                 w_reason := js "interface-review" |}]
         else warnings cat |}
  else
    {| mainContract := mainContract cat;
       criticalFiles := criticalFiles cat ++ [filePath];
       redFlagFiles := redFlagFiles cat;
       dependencies := dependencies cat;
       interfaces := interfaces cat;
       excluded := excluded cat;
       excludedReasons := excludedReasons cat;
       warnings := warnings cat |}.

(** Lines 523-567.  [files] is [Object.entries(files)]: the paths of an
    object are pairwise different. *)
Definition categorizeFilesForAudit (files : list (jsstring * jsstring))
    (main : option jsstring) : Categories :=
  fold_left (categorizeStep main) files
    {| mainContract := main;
       criticalFiles := [];
       redFlagFiles := [];
       dependencies := [];
       interfaces := [];
       excluded := [];
       excludedReasons := [];
       warnings := [] |}.

End Triage.

Import Triage.

(** ** The blacklist and the save loop ([sourceParser.js]) *)

Module Persist.

(** What [loadBlacklist] finds at [BLACKLIST_CONFIG_PATH]: no file; a file
    that cannot be read or parsed (the exception is caught and a warning
    is printed); or a parsed object, whose [contractFileNames] is a list
    of strings or is not set. *)
Inductive ConfigFile : Type :=
| Missing
| Unreadable
| Loaded (contractFileNames : option (list jsstring)).

(** Lines 152-162. *)
Definition loadBlacklist (cfg : ConfigFile) : list jsstring :=
  match cfg with
  | Loaded (Some names) => names
  | Loaded None => []
  | Unreadable => []
  | Missing => []
  end.

(** [filePath.replace(/\\/g, '/')] *)
Definition forwardSlashes (filePath : jsstring) : jsstring :=
  map (fun c => if c =? BACKSLASH then SLASH else c) filePath.

(** Lines 169-190. *)
Definition isBlacklisted (cfg : ConfigFile) (filePath : jsstring) : bool :=
  match filePath with
  | [] => false
  | _ :: _ =>
      let blacklist := loadBlacklist cfg in
      match blacklist with
      | [] => false
      | _ :: _ =>
          let normalizedPath := forwardSlashes filePath in
          existsb (fun pattern => includes normalizedPath pattern) blacklist
      end
  end.

(** The calls that change the disk, as the save loop attempts them, in
    order: [MkDir d] is the [mkdirSync] of line 749, made when
    [existsSync] says that [d] is not there, and [WriteFile p c] the
    [writeFileSync] of line 759.  A call is listed whether it returns or
    throws. *)
Inductive FsCall : Type :=
| MkDir (dir : jsstring)
| WriteFile (fullPath content : jsstring).

Record SaveState := {
  fsCalls : list FsCall;
  savedFiles : list jsstring;
  excludedFiles : list jsstring;
  saveExcludedReasons : list (jsstring * jsstring);
  keptFiles : list jsstring;
  blacklistedFiles : list jsstring
}.

Definition emptySave : SaveState :=
  {| fsCalls := []; savedFiles := []; excludedFiles := [];
     saveExcludedReasons := []; keptFiles := []; blacklistedFiles := [] |}.

Section SaveLoop.

(** [path.join] and [path.dirname] of the runtime. *)
Variable path_join : list jsstring -> jsstring.
Variable path_dirname : jsstring -> jsstring.

(** The file system of the runtime.  [Disk] is its state.  A call that
    changes it gives the state it leaves and, when it throws, the message
    of the exception ([EISDIR], [ENOTDIR], [EACCES], ...).  [mkdirSync]
    is the call with [recursive: true]. *)
Variable Disk : Type.
Variable existsSync : Disk -> jsstring -> bool.
Variable mkdirSync : Disk -> jsstring -> Disk * option jsstring.
Variable writeFileSync : Disk -> jsstring -> jsstring -> Disk * option jsstring.

Variable cfg : ConfigFile.
Variable baseDir : jsstring.
Variable contractType : jsstring.

(** Lines 707-712. *)
Definition subDir : jsstring :=
  if JS.eqb contractType (js "proxy") then js "proxy"
  else if JS.eqb contractType (js "implementation") then js "implementation"
  else [].

(** Lines 722-725. *)
Definition stripLeadingSlash (filePath : jsstring) : jsstring :=
  match filePath with
  | c :: r => if c =? SLASH then r else filePath
  | [] => filePath
  end.

(** Lines 741-743. *)
Definition fullPathOf (normalizedPath : jsstring) : jsstring :=
  match subDir with
  | [] => path_join [baseDir; normalizedPath]
  | _ :: _ => path_join [baseDir; subDir; normalizedPath]
  end.

(** Lines 753-756. *)
Definition processedContentOf (normalizedPath content : jsstring)
  : jsstring :=
  if endsWith normalizedPath (js ".sol") then stripSolidityComments content
  else content.

(** Where the loop stands: still running, with the disk and what it has
    collected, or left by an exception that nothing in [saveSourceFiles]
    catches, with the disk and the calls attempted up to the one that
    threw. *)
Inductive Progress : Type :=
| Running (disk : Disk) (st : SaveState)
| Thrown (disk : Disk) (calls : list FsCall) (message : jsstring).

(** One turn of the loop of [saveSourceFiles] (lines 720-771). *)
Definition saveStep (disk : Disk) (st : SaveState)
    (entry : jsstring * jsstring) : Progress :=
  let (filePath, content) := entry in
  let normalizedPath := stripLeadingSlash filePath in
  if isBlacklisted cfg normalizedPath then
    Running disk
      {| fsCalls := fsCalls st;
         savedFiles := savedFiles st;
         excludedFiles := excludedFiles st ++ [normalizedPath];
         saveExcludedReasons :=
           setProp (saveExcludedReasons st) normalizedPath
             (js "blacklisted-vendor-library");
         keptFiles := keptFiles st;
         blacklistedFiles := blacklistedFiles st ++ [normalizedPath] |}
  else
    let exclusion := shouldExcludeFromAudit normalizedPath in
    let fullPath := fullPathOf normalizedPath in
    let fileDir := path_dirname fullPath in
    let made :=
      if existsSync disk fileDir then (disk, None, fsCalls st)
      else (mkdirSync disk fileDir, fsCalls st ++ [MkDir fileDir]) in
    match made with
    | (disk1, Some message, calls1) => Thrown disk1 calls1 message
    | (disk1, None, calls1) =>
        let processedContent := processedContentOf normalizedPath content in
        let calls2 := calls1 ++ [WriteFile fullPath processedContent] in
        match writeFileSync disk1 fullPath processedContent with
        | (disk2, Some message) => Thrown disk2 calls2 message
        | (disk2, None) =>
            if shouldExclude exclusion && negb (truthy (warning exclusion))
            then
              Running disk2
                {| fsCalls := calls2;
                   savedFiles := savedFiles st ++ [fullPath];
                   excludedFiles := excludedFiles st ++ [normalizedPath];
                   saveExcludedReasons :=
                     setProp (saveExcludedReasons st) normalizedPath
                       (reason exclusion);
                   keptFiles := keptFiles st;
                   blacklistedFiles := blacklistedFiles st |}
            else
              Running disk2
                {| fsCalls := calls2;
                   savedFiles := savedFiles st ++ [fullPath];
                   excludedFiles := excludedFiles st;
                   saveExcludedReasons := saveExcludedReasons st;
                   keptFiles := keptFiles st ++ [normalizedPath];
                   blacklistedFiles := blacklistedFiles st |}
        end
    end.

(** The loop over the entries that are left. *)
Fixpoint saveLoop (disk : Disk) (st : SaveState)
    (files : list (jsstring * jsstring)) : Progress :=
  match files with
  | [] => Running disk st
  | entry :: rest =>
      match saveStep disk st entry with
      | Running disk' st' => saveLoop disk' st' rest
      | Thrown disk' calls message => Thrown disk' calls message
      end
  end.

(** The loop of [saveSourceFiles] over [Object.entries(parsedSource.files)]
    (lines 702-771), started on [disk], the disk as
    [createOutputDirectory] leaves it: where the loop ends.  The rest of
    the function deletes the files of [excludedFiles] that exist, prunes
    empty directories and writes the manifest; it writes no source
    file. *)
Definition saveSourceFiles (disk : Disk)
    (files : list (jsstring * jsstring)) : Progress :=
  saveLoop disk emptySave files.


End SaveLoop.

Arguments Running {Disk} disk st.
Arguments Thrown {Disk} disk calls message.

End Persist.

Import Persist.

(** ** Source parsing ([parseSourceCode]) *)

Module Parser.

#[local] Set Warnings "-register-all".

(** A value produced by [JSON.parse], with [undefined] for a property that
    is not set.  A number is the double [m * 2^e].  An object is the list
    of its entries in the order [Object.entries] enumerates them, with
    pairwise different keys. *)
Inductive JValue : Type :=
| JUndefined
| JNull
| JBool (b : bool)
| JNum (m e : Z)
| JStr (s : jsstring)
| JArr (items : list JValue)
| JObj (props : list (jsstring * JValue)).

Definition isTruthy (v : JValue) : bool :=
  match v with
  | JUndefined | JNull => false
  | JBool b => b
  | JNum m _ => negb (Z.eqb m 0)
  | JStr s => match s with [] => false | _ :: _ => true end
  | JArr _ | JObj _ => true
  end.

Fixpoint lookup (props : list (jsstring * JValue)) (key : jsstring)
  : JValue :=
  match props with
  | [] => JUndefined
  | (k0, v) :: rest => if JS.eqb k0 key then v else lookup rest key
  end.

(** [v.key] for the names the parser reads ([sources], [content],
    [settings], [language]); [None] is the [TypeError] raised on [null]
    and [undefined]. *)
Definition getProp (v : JValue) (key : jsstring) : option JValue :=
  match v with
  | JUndefined | JNull => None
  | JObj props => Some (lookup props key)
  | _ => Some JUndefined
  end.

Fixpoint digits (fuel : nat) (n : N) (acc : jsstring) : jsstring :=
  match fuel with
  | O => acc
  | S fuel' =>
      let acc' := (48 + n mod 10) :: acc in
      if n / 10 =? 0 then acc' else digits fuel' (n / 10) acc'
  end.

(** The decimal name of an index. *)
Definition decimal (n : N) : jsstring := digits (S (N.to_nat (N.log2 n))) n [].

Fixpoint indexed (i : N) (vs : list JValue) : list (jsstring * JValue) :=
  match vs with
  | [] => []
  | v :: vs' => (decimal i, v) :: indexed (i + 1) vs'
  end.

(** [Object.entries(v)]; [None] is the [TypeError] on [null] and
    [undefined]. *)
Definition entries (v : JValue) : option (list (jsstring * JValue)) :=
  match v with
  | JUndefined | JNull => None
  | JObj props => Some props
  | JArr items => Some (indexed 0 items)
  | JStr s => Some (indexed 0 (map (fun c => JStr [c]) s))
  | JBool _ | JNum _ _ => Some []
  end.

Record ParsedSource := {
  type : jsstring;
  files : list (jsstring * JValue);
  settings : option JValue;
  language : option JValue
}.

(** Lines 223-225; [None] when reading [fileData.content] throws. *)
Fixpoint sourcesLoop (es : list (jsstring * JValue))
    (acc : list (jsstring * JValue)) : option (list (jsstring * JValue)) :=
  match es with
  | [] => Some acc
  | (filePath, fileData) :: es' =>
      match getProp fileData (js "content") with
      | None => None
      | Some c =>
          sourcesLoop es'
            (setProp acc filePath (if isTruthy c then c else JStr []))
      end
  end.

(** Lines 236-242. *)
Fixpoint flatLoop (es : list (jsstring * JValue))
    (acc : list (jsstring * JValue)) : option (list (jsstring * JValue)) :=
  match es with
  | [] => Some acc
  | (filePath, content) :: es' =>
      match content with
      | JStr _ => flatLoop es' (setProp acc filePath content)
      | _ =>
          match getProp content (js "content") with
          | None => None
          | Some c =>
              if isTruthy c then flatLoop es' (setProp acc filePath c)
              else flatLoop es' acc
          end
      end
  end.

Definition orElse (v d : JValue) : JValue := if isTruthy v then v else d.

Section Parse.

(** [JSON.parse] of the runtime; [None] is the [SyntaxError]. *)
Variable JSON_parse : jsstring -> option JValue.

(** The body of the [try] (lines 218-247); [None] when it throws. *)
Definition parseJson (trimmedSource : jsstring) : option ParsedSource :=
  match JSON_parse trimmedSource with
  | None => None
  | Some jsonSource =>
      match getProp jsonSource (js "sources") with
      | None => None
      | Some sources =>
          if isTruthy sources then
            match entries sources with
            | None => None
            | Some es =>
                match sourcesLoop es [] with
                | None => None
                | Some fs =>
                    match getProp jsonSource (js "settings"),
                          getProp jsonSource (js "language") with
                    | Some st, Some lg =>
                        Some {| type := js "multi-file";
                                files := fs;
                                settings := Some (orElse st (JObj []));
                                language :=
                                  Some (orElse lg (JStr (js "Solidity"))) |}
                    | _, _ => None
                    end
                end
            end
          else
            match entries jsonSource with
            | None => None
            | Some es =>
                match flatLoop es [] with
                | None => None
                | Some fs =>
                    Some {| type := js "multi-file"; files := fs;
                            settings := None; language := None |}
                end
            end
      end
  end.

(** [s.slice(1, -1)] *)
Definition slice_1_m1 (s : jsstring) : jsstring := removelast (tl s).

(** Lines 208-213. *)
Definition unwrap (sourceCode : jsstring) : jsstring :=
  let trimmedSource := trim sourceCode in
  if startsWith trimmedSource (js "{{") && endsWith trimmedSource (js "}}")
  then slice_1_m1 trimmedSource
  else trimmedSource.

(** Lines 198-260. *)
Definition parseSourceCode (sourceCode : jsstring) : ParsedSource :=
  match sourceCode with
  | [] =>
      {| type := js "empty"; files := [];
         settings := None; language := None |}
  | _ :: _ =>
      let trimmedSource := unwrap sourceCode in
      let parsed :=
        if startsWith trimmedSource (js "{") then parseJson trimmedSource
        else None in
      match parsed with
      | Some result => result
      | None =>
          {| type := js "single-file";
             files := [(js "contract.sol", JStr sourceCode)];
             settings := None; language := None |}
      end
  end.

End Parse.

End Parser.

Import Parser.

(** ** Proxy detection ([proxyDetector.js]) *)

Module Proxy.

(** The outcome of a call that may throw. *)
Inductive Res (A : Type) : Type :=
| Ok (a : A)
| Throw (message : jsstring).
Arguments Ok {A} a.
Arguments Throw {A} message.

(** What a resolution does to the outside, in order: the three read-only
    requests to the chain, and the console. *)
Inductive Event : Type :=
| GetCode (address : jsstring)
| GetStorage (address slot : jsstring)
| CallView (address method : jsstring)
| ConsoleLog (text : jsstring)
| ConsoleError (text : jsstring).

(** The chain as one resolution sees it: provider calls answer or throw,
    and a request repeated during the resolution has the same answer. *)
Record Provider := {
  getCode : jsstring -> Res jsstring;
  getStorage : jsstring -> jsstring -> Res jsstring;
  callView : jsstring -> jsstring -> Res jsstring
}.

(** Asynchronous code: a result or an exception, with the events made. *)
Definition M (A : Type) : Type := (Res A * list Event)%type.

Definition ret {A} (a : A) : M A := (Ok a, []).

Definition throw {A} (message : jsstring) : M A := (Throw message, []).

Definition bind {A B} (m : M A) (f : A -> M B) : M B :=
  match m with
  | (Ok a, t) => let (r, t') := f a in (r, t ++ t')
  | (Throw e, t) => (Throw e, t)
  end.

(** [try { m } catch (error) { h error }] *)
Definition catch {A} (m : M A) (h : jsstring -> M A) : M A :=
  match m with
  | (Throw e, t) => let (r, t') := h e in (r, t ++ t')
  | (Ok a, t) => (Ok a, t)
  end.

Definition request {A} (e : Event) (answer : Res A) : M A := (answer, [e]).

Definition console_log (text : jsstring) : M unit := (Ok tt, [ConsoleLog text]).

Definition console_error (text : jsstring) : M unit :=
  (Ok tt, [ConsoleError text]).

Notation "x <- m ;; k" := (bind m (fun x => k))
  (at level 61, m at next level, right associativity).
Notation "m ;;; k" := (bind m (fun _ => k))
  (at level 61, right associativity).

Definition EIP_1967_LOGIC_SLOT : jsstring :=
  js "0x360894a13ba1a3210667c828492db98dca3e2076cc3735a920a3ca505d382bbc".
Definition EIP_1967_BEACON_SLOT : jsstring :=
  js "0xa3f0ad74e5423aebfd80d3ef4346578335a9a72aeaee59ff6cb3582b35133d50".
Definition OPEN_ZEPPELIN_IMPLEMENTATION_SLOT : jsstring :=
  js "0x7050c9e0f4ca769c69bd3a8ef740bc37934f8e2c036e5a723fd8ee048ed3f8c3".
Definition EIP_1822_LOGIC_SLOT : jsstring :=
  js "0xc5f16f0fcc639fa48a6947836d9850f504798523bf8c9a3a87d5876cf622bcf7".

(** The functions each interface declares. *)
Definition EIP_897_ABI : list jsstring := [js "implementation"].
Definition GNOSIS_SAFE_PROXY_ABI : list jsstring := [js "masterCopy"].
Definition EIP_1167_BEACON_ABI : list jsstring :=
  [js "implementation"; js "childImplementation"].

Definition ZERO_ADDRESS : jsstring :=
  js "0x0000000000000000000000000000000000000000".

(** A message that starts with two spaces, a sign and a space. *)
Definition signed (sign : N) (text : string) : jsstring :=
  [32; 32; sign; 32] ++ js text.
Definition CHECK_MARK : N := 10003.
Definition WARNING_SIGN : N := 9888.
Definition INFO_SIGN : N := 8505.

(** [s.replace('0x', '')]: the first occurrence is removed. *)
Fixpoint removeFirst (p s : jsstring) : jsstring :=
  if startsWith s p then skipn (List.length p) s
  else match s with
       | [] => []
       | c :: r => c :: removeFirst p r
       end.

(** [s.padStart(n, '0')] *)
Definition padStart (n : nat) (s : jsstring) : jsstring :=
  repeat 48 (n - List.length s)%nat ++ s.

(** [s.slice(-n)] *)
Definition lastUnits (n : nat) (s : jsstring) : jsstring :=
  skipn (List.length s - n)%nat s.

(** A non-empty string is truthy; [null] and the empty string are not. *)
Definition found (a : option jsstring) : bool :=
  match a with
  | Some (_ :: _) => true
  | _ => false
  end.

(** [code && code !== '0x' && code !== '0x0'] *)
Definition hasCode (code : jsstring) : bool :=
  match code with
  | [] => false
  | _ :: _ => negb (JS.eqb code (js "0x")) && negb (JS.eqb code (js "0x0"))
  end.

(** [/^0x363d3d373d3d3d363d73([a-fA-F0-9]{40})5af43d82803e903d91602b57fd5bf3$/],
    the standard template. *)
Definition RE_EIP1167 : re :=
  seqs [Bos; lit "0x363d3d373d3d3d363d73"; Group (rep 40 hex);
        lit "5af43d82803e903d91602b57fd5bf3"; Eos].

(** [/^0x36600080376020363660203736[a-f0-9]*73([a-fA-F0-9]{40})[a-f0-9]*$/i] *)
Definition RE_EIP1167_ALT : re :=
  seqs [Bos; liti "0x36600080376020363660203736"; Star hex; liti "73";
        Group (rep 40 hex); Star hex; Eos].

(** [/contract\s+\w+\s+is\s+[^{]*Proxy/i] *)
Definition RE_PROXY_INHERITANCE : re :=
  seqs [liti "contract"; plus ws; plus word; plus ws; liti "is"; plus ws;
        Star (notc 123); liti "Proxy"].

(** [/function\s+_implementation\s*\(\s*\)\s+internal\s+view\s+
    (?:virtual\s+)?override\s+returns\s*\(\s*address\s*\)/i], written here
    on two lines. *)
Definition RE_IMPLEMENTATION_FUNCTION : re :=
  seqs [liti "function"; plus ws; liti "_implementation"; Star ws;
        chr 40; Star ws; chr 41; plus ws; liti "internal"; plus ws;
        liti "view"; plus ws; opt (Seq (liti "virtual") (plus ws));
        liti "override"; plus ws; liti "returns"; Star ws; chr 40;
        Star ws; liti "address"; Star ws; chr 41].

(** [/bytes32\s+(?:public\s+|private\s+)?constant\s+
    \w*STORAGE[_]?SLOT\w*\s*=\s*0x([a-fA-F0-9]{64})/i], written here on two
    lines. *)
Definition RE_STORAGE_SLOT : re :=
  seqs [liti "bytes32"; plus ws;
        opt (Alt (Seq (liti "public") (plus ws))
                 (Seq (liti "private") (plus ws)));
        liti "constant"; plus ws; Star word; liti "STORAGE"; opt (chr 95);
        liti "SLOT"; Star word; Star ws; chr 61; Star ws; liti "0x";
        Group (rep 64 hex)].

(** [/[a-fA-F0-9]{40}/g] *)
Definition RE_ADDRESS_HEX : re := rep 40 hex.

(** The properties of the registry record that the detector reads; a
    property that is not set is the empty string. *)
Record SourceData := {
  isVerified : bool;
  sourceCode : jsstring;
  constructorArguments : jsstring;
  sd_isProxy : bool;
  implementation : jsstring
}.

Record ProxyInfo := {
  isProxy : bool;
  proxyAddress : jsstring;
  implementationAddress : option jsstring;
  detectionMethod : option jsstring;
  error : option jsstring
}.

(** [CHAIN_CONFIG]: the [rpcUrl] of each chain. *)
Definition CHAIN_CONFIG : list (jsstring * jsstring) :=
  [ (js "ethereum", js "https://ethereum.publicnode.com");
    (js "bsc", js "https://bsc.blockrazor.xyz");
    (js "base", js "https://base-rpc.publicnode.com");
    (js "arbitrum", js "https://arbitrum.publicnode.com") ].

(** The names [CHAIN_CONFIG] inherits from [Object.prototype] that a
    lower-cased name can be equal to: [CHAIN_CONFIG[name]] is then a
    truthy value without an [rpcUrl]. *)
Definition INHERITED : list jsstring :=
  map js [ "constructor"; "__proto__" ]%string.

Fixpoint assoc (l : list (jsstring * jsstring)) (key : jsstring)
  : option jsstring :=
  match l with
  | [] => None
  | (k0, v) :: l' => if JS.eqb k0 key then Some v else assoc l' key
  end.

(** [chainName.toLowerCase()]; the Kelvin sign is the one unit outside
    ASCII whose lower case is an ASCII letter. *)
Definition toLowerCase (s : jsstring) : jsstring :=
  map (fun c => if c =? 8490 then 107 else toLower c) s.

(** [getChainConfig]: [None] is [null]; [Some None] is a value without
    [rpcUrl]. *)
Definition getChainConfig (chainName : jsstring)
  : option (option jsstring) :=
  let normalizedName := trim (toLowerCase chainName) in
  match assoc CHAIN_CONFIG normalizedName with
  | Some url => Some (Some url)
  | None =>
      if existsb (JS.eqb normalizedName) INHERITED then Some None else None
  end.

Section Detector.

(** [ethers.getAddress]: the checksummed address, [None] when it throws. *)
Variable getAddress : jsstring -> option jsstring.

(** [new ethers.JsonRpcProvider(rpcUrl)] *)
Variable connect : option jsstring -> Provider.

(** Lines 39-55. *)
Definition readAddressFromSlot (value : jsstring) : option jsstring :=
  let cleanValue := padStart 64 (removeFirst (js "0x") value) in
  let addressHex := js "0x" ++ lastUnits 40 cleanValue in
  if JS.eqb addressHex ZERO_ADDRESS then None
  else getAddress addressHex.

(** Lines 72-81, over the patterns that are left. *)
Fixpoint parsePatterns (patterns : list re) (bytecode : jsstring)
  : option jsstring :=
  match patterns with
  | [] => None
  | pattern :: rest =>
      match exec pattern bytecode with
      | Some {| matched := _; group1 := Some (c :: g) |} =>
          match getAddress (js "0x" ++ c :: g) with
          | Some a => Some a
          | None => parsePatterns rest bytecode
          end
      | _ => parsePatterns rest bytecode
      end
  end.

(** Lines 62-84. *)
Definition parseEIP1167Bytecode (bytecode : jsstring) : option jsstring :=
  parsePatterns [RE_EIP1167; RE_EIP1167_ALT] bytecode.

(** Lines 91-97. *)
Definition createProvider (chainName : jsstring) : Res Provider :=
  match getChainConfig chainName with
  | None => Throw (js "Unsupported chain: " ++ chainName)
  | Some rpcUrl => Ok (connect rpcUrl)
  end.

(** Lines 106-113. *)
Definition tryStorageSlot (provider : Provider) (address slot : jsstring)
  : M (option jsstring) :=
  catch
    (value <- request (GetStorage address slot)
                (getStorage provider address slot) ;;
     ret (readAddressFromSlot value))
    (fun _ => ret None).

(** Lines 123-134.  A method the interface does not declare is not a
    function of the contract object: calling it throws before any
    request. *)
Definition tryContractCall (provider : Provider) (address : jsstring)
    (abi : list jsstring) (methodName : jsstring) : M (option jsstring) :=
  catch
    (if existsb (JS.eqb methodName) abi then
       a <- request (CallView address methodName)
              (callView provider address methodName) ;;
       if found (Some a) && negb (JS.eqb a ZERO_ADDRESS) then
         match getAddress a with
         | Some checked => ret (Some checked)
         | None => throw (js "invalid address")
         end
       else ret None
     else throw (js "contract[methodName] is not a function"))
    (fun _ => ret None).

(** The loop over the constructor arguments (lines 202-218). *)
Fixpoint constructorLoop (provider : Provider) (addressMatches : list jsstring)
  : M (option jsstring) :=
  match addressMatches with
  | [] => ret None
  | addrHex :: rest =>
      r <- catch
             (match getAddress (js "0x" ++ addrHex) with
              | None => throw (js "invalid address")
              | Some potentialAddr =>
                  code <- request (GetCode potentialAddr)
                            (getCode provider potentialAddr) ;;
                  if hasCode code then
                    impl <- tryContractCall provider potentialAddr
                              EIP_897_ABI (js "implementation") ;;
                    if found impl then
                      console_log
                        (signed CHECK_MARK
                           "Found implementation via constructor argument storage contract: "
                         ++ match impl with Some a => a | None => [] end) ;;;
                      ret impl
                    else ret None
                  else ret None
              end)
             (fun _ => ret None) ;;
      if found r then ret r else constructorLoop provider rest
  end.

Definition textOfAddress (a : option jsstring) : jsstring :=
  match a with
  | Some t => t
  | None => []
  end.

(** Lines 171-193: the custom storage slot; [found] when the function
    returns from here. *)
Definition customSlotStage (provider : Provider) (proxyAddress : jsstring)
    (slotHex : jsstring) : M (option jsstring) :=
  let customSlot := js "0x" ++ slotHex in
    console_log
    (signed INFO_SIGN "Trying custom storage slot: " ++ customSlot) ;;;
  slotValue <- tryStorageSlot provider proxyAddress customSlot ;;
  if found slotValue then
    let slotAddress := textOfAddress slotValue in
    code <- request (GetCode slotAddress) (getCode provider slotAddress) ;;
    if hasCode code then
      console_log
        (signed CHECK_MARK "Found implementation at custom slot: "
         ++ slotAddress) ;;;
      ret slotValue
    else
      console_log
        (signed INFO_SIGN "Slot contains address " ++ slotAddress
         ++ js ", trying as storage contract...") ;;;
      impl <- tryContractCall provider slotAddress EIP_897_ABI
                (js "implementation") ;;
      if found impl then
        console_log
          (signed CHECK_MARK "Found implementation via storage contract: "
           ++ textOfAddress impl) ;;;
        ret impl
      else ret None
  else ret None.

(** Lines 144-227. *)
Definition detectProxyFromSource (provider : Provider)
    (proxyAddress : jsstring) (sourceData : SourceData)
  : M (option jsstring) :=
  catch
    (let source := sourceCode sourceData in
     let proxyInheritance := test RE_PROXY_INHERITANCE source in
     let hasImplementationFunction :=
       test RE_IMPLEMENTATION_FUNCTION source in
     let storageSlotMatch := exec RE_STORAGE_SLOT source in
     if negb proxyInheritance && negb hasImplementationFunction
        && (match storageSlotMatch with Some _ => false | None => true end)
     then ret None
     else
       console_log
         (signed INFO_SIGN
            "Non-standard proxy pattern detected in source code") ;;;
       impl <- tryContractCall provider proxyAddress EIP_897_ABI
                 (js "implementation") ;;
       if found impl then
         console_log
           (signed CHECK_MARK "Found implementation via implementation() call: "
            ++ textOfAddress impl) ;;;
         ret impl
       else
         viaSlot <-
           match storageSlotMatch with
           | Some m => customSlotStage provider proxyAddress
                         (textOfAddress (group1 m))
           | None => ret None
           end ;;
         if found viaSlot then ret viaSlot
         else
           match constructorArguments sourceData with
           | [] => ret None
           | constructorArgs =>
               constructorLoop provider
                 (matchAll RE_ADDRESS_HEX constructorArgs)
           end)
    (fun message =>
       console_error
         (js "  Error in source-based proxy detection: " ++ message) ;;;
       ret None).

(** The beacon probe (lines 298-309). *)
Definition beaconProbe (provider : Provider) (contractAddress : jsstring)
  : M (option jsstring) :=
  beaconAddress <- tryStorageSlot provider contractAddress
                     EIP_1967_BEACON_SLOT ;;
  if found beaconAddress then
    let beacon := textOfAddress beaconAddress in
    impl <- tryContractCall provider beacon EIP_1167_BEACON_ABI
              (js "implementation") ;;
    if negb (found impl) then
      tryContractCall provider beacon EIP_1167_BEACON_ABI
        (js "childImplementation")
    else ret impl
  else ret None.

(** Lines 278-310. *)
Definition detectionMethods (provider : Provider)
    (contractAddress code : jsstring) : list (M (option jsstring)) :=
  [ tryStorageSlot provider contractAddress EIP_1967_LOGIC_SLOT;
    tryStorageSlot provider contractAddress OPEN_ZEPPELIN_IMPLEMENTATION_SLOT;
    tryStorageSlot provider contractAddress EIP_1822_LOGIC_SLOT;
    ret (parseEIP1167Bytecode code);
    tryContractCall provider contractAddress EIP_897_ABI (js "implementation");
    tryContractCall provider contractAddress GNOSIS_SAFE_PROXY_ABI
      (js "masterCopy");
    beaconProbe provider contractAddress ].

(** The loop of lines 313-322: the first truthy answer, [None] when every
    method has been awaited without one. *)
Fixpoint firstImplementation (methods : list (M (option jsstring)))
  : M (option jsstring) :=
  match methods with
  | [] => ret None
  | method :: rest =>
      impl <- method ;;
      if found impl then ret impl else firstImplementation rest
  end.

Definition notProxy (contractAddress : jsstring) (err : option jsstring)
  : ProxyInfo :=
  {| isProxy := false;
     proxyAddress := contractAddress;
     implementationAddress := None;
     detectionMethod := None;
     error := err |}.

Definition proxyTo (contractAddress : jsstring) (impl : option jsstring)
    (method : option jsstring) : ProxyInfo :=
  {| isProxy := true;
     proxyAddress := contractAddress;
     implementationAddress := impl;
     detectionMethod := method;
     error := None |}.

(** Lines 277-342: what follows the registry shortcut. *)
Definition detectOnChain (provider : Provider) (contractAddress code : jsstring)
    (sourceData : option SourceData) : M ProxyInfo :=
  impl <- firstImplementation
            (detectionMethods provider contractAddress code) ;;
  if found impl then ret (proxyTo contractAddress impl None)
  else
    match sourceData with
    | Some sd =>
        if isVerified sd then
                    sourceBasedImpl <-
            detectProxyFromSource provider contractAddress sd ;;
          if found sourceBasedImpl then
            ret (proxyTo contractAddress sourceBasedImpl
                   (Some (js "source-code-analysis")))
          else ret (notProxy contractAddress None)
        else ret (notProxy contractAddress None)
    | None => ret (notProxy contractAddress None)
    end.

(** [sourceData && sourceData.isProxy && sourceData.implementation]: the
    declared implementation when the registry declares a proxy. *)
Definition declared (sourceData : option SourceData) : option jsstring :=
  match sourceData with
  | Some sd =>
      if sd_isProxy sd && found (Some (implementation sd))
      then Some (implementation sd) else None
  | None => None
  end.

(** Lines 249-352: the body run with the provider. *)
Definition detectWith (provider : Provider) (contractAddress : jsstring)
    (sourceData : option SourceData) : M ProxyInfo :=
  catch
    (code <- request (GetCode contractAddress)
               (getCode provider contractAddress) ;;
     if JS.eqb code (js "0x") || JS.eqb code (js "0x0") then
       ret (notProxy contractAddress (Some (js "No contract at address")))
     else
       match declared sourceData with
       | Some declaredImplementation =>
           match getAddress declaredImplementation with
           | Some etherscanImpl =>
               console_log
                 (signed CHECK_MARK
                    "Etherscan reports proxy with implementation: "
                  ++ etherscanImpl) ;;;
               ret (proxyTo contractAddress (Some etherscanImpl)
                      (Some (js "etherscan-api")))
           | None =>
               console_log
                 (signed WARNING_SIGN
                    "Invalid implementation address from Etherscan: "
                  ++ declaredImplementation) ;;;
               detectOnChain provider contractAddress code sourceData
           end
       | None => detectOnChain provider contractAddress code sourceData
       end)
    (fun message =>
       console_error
         (js "Error detecting proxy for " ++ contractAddress ++ js ": "
          ++ message) ;;;
       ret (notProxy contractAddress (Some message))).

(** Lines 246-353.  [createProvider] is called before the [try]. *)
Definition detectProxy (chainName contractAddress : jsstring)
    (sourceData : option SourceData) : M ProxyInfo :=
  match createProvider chainName with
  | Throw message => throw message
  | Ok provider => detectWith provider contractAddress sourceData
  end.

End Detector.

(** The requests to the chain among the events. *)
Definition requestsOf (events : list Event) : list Event :=
  filter (fun e => match e with
                   | ConsoleLog _ | ConsoleError _ => false
                   | _ => true
                   end) events.

End Proxy.

Import Proxy.

(** ** The rest of [chainConfig.js] *)

Module Chains.

(** [getSupportedChains]: [Object.keys(CHAIN_CONFIG)]. *)
Definition getSupportedChains : list jsstring := map fst CHAIN_CONFIG.

(** [isChainSupported]: [normalizedName in CHAIN_CONFIG], true of the keys
    of the table and of the names it inherits. *)
Definition isChainSupported (chainName : jsstring) : bool :=
  let normalizedName := trim (toLowerCase chainName) in
  existsb (JS.eqb normalizedName) getSupportedChains
  || existsb (JS.eqb normalizedName) INHERITED.

End Chains.

Import Chains.

(** ** Main-file detection ([detectMainContract]) *)

Module MainFile.

(** [/function\s+\w+[^{]*(?:external|public)/g] *)
Definition RE_PUBLIC_FUNCTION : re :=
  seqs [lit "function"; plus ws; plus word; Star (notc 123);
        Alt (lit "external") (lit "public")].

(** The source text of the pattern built from the contract name:
    [\b(?:contract|library)\s+NAME\b]. *)
Definition contractPatternSource (contractName : jsstring) : jsstring :=
  js "\b(?:contract|library)\s+" ++ contractName ++ js "\b".

Section Detect.

(** [path.basename(p)] and [path.basename(p, ext)] of the runtime. *)
Variable path_basename : jsstring -> jsstring.
Variable path_basename_ext : jsstring -> jsstring -> jsstring.

(** [new RegExp(source)] followed by [test]: the test of the compiled
    pattern, or the [SyntaxError] of a source that does not compile. *)
Variable RegExp_test : jsstring -> Res (jsstring -> bool).

(** Strategy 1, the loop of lines 454-464. *)
Fixpoint byFileName (contractFileName : jsstring)
    (fileEntries : list (jsstring * jsstring)) : option jsstring :=
  match fileEntries with
  | [] => None
  | (filePath, _) :: rest =>
      if endsWith filePath contractFileName then Some filePath
      else if JS.eqb (path_basename filePath) contractFileName
      then Some filePath
      else byFileName contractFileName rest
  end.

(** Strategy 2, the loop of lines 469-481; the pattern is built anew for
    each file that the name test lets through. *)
Fixpoint byContractName (contractName : jsstring)
    (fileEntries : list (jsstring * jsstring)) : Res (option jsstring) :=
  match fileEntries with
  | [] => Ok None
  | (filePath, content) :: rest =>
      if JS.eqb (path_basename_ext filePath (js ".sol")) contractName
      then Ok (Some filePath)
      else
        match RegExp_test (contractPatternSource contractName) with
        | Throw message => Throw message
        | Ok contractPattern =>
            if contractPattern content then Ok (Some filePath)
            else byContractName contractName rest
        end
  end.

(** Strategy 3, the loop of lines 488-496. *)
Fixpoint byLargest (fileEntries : list (jsstring * jsstring))
    (largestFile : option jsstring) (largestSize : nat)
  : option jsstring * nat :=
  match fileEntries with
  | [] => (largestFile, largestSize)
  | (filePath, content) :: rest =>
      if shouldExclude (shouldExcludeFromAudit filePath)
      then byLargest rest largestFile largestSize
      else if (largestSize <? List.length content)%nat
      then byLargest rest (Some filePath) (List.length content)
      else byLargest rest largestFile largestSize
  end.

(** Strategy 4, the loop of lines 502-511. *)
Fixpoint byFunctions (fileEntries : list (jsstring * jsstring))
    (largestFile : option jsstring) (mostFunctions : nat)
  : option jsstring * nat :=
  match fileEntries with
  | [] => (largestFile, mostFunctions)
  | (filePath, content) :: rest =>
      if shouldExclude (shouldExcludeFromAudit filePath)
      then byFunctions rest largestFile mostFunctions
      else
        let publicFunctions :=
          List.length (matchAll RE_PUBLIC_FUNCTION content) in
        if (mostFunctions <? publicFunctions)%nat
        then byFunctions rest (Some filePath) publicFunctions
        else byFunctions rest largestFile mostFunctions
  end.

(** Lines 448-515.  A name that is [null], [undefined] or empty is the
    empty string; the result is a path or [null]; [Throw] when a pattern
    does not compile. *)
Definition detectMainContract (fileEntries : list (jsstring * jsstring))
    (contractName contractFileName : jsstring) : Res (option jsstring) :=
  match (match contractFileName with
         | [] => None
         | _ :: _ => byFileName contractFileName fileEntries
         end) with
  | Some filePath => Ok (Some filePath)
  | None =>
      match (match contractName with
             | [] => Ok None
             | _ :: _ => byContractName contractName fileEntries
             end) with
      | Throw message => Throw message
      | Ok (Some filePath) => Ok (Some filePath)
      | Ok None =>
          let largestFile := fst (byLargest fileEntries None 0) in
          if negb (found largestFile)
          then Ok (fst (byFunctions fileEntries largestFile 0))
          else Ok largestFile
      end
  end.

End Detect.

End MainFile.

Import MainFile.

(** ** The start of [processAndSaveSource] *)

Module Process.

(** [delete obj[key]] *)
Definition deleteProp {V : Type} (o : list (jsstring * V)) (key : jsstring)
  : list (jsstring * V) :=
  filter (fun e => negb (JS.eqb (fst e) key)) o.

(** Lines 955-960: the file of a single-file tree is renamed after the
    contract.  [Object.keys(files)[0]] of an object without keys is
    [undefined]. *)
Definition renameSingleFile (parsedSource : ParsedSource)
    (contractName : jsstring) : ParsedSource :=
  match contractName with
  | [] => parsedSource
  | _ :: _ =>
      if JS.eqb (type parsedSource) (js "single-file") then
        let oldKey :=
          match files parsedSource with
          | (key, _) :: _ => key
          | [] => js "undefined"
          end in
        let newKey := contractName ++ js ".sol" in
        let assigned :=
          setProp (files parsedSource) newKey
            (lookup (files parsedSource) oldKey) in
        {| type := type parsedSource;
           files := deleteProp assigned oldKey;
           settings := settings parsedSource;
           language := language parsedSource |}
      else parsedSource
  end.

(** Lines 939-960: the tree that [processAndSaveSource] hands to
    [saveSourceFiles]; [None] when the contract is not verified and the
    function returns [{ success: false, error: 'Contract is not verified' }]
    without parsing. *)
Definition sourceToSave (JSON_parse : jsstring -> option JValue)
    (verified : bool) (source contractName : jsstring)
  : option ParsedSource :=
  if negb verified then None
  else Some (renameSingleFile (parseSourceCode JSON_parse source)
               contractName).

End Process.

Import Process.

(** ** Pruning of empty directories ([cleanupEmptyDirectories])

    The part of the disk under a path is a tree of files and directories.
    Every call on an entry that exists succeeds; the one exception the
    function meets on such a tree is [readdirSync] on a directory that
    the recursive call has already removed, which its inner [try]
    catches. *)

Module Cleanup.

#[local] Set Warnings "-register-all".

Inductive Node : Type :=
| File (content : jsstring)
| Dir (entries : list (jsstring * Node)).

(** [/0x[a-fA-F0-9]{40}$/] *)
Definition RE_BASE_DIR : re := seqs [lit "0x"; rep 40 hex; Eos].

Section Prune.

(** [path.join] and [path.basename] of the runtime. *)
Variable path_join : list jsstring -> jsstring.
Variable path_basename : jsstring -> jsstring.

(** Lines 671-674: the directories the function does not remove when it
    is called on them. *)
Definition retained (directory : jsstring) : bool :=
  let baseName := path_basename directory in
  let isBaseDir := test RE_BASE_DIR directory in
  let isSpecialDir :=
    JS.eqb baseName (js "proxy") || JS.eqb baseName (js "implementation") in
  isBaseDir || isSpecialDir.

(** Lines 638-683, called on the entry [node] found at [directory]: what
    is at that path afterwards, [None] when the directory has been
    removed.  On a file [readdirSync] throws and nothing is done. *)
Fixpoint cleanupEmptyDirectories (directory : jsstring) (node : Node)
    {struct node} : option Node :=
  match node with
  | File content => Some (File content)
  | Dir entries =>
      let remainingFiles :=
        (fix each (files : list (jsstring * Node))
           : list (jsstring * Node) :=
           match files with
           | [] => []
           | (file, child) :: rest =>
               match child with
               | File _ => (file, child) :: each rest
               | Dir _ =>
                   match cleanupEmptyDirectories
                           (path_join [directory; file]) child with
                   | None => each rest
                   | Some (Dir []) => each rest
                   | Some cleaned => (file, cleaned) :: each rest
                   end
               end
           end) entries in
      match remainingFiles with
      | [] => if retained directory then Some (Dir []) else None
      | _ :: _ => Some (Dir remainingFiles)
      end
  end.

End Prune.

End Cleanup.

Import Cleanup.

(** ** [getBytecode] *)

Module Bytecode.

Section Get.

Variable connect : option jsstring -> Provider.

(** Lines 361-375 of [proxyDetector.js].  The error thrown inside the
    [try] for an empty code is caught by the [catch] of the same function
    and thrown again under the prefix. *)
Definition getBytecode (chainName contractAddress : jsstring) : M jsstring :=
  match createProvider connect chainName with
  | Throw message => throw message
  | Ok provider =>
      catch
        (bytecode <- request (GetCode contractAddress)
                       (getCode provider contractAddress) ;;
         if JS.eqb bytecode (js "0x") || JS.eqb bytecode (js "0x0") then
           throw (js "No bytecode found at address " ++ contractAddress
                  ++ js ". This might be an EOA or non-existent contract.")
         else ret bytecode)
        (fun message =>
           throw (js "Failed to get bytecode for " ++ contractAddress
                  ++ js ": " ++ message))
  end.

End Get.

End Bytecode.

Import Bytecode.

(** ** Audit metadata ([generateAuditMetadata]) *)

Module Metadata.

Record AuditCategories := {
  critical : list jsstring;
  redFlags : list jsstring;
  interfaces : list jsstring;
  excluded : list jsstring
}.

Record AuditPriority := {
  p_critical : list jsstring;
  high : list jsstring;
  medium : list jsstring;
  low : list jsstring;
  p_excluded : list jsstring
}.

Record AuditMetadata := {
  mainContract : jsstring;
  mainContractPath : option jsstring;
  contractFileName : option jsstring;
  totalFiles : nat;
  auditFiles : nat;
  excludedFiles : nat;
  reductionPercentage : N;
  warnings : list Warning;
  hasWarnings : bool;
  hasRedFlags : bool;
  redFlagFiles : list jsstring;
  categories : AuditCategories;
  excludedReasons : list (jsstring * jsstring);
  auditPriority : AuditPriority
}.

(** [value || null] of a string. *)
Definition orNull (value : jsstring) : option jsstring :=
  match value with
  | [] => None
  | _ :: _ => Some value
  end.

Section Generate.

Variable path_basename : jsstring -> jsstring.
Variable path_basename_ext : jsstring -> jsstring -> jsstring.
Variable RegExp_test : jsstring -> Res (jsstring -> bool).

(** [Math.round((excluded / total) * 100)] in the arithmetic of the
    runtime. *)
Variable roundPercent : nat -> nat -> N.

(** Lines 576-616; [Throw] when [detectMainContract] throws. *)
Definition generateAuditMetadata (files : list (jsstring * jsstring))
    (contractName contractFileName : jsstring) : Res AuditMetadata :=
  match detectMainContract path_basename path_basename_ext RegExp_test
          files contractName contractFileName with
  | Throw message => Throw message
  | Ok mainContract =>
      let categories := categorizeFilesForAudit files mainContract in
      let totalFiles := List.length files in
      let auditFiles := (1 + List.length (Triage.criticalFiles categories))%nat in
      let excludedFiles := List.length (Triage.excluded categories) in
      let hasWarnings :=
        (0 <? List.length (Triage.warnings categories))%nat in
      let hasRedFlags :=
        (0 <? List.length (Triage.redFlagFiles categories))%nat in
      Ok {| mainContract :=
              if found mainContract
              then path_basename (textOfAddress mainContract)
              else js "Unknown";
            mainContractPath :=
              if found mainContract then mainContract else None;
            contractFileName := orNull contractFileName;
            totalFiles := totalFiles;
            auditFiles := auditFiles;
            excludedFiles := excludedFiles;
            reductionPercentage :=
              if (0 <? totalFiles)%nat
              then roundPercent excludedFiles totalFiles
              else 0;
            warnings := Triage.warnings categories;
            hasWarnings := hasWarnings;
            hasRedFlags := hasRedFlags;
            redFlagFiles := Triage.redFlagFiles categories;
            categories :=
              {| critical :=
                   filter (fun f => found (Some f))
                     (match mainContract with
                      | Some m => m :: Triage.criticalFiles categories
                      | None => Triage.criticalFiles categories
                      end);
                 redFlags := Triage.redFlagFiles categories;
                 interfaces := Triage.interfaces categories;
                 excluded := Triage.excluded categories |};
            excludedReasons := Triage.excludedReasons categories;
            auditPriority :=
              {| p_critical :=
                   if (0 <? List.length (Triage.redFlagFiles categories))%nat
                   then Triage.redFlagFiles categories else [];
                 high :=
                   if found mainContract
                   then [textOfAddress mainContract] else [];
                 medium :=
                   filter
                     (fun f =>
                        negb (existsb (JS.eqb f)
                                (Triage.redFlagFiles categories)))
                     (Triage.criticalFiles categories);
                 low := Triage.interfaces categories;
                 p_excluded := Triage.excluded categories |} |}
  end.

End Generate.

End Metadata.

(** ** Notions used in the statements *)

Section TriageNotions.

Variable main : option jsstring.

(** The files the loop files as critical, and as interfaces. *)
Definition criticalOf (files : list (jsstring * jsstring)) : list jsstring :=
  map fst (filter (fun e => negb (isMain (fst e) main)
                            && negb (isPureInterface (snd e))) files).

Definition interfacesOf (files : list (jsstring * jsstring)) : list jsstring :=
  map fst (filter (fun e => negb (isMain (fst e) main)
                            && isPureInterface (snd e)) files).

End TriageNotions.

Section SaveNotions.

Variable cfg : ConfigFile.



(** What a run of the loop leaves behind: the disk, the calls attempted
    on it, and the message of the exception when it threw. *)
Definition effects {Disk : Type} (run : Progress Disk)
  : Disk * list FsCall * option jsstring :=
  match run with
  | Running disk st => (disk, fsCalls st, None)
  | Thrown disk calls message => (disk, calls, Some message)
  end.

End SaveNotions.

Definition singleFile (sourceCode : jsstring) : ParsedSource :=
  {| type := js "single-file";
     files := [(js "contract.sol", JStr sourceCode)];
     settings := None; language := None |}.

(** No unit of [s] but the last starts a closing marker: what the loop of
    [skipBlock] tests. *)
Fixpoint unterminated (s : jsstring) : bool :=
  match s with
  | c :: ((d :: _) as r) =>
      negb ((c =? STAR) && (d =? SLASH)) && unterminated r
  | _ => true
  end.

(** A string literal as the scan reads it: no unit of [body] closes the
    literal opened by [q], and the quote that follows [body] does.  [prev]
    is the unit before [body]. *)
Fixpoint literalBody (q prev : N) (body : jsstring) : bool :=
  match body with
  | [] => negb (prev =? BACKSLASH)
  | c :: r =>
      negb ((c =? q) && negb (prev =? BACKSLASH)) && literalBody q c r
  end.

Definition isQuote (q : N) : bool := (q =? QUOTE) || (q =? DQUOTE).

Definition noNewline (s : jsstring) : bool :=
  forallb (fun c => negb (c =? NL)) s.

(** The line [string s = "a // b";]. *)
Definition LINE_WITH_MARKER : jsstring :=
  js "string s = " ++ DQUOTE :: js "a // b" ++ DQUOTE :: js ";".

(** The line [string a = "\\"; string b = "x // y";], with a literal
    that ends in an escaped backslash. *)
Definition LINE_AFTER_BACKSLASH : jsstring :=
  js "string a = " ++ DQUOTE :: BACKSLASH :: BACKSLASH :: DQUOTE
  :: js "; string b = " ++ DQUOTE :: js "x // y" ++ DQUOTE :: js ";".

Section ChainNotions.

Variable getAddress : jsstring -> option jsstring.
Variable provider : Provider.

(** What each probe answers, read off the chain: the address a slot
    holds, and the address a call returns. *)
Definition slotAnswer (address slot : jsstring) : option jsstring :=
  match getStorage provider address slot with
  | Ok value => readAddressFromSlot getAddress value
  | Throw _ => None
  end.

Definition callAnswer (address method : jsstring) : option jsstring :=
  match callView provider address method with
  | Ok a => if found (Some a) && negb (JS.eqb a ZERO_ADDRESS)
            then getAddress a else None
  | Throw _ => None
  end.

Definition beaconAnswer (contractAddress : jsstring) : option jsstring :=
  let beacon := slotAnswer contractAddress EIP_1967_BEACON_SLOT in
  if found beacon then
    let viaImplementation :=
      callAnswer (textOfAddress beacon) (js "implementation") in
    if found viaImplementation then viaImplementation
    else callAnswer (textOfAddress beacon) (js "childImplementation")
  else None.

Definition beaconRequests (contractAddress : jsstring) : list Event :=
  let beacon := slotAnswer contractAddress EIP_1967_BEACON_SLOT in
  GetStorage contractAddress EIP_1967_BEACON_SLOT ::
  if found beacon then
    CallView (textOfAddress beacon) (js "implementation") ::
    (if found (callAnswer (textOfAddress beacon) (js "implementation"))
     then []
     else [CallView (textOfAddress beacon) (js "childImplementation")])
  else [].

(** The seven probes in the order of the priority chain: the answer of
    each, and the requests each makes. *)
Definition probeAnswers (contractAddress code : jsstring)
  : list (option jsstring) :=
  [ slotAnswer contractAddress EIP_1967_LOGIC_SLOT;
    slotAnswer contractAddress OPEN_ZEPPELIN_IMPLEMENTATION_SLOT;
    slotAnswer contractAddress EIP_1822_LOGIC_SLOT;
    parseEIP1167Bytecode getAddress code;
    callAnswer contractAddress (js "implementation");
    callAnswer contractAddress (js "masterCopy");
    beaconAnswer contractAddress ].

Definition probeRequests (contractAddress : jsstring) : list (list Event) :=
  [ [GetStorage contractAddress EIP_1967_LOGIC_SLOT];
    [GetStorage contractAddress OPEN_ZEPPELIN_IMPLEMENTATION_SLOT];
    [GetStorage contractAddress EIP_1822_LOGIC_SLOT];
    [];
    [CallView contractAddress (js "implementation")];
    [CallView contractAddress (js "masterCopy")];
    beaconRequests contractAddress ].

(** A probe that has run: its answer and its requests. *)
Definition ran (p : option jsstring * list Event) : M (option jsstring) :=
  (Ok (fst p), snd p).

(** The first truthy answer of a list, and the events of the probes run to
    get it. *)
Fixpoint firstFound (answers : list (option jsstring)) : option jsstring :=
  match answers with
  | [] => None
  | a :: rest => if found a then a else firstFound rest
  end.

Fixpoint attempted (l : list (option jsstring * list Event)) : list Event :=
  match l with
  | [] => []
  | (a, t) :: rest => t ++ (if found a then [] else attempted rest)
  end.

(** The code found at the address is that of a contract. *)
Definition deployed (code : jsstring) : bool :=
  negb (JS.eqb code (js "0x") || JS.eqb code (js "0x0")).

(** The registry shortcut is not taken: nothing is declared, or what is
    declared is not a valid address. *)
Definition noShortcut (sd : option SourceData) : Prop :=
  declared sd = None
  \/ exists d, declared sd = Some d /\ getAddress d = None.

(** What the registry record says, read off its fields: it declares a
    proxy with the implementation [d] ([isProxy] is set and
    [implementation] is the non-empty text [d]). *)
Definition registryDeclares (sourceData : option SourceData) (d : jsstring)
  : Prop :=
  exists record,
    sourceData = Some record
    /\ sd_isProxy record = true
    /\ implementation record = d
    /\ d <> [].

(** The registry gives nothing to trust: there is no record, or the
    record does not declare a proxy, or it names no implementation, or
    the implementation it names is not a valid address. *)
Definition registryUntrusted (sourceData : option SourceData) : Prop :=
  match sourceData with
  | None => True
  | Some record =>
      sd_isProxy record = false
      \/ implementation record = []
      \/ getAddress (implementation record) = None
  end.

Definition invalidLog (d : jsstring) : Event :=
  ConsoleLog
    (signed WARNING_SIGN "Invalid implementation address from Etherscan: "
     ++ d).

Definition reportLog (a : jsstring) : Event :=
  ConsoleLog
    (signed CHECK_MARK "Etherscan reports proxy with implementation: " ++ a).

Definition isRequest (e : Event) : bool :=
  match e with
  | ConsoleLog _ | ConsoleError _ => false
  | _ => true
  end.

End ChainNotions.

(** ** Notions of the further statements *)

(** No quote in [s], and no slash followed by a slash or a star: nothing
    in [s] opens a literal or a comment. *)
Fixpoint commentFree (s : jsstring) : bool :=
  match s with
  | [] => true
  | c :: r =>
      negb (isQuote c)
      && negb ((c =? SLASH)
               && match r with
                  | d :: _ => (d =? SLASH) || (d =? STAR)
                  | [] => false
                  end)
      && commentFree r
  end.

(** A result as every return of [detectProxy] builds it. *)
Definition coherent (contractAddress : jsstring) (info : ProxyInfo) : Prop :=
  proxyAddress info = contractAddress
  /\ (isProxy info = true ->
      implementationAddress info <> None /\ error info = None)
  /\ (isProxy info = false ->
      implementationAddress info = None /\ detectionMethod info = None).



(** The unit before the position reached after reading [l]. *)
Definition unitBefore (prev : option N) (l : jsstring) : option N :=
  fold_left (fun _ c => Some c) l prev.

(** The runtime code of a minimal proxy that forwards to the address
    whose forty digits are [target]. *)
Definition minimalProxyCode (target : jsstring) : jsstring :=
  js "0x363d3d373d3d3d363d73" ++ target
  ++ js "5af43d82803e903d91602b57fd5bf3".

(** The upper case of an ASCII letter. *)
Definition toUpper (c : N) : N := if isLower c then c - 32 else c.

(** [fileData.content || ''] of an entry of [sources] that is neither
    [null] nor [undefined]. *)
Definition contentOf (fileData : JValue) : JValue :=
  match getProp fileData (js "content") with
  | Some c => if isTruthy c then c else JStr []
  | None => JStr []
  end.

(** The files of a tree, each with the names on the way to it. *)
Fixpoint leaves (node : Node) : list (list jsstring * jsstring) :=
  match node with
  | File content => [([], content)]
  | Dir entries =>
      (fix each (es : list (jsstring * Node))
         : list (list jsstring * jsstring) :=
         match es with
         | [] => []
         | (name, child) :: rest =>
             map (fun l => (name :: fst l, snd l)) (leaves child) ++ each rest
         end) entries
  end.

Definition leavesIn (es : list (jsstring * Node))
  : list (list jsstring * jsstring) :=
  flat_map (fun e => map (fun l => (fst e :: fst l, snd l)) (leaves (snd e)))
    es.

Definition leavesOf (r : option Node) : list (list jsstring * jsstring) :=
  match r with
  | Some node => leaves node
  | None => []
  end.

(** No directory below the top of the tree is without entries. *)
Fixpoint tidy (node : Node) : bool :=
  match node with
  | File _ => true
  | Dir entries =>
      (fix each (es : list (jsstring * Node)) : bool :=
         match es with
         | [] => true
         | (_, child) :: rest =>
             match child with
             | File _ => true
             | Dir [] => false
             | Dir (_ :: _) => tidy child
             end && each rest
         end) entries
  end.

Definition keptChild (child : Node) : bool :=
  match child with
  | File _ => true
  | Dir [] => false
  | Dir (_ :: _) => tidy child
  end.

Definition isDir (node : Node) : bool :=
  match node with
  | File _ => false
  | Dir _ => true
  end.

Section PruneNotions.

Variable path_join : list jsstring -> jsstring.
Variable path_basename : jsstring -> jsstring.

(** The entries left in [directory] by the loop of lines 647-665. *)
Fixpoint remaining (directory : jsstring) (files : list (jsstring * Node))
  : list (jsstring * Node) :=
  match files with
  | [] => []
  | (file, child) :: rest =>
      match child with
      | File _ => (file, child) :: remaining directory rest
      | Dir _ =>
          match cleanupEmptyDirectories path_join path_basename
                  (path_join [directory; file]) child with
          | None => remaining directory rest
          | Some (Dir []) => remaining directory rest
          | Some cleaned => (file, cleaned) :: remaining directory rest
          end
      end
  end.

(** A cleaned tree is left as it is by a second pass, from whatever
    directory, unless it is an empty directory that the pass may remove. *)
Definition stable (node : Node) : Prop :=
  forall directory,
    (node = Dir [] -> retained path_basename directory = true) ->
    cleanupEmptyDirectories path_join path_basename directory node
    = Some node.

Definition pruned (node : Node) : Prop :=
  forall directory,
    leavesOf (cleanupEmptyDirectories path_join path_basename directory node)
    = leaves node
    /\ forall cleaned,
        cleanupEmptyDirectories path_join path_basename directory node
        = Some cleaned ->
        tidy cleaned = true /\ stable cleaned.

End PruneNotions.

(** ** Sample collaborators

    Concrete stand-ins for the runtime and the chain, on which the
    statements below are run. *)

Module Demo.

(** An address check that keeps the format rule of [ethers.getAddress]
    (prefix and forty hexadecimal digits) and returns the text as it is. *)
Definition getAddress (s : jsstring) : option jsstring :=
  if startsWith s (js "0x") && (List.length s =? 42)%nat
     && forallb isHex (skipn 2 s)
  then Some s else None.

Definition WORD_ZERO : jsstring := js "0x" ++ repeat 48 64%nat.

Definition LOGIC : jsstring := js "0x" ++ repeat 49 40%nat.
Definition LEGACY : jsstring := js "0x" ++ repeat 50 40%nat.

(** A chain on which every address has code, one storage slot holds an
    address and every call reverts. *)
Definition chainWith (slot holds : jsstring) : Provider :=
  {| getCode := fun _ => Ok (js "0x6080604052");
     getStorage := fun _ s =>
       if JS.eqb s slot
       then Ok (js "0x" ++ repeat 48 24%nat ++ skipn 2 holds)
       else Ok WORD_ZERO;
     callView := fun _ _ => Throw (js "execution reverted") |}.

(** A chain without code anywhere. *)
Definition bareChain : Provider :=
  {| getCode := fun _ => Ok (js "0x");
     getStorage := fun _ _ => Ok WORD_ZERO;
     callView := fun _ _ => Throw (js "execution reverted") |}.

Definition PROXY : jsstring := js "0x" ++ repeat 57 40%nat.

(** A chain on which the code of every address is the EIP-1167 template
    around [target], every slot is zero and every call reverts. *)
Definition minimalProxyChain (target : jsstring) : Provider :=
  {| getCode := fun _ =>
       Ok (js "0x363d3d373d3d3d363d73" ++ skipn 2 target
           ++ js "5af43d82803e903d91602b57fd5bf3");
     getStorage := fun _ _ => Ok WORD_ZERO;
     callView := fun _ _ => Throw (js "execution reverted") |}.

(** A parser that knows one text. *)
Definition KNOWN_JSON : jsstring :=
  js "{" ++ DQUOTE :: js "sources" ++ DQUOTE :: js ":{" ++ DQUOTE
  :: js "A.sol" ++ DQUOTE :: js ":{" ++ DQUOTE :: js "content" ++ DQUOTE
  :: js ":" ++ DQUOTE :: js "X" ++ DQUOTE :: js "}}}".

Definition JSON_parse (t : jsstring) : option JValue :=
  if JS.eqb t KNOWN_JSON
  then Some (JObj [(js "sources",
                    JObj [(js "A.sol", JObj [(js "content", JStr (js "X"))])])])
  else None.

(** Paths joined with a slash, and the directory part of a path. *)
Definition path_join (parts : list jsstring) : jsstring :=
  join SLASH (filter (fun part => negb (JS.eqb part [])) parts).

Fixpoint afterLastSlash (s : jsstring) : jsstring :=
  match s with
  | [] => []
  | c :: r => if c =? SLASH then r else afterLastSlash r
  end.

Definition path_dirname (p : jsstring) : jsstring :=
  rev (afterLastSlash (rev p)).

Definition VENDOR_FILE : jsstring := js "contracts/vendor/Foo.sol".


End Demo.

(** A registry record of a verified contract that says whether it is a
    proxy and names an implementation. *)
Definition registryRecord (declaresProxy : bool) (names : jsstring)
  : SourceData :=
  {| isVerified := true;
     sourceCode := js "contract Token { uint256 total; }";
     constructorArguments := [];
     sd_isProxy := declaresProxy;
     implementation := names |}.

(** A disk for the samples: the entries by path, the newest first.  A
    file can be written where its directory is a folder and the path is
    not one; [mkdirSync] makes the folders that are missing on the way. *)
Module SampleDisk.

Inductive Entry : Type :=
| Folder
| Document (content : jsstring).

Definition Disk : Type := list (jsstring * Entry).

Fixpoint entryAt (disk : Disk) (p : jsstring) : option Entry :=
  match disk with
  | [] => None
  | (q, e) :: rest => if JS.eqb q p then Some e else entryAt rest p
  end.

Definition existsSync (disk : Disk) (p : jsstring) : bool :=
  match entryAt disk p with
  | Some _ => true
  | None => false
  end.

Fixpoint makeFolders (fuel : nat) (disk : Disk) (p : jsstring)
  : Disk * option jsstring :=
  match entryAt disk p with
  | Some Folder => (disk, None)
  | Some (Document _) => (disk, Some (js "EEXIST: file already exists"))
  | None =>
      match fuel, Demo.path_dirname p with
      | S fuel', _ :: _ =>
          match makeFolders fuel' disk (Demo.path_dirname p) with
          | (disk', None) => ((p, Folder) :: disk', None)
          | failed => failed
          end
      | _, _ => ((p, Folder) :: disk, None)
      end
  end.

Definition mkdirSync (disk : Disk) (p : jsstring) : Disk * option jsstring :=
  makeFolders (List.length p) disk p.

Definition writeFileSync (disk : Disk) (p content : jsstring)
  : Disk * option jsstring :=
  match entryAt disk p with
  | Some Folder =>
      (disk, Some (js "EISDIR: illegal operation on a directory"))
  | _ =>
      match entryAt disk (Demo.path_dirname p) with
      | Some Folder => ((p, Document content) :: disk, None)
      | Some (Document _) => (disk, Some (js "ENOTDIR: not a directory"))
      | None => (disk, Some (js "ENOENT: no such file or directory"))
      end
  end.

(** The disk after [createOutputDirectory]: the contract directory, here
    [out], and nothing in it. *)
Definition FRESH : Disk := [(js "out", Folder)].

End SampleDisk.

(** ** Further samples *)

(** A chain whose node refuses every request. *)
Definition unreachableChain : Provider :=
  {| getCode := fun _ => Throw (js "timeout");
     getStorage := fun _ _ => Throw (js "timeout");
     callView := fun _ _ => Throw (js "timeout") |}.


(** The last segment of a path written with slashes, and the same
    without a given extension. *)
Fixpoint beforeSlash (s : jsstring) : jsstring :=
  match s with
  | [] => []
  | c :: r => if c =? SLASH then [] else c :: beforeSlash r
  end.

Definition basename (p : jsstring) : jsstring := rev (beforeSlash (rev p)).

Definition basename_ext (p ext : jsstring) : jsstring :=
  let b := basename p in
  if endsWith b ext then firstn (List.length b - List.length ext) b else b.

(** A pattern constructor that refuses every source. *)
Definition noRegExp (source : jsstring) : Res (jsstring -> bool) :=
  Throw (js "Invalid regular expression").

(** An output directory with an empty [proxy] folder and a source folder
    that holds one file and an empty folder. *)
Definition OUTPUT_TREE : Node :=
  Dir [(js "proxy", Dir []);
       (js "src", Dir [(js "A.sol", File (js "contract A {}"));
                       (js "interfaces", Dir [(js "deep", Dir [])])])].

(** The rounded percentage in exact arithmetic. *)
Definition roundPercent (part whole : nat) : N :=
  N.of_nat ((200 * part + whole) / (2 * whole)).


(** * Properties *)

(** ** Triage *)

Section TriageFacts.

Variable main : option jsstring.

Lemma categorize_fold (files : list (jsstring * jsstring)) :
  forall cat,
    fold_left (categorizeStep main) files cat =
    {| mainContract := mainContract cat;
       criticalFiles := criticalFiles cat ++ criticalOf main files;
       redFlagFiles := redFlagFiles cat;
       dependencies := dependencies cat;
       interfaces := interfaces cat ++ interfacesOf main files;
       excluded := excluded cat;
       excludedReasons := excludedReasons cat;
       warnings := warnings cat |}.
Proof.
  induction files as [|[filePath content] rest IH]; intros cat.
  - destruct cat; cbn. now rewrite !app_nil_r.
  - cbn [fold_left]. rewrite IH.
    unfold categorizeStep, criticalOf, interfacesOf.
    cbn [shouldExcludeFromAudit warning shouldExclude note truthy filter
         fst snd].
    destruct (isMain filePath main); cbn [negb andb].
    + reflexivity.
    + destruct (isPureInterface content); cbn [negb map fst];
        cbn [criticalFiles interfaces mainContract redFlagFiles dependencies
             excluded excludedReasons warnings];
        now rewrite <- ?app_assoc.
Qed.

Lemma categorize_closed (files : list (jsstring * jsstring)) :
  categorizeFilesForAudit files main =
  {| mainContract := main;
     criticalFiles := criticalOf main files;
     redFlagFiles := [];
     dependencies := [];
     interfaces := interfacesOf main files;
     excluded := [];
     excludedReasons := [];
     warnings := [] |}.
Proof. unfold categorizeFilesForAudit. now rewrite categorize_fold. Qed.

Lemma in_criticalOf files filePath content :
  In (filePath, content) files ->
  isMain filePath main = false ->
  isPureInterface content = false ->
  In filePath (criticalOf main files).
Proof.
  intros Hin Hm Hp. unfold criticalOf.
  apply (in_map fst _ (filePath, content)), filter_In. split; [exact Hin|].
  cbn. now rewrite Hm, Hp.
Qed.

Lemma in_interfacesOf files filePath content :
  In (filePath, content) files ->
  isMain filePath main = false ->
  isPureInterface content = true ->
  In filePath (interfacesOf main files).
Proof.
  intros Hin Hm Hp. unfold interfacesOf.
  apply (in_map fst _ (filePath, content)), filter_In. split; [exact Hin|].
  cbn. now rewrite Hm, Hp.
Qed.

End TriageFacts.

(** C3.  [shouldExcludeFromAudit] answers
    [{ shouldExclude: false, reason: 'custom-contract' }] for every path;
    hence [categorizeFilesForAudit] leaves [excluded], [redFlagFiles] and
    [warnings] empty, and every file that is neither the main file nor a
    pure interface is filed as critical. *)
Theorem C3_nothing_excluded_or_flagged :
  (forall filePath,
      shouldExcludeFromAudit filePath =
      {| shouldExclude := false; reason := js "custom-contract";
         warning := None; note := None |})
  /\ forall files main,
      let cat := categorizeFilesForAudit files main in
      excluded cat = [] /\ excludedReasons cat = []
      /\ redFlagFiles cat = [] /\ warnings cat = []
      /\ forall filePath content,
          In (filePath, content) files ->
          isMain filePath main = false ->
          isPureInterface content = false ->
          In filePath (criticalFiles cat).
Proof.
  split; [reflexivity|]. intros files main cat. subst cat.
  rewrite categorize_closed. cbn. repeat split.
  intros filePath content. apply in_criticalOf.
Qed.

(** C2, as amended.  A file under a red-flag directory is never given an
    exclusion classification, whatever its content: it is the main file,
    an interface or a critical file.  The classifier in force files no
    path under [redFlagFiles] and issues no warning. *)
Theorem C2_red_flag_path_is_kept_unflagged :
  forall files main filePath content,
    In (filePath, content) files ->
    matchesRedFlag filePath = true ->
    let cat := categorizeFilesForAudit files main in
    ~ In filePath (excluded cat)
    /\ (isMain filePath main = true
        \/ In filePath (interfaces cat)
        \/ In filePath (criticalFiles cat))
    /\ redFlagFiles cat = [] /\ warnings cat = [].
Proof.
  intros files main filePath content Hin _ cat. subst cat.
  rewrite categorize_closed. cbn. repeat split; [tauto|].
  destruct (isMain filePath main) eqn:Hm; [now left|right].
  destruct (isPureInterface content) eqn:Hp.
  - left. now apply in_interfacesOf with content.
  - right. now apply in_criticalOf with content.
Qed.

Lemma C3_nothing_excluded_or_flagged_witness :
  In Demo.VENDOR_FILE
    (criticalFiles
       (categorizeFilesForAudit
          [(js "Main.sol", js "contract Main {}");
           (Demo.VENDOR_FILE, js "contract Foo {}")]
          (Some (js "Main.sol")))).
Proof.
  apply (proj2 C3_nothing_excluded_or_flagged
           [(js "Main.sol", js "contract Main {}");
            (Demo.VENDOR_FILE, js "contract Foo {}")]
           (Some (js "Main.sol")))
    with (content := js "contract Foo {}").
  - right. left. reflexivity.
  - reflexivity.
  - vm_compute. reflexivity.
Defined.

Lemma C2_red_flag_path_is_kept_unflagged_witness :
  let cat := categorizeFilesForAudit
               [(Demo.VENDOR_FILE, js "contract Foo {}")] None in
  ~ In Demo.VENDOR_FILE (excluded cat)
  /\ (isMain Demo.VENDOR_FILE None = true
      \/ In Demo.VENDOR_FILE (interfaces cat)
      \/ In Demo.VENDOR_FILE (criticalFiles cat))
  /\ redFlagFiles cat = [] /\ warnings cat = [].
Proof.
  apply (C2_red_flag_path_is_kept_unflagged
           [(Demo.VENDOR_FILE, js "contract Foo {}")] None
           Demo.VENDOR_FILE (js "contract Foo {}")).
  - left. reflexivity.
  - vm_compute. reflexivity.
Defined.

(** C2 as stated fails: [contracts/vendor/Foo.sol] lies under a red-flag
    directory and is not filed under [redFlagFiles]. *)
Lemma C2_vendor_file_is_not_red_flagged :
  ~ (forall files main filePath content,
        In (filePath, content) files ->
        matchesRedFlag filePath = true ->
        In filePath (redFlagFiles (categorizeFilesForAudit files main))).
Proof.
  intros H.
  specialize (H [(Demo.VENDOR_FILE, js "contract Foo {}")] None
                Demo.VENDOR_FILE (js "contract Foo {}")
                (or_introl eq_refl)).
  rewrite categorize_closed in H. apply H. vm_compute. reflexivity.
Qed.

(** ** The blacklist and the save loop *)

Section SaveFacts.

Variable path_join : list jsstring -> jsstring.
Variable path_dirname : jsstring -> jsstring.
Variable Disk : Type.
Variable existsSync : Disk -> jsstring -> bool.
Variable mkdirSync : Disk -> jsstring -> Disk * option jsstring.
Variable writeFileSync : Disk -> jsstring -> jsstring -> Disk * option jsstring.
Variable cfg : ConfigFile.
Variable baseDir : jsstring.
Variable contractType : jsstring.






(** The test of [isBlacklisted] in the words of the blacklist. *)
Lemma isBlacklisted_spec (filePath : jsstring) :
  isBlacklisted cfg filePath = true <->
  filePath <> []
  /\ exists pattern,
       In pattern (loadBlacklist cfg)
       /\ includes (forwardSlashes filePath) pattern = true.
Proof.
  unfold isBlacklisted. destruct filePath as [|c r].
  - split; [discriminate|]. now intros [H _].
  - destruct (loadBlacklist cfg) as [|p0 ps] eqn:E.
    + split; [discriminate|]. now intros [_ (p & [] & _)].
    + rewrite existsb_exists. split.
      * intros H. split; [discriminate|exact H].
      * now intros [_ H].
Qed.

End SaveFacts.




(** ** Parsing *)

Section ParseFacts.

Variable JSON_parse : jsstring -> option JValue.

Lemma trimStart_blank (s : jsstring) :
  forallb isWhite s = true -> trimStart s = [].
Proof.
  induction s as [|c r IH]; cbn; [reflexivity|].
  intros H. apply andb_true_iff in H as [Hc Hr]. rewrite Hc. now apply IH.
Qed.

Lemma unwrap_blank (s : jsstring) :
  forallb isWhite s = true -> unwrap s = [].
Proof.
  intros H. unfold unwrap, trim. now rewrite (trimStart_blank s H).
Qed.

(** Whatever the [try] block returns is a multi-file tree. *)
Lemma parseJson_type (t : jsstring) (r : ParsedSource) :
  parseJson JSON_parse t = Some r -> type r = js "multi-file".
Proof.
  unfold parseJson. intros H.
  destruct (JSON_parse t) as [jsonSource|]; [|discriminate].
  destruct (getProp jsonSource (js "sources")) as [sources|]; [|discriminate].
  destruct (isTruthy sources).
  - destruct (entries sources) as [es|]; [|discriminate].
    destruct (sourcesLoop es []) as [fs|]; [|discriminate].
    destruct (getProp jsonSource (js "settings")); [|discriminate].
    destruct (getProp jsonSource (js "language")); [|discriminate].
    now inversion H.
  - destruct (entries jsonSource) as [es|]; [|discriminate].
    destruct (flatLoop es []) as [fs|]; [|discriminate].
    now inversion H.
Qed.

Lemma parse_single (x : jsstring) :
  type (parseSourceCode JSON_parse x) = js "single-file" ->
  parseSourceCode JSON_parse x = singleFile x.
Proof.
  unfold parseSourceCode. destruct x as [|c x']; [discriminate|].
  set (t := unwrap (c :: x')).
  destruct (if startsWith t (js "{") then parseJson JSON_parse t else None)
    as [r|] eqn:E; [|reflexivity].
  intros Hty. destruct (startsWith t (js "{")); [|discriminate].
  apply parseJson_type in E. rewrite E in Hty. discriminate.
Qed.

End ParseFacts.

(** C9, as amended.  The empty input gives the empty tree: type [empty]
    and no file.  A non-empty input made of white space only is not empty
    for the parser: it comes back as the single file [contract.sol] with
    the input as its content. *)
Theorem C9_empty_input_empty_tree :
  forall JSON_parse,
    parseSourceCode JSON_parse [] =
      {| type := js "empty"; files := [];
         settings := None; language := None |}
    /\ forall s,
        s <> [] -> forallb isWhite s = true ->
        parseSourceCode JSON_parse s =
          {| type := js "single-file";
             files := [(js "contract.sol", JStr s)];
             settings := None; language := None |}.
Proof.
  intros JSON_parse. split; [reflexivity|]. intros s Hne Hblank.
  unfold parseSourceCode. destruct s as [|c r]; [contradiction|].
  now rewrite (unwrap_blank _ Hblank).
Qed.

Lemma C9_empty_input_empty_tree_witness :
  js " " <> [] /\ forallb isWhite (js " ") = true
  /\ parseSourceCode (fun _ => None) (js " ") =
       {| type := js "single-file";
          files := [(js "contract.sol", JStr (js " "))];
          settings := None; language := None |}.
Proof.
  split; [discriminate|]. split; [reflexivity|].
  apply (C9_empty_input_empty_tree (fun _ => None)); [discriminate|reflexivity].
Defined.

(** C9 as stated fails: a blank input of one space is not parsed to the
    empty tree. *)
Lemma C9_blank_input_is_not_empty :
  ~ (forall (JSON_parse : jsstring -> option JValue) (s : jsstring),
        forallb isWhite s = true ->
        type (parseSourceCode JSON_parse s) = js "empty"
        /\ files (parseSourceCode JSON_parse s) = []).
Proof.
  intros H. destruct (H (fun _ => None) (js " ") eq_refl) as [Hty _].
  discriminate Hty.
Qed.

(** C10.  For every input parsed as a single file, the tree maps
    [contract.sol] to the input itself, and parsing that content again
    gives the same single-file tree. *)
Theorem C10_single_file_idempotent :
  forall JSON_parse x r,
    parseSourceCode JSON_parse x = r ->
    type r = js "single-file" ->
    files r = [(js "contract.sol", JStr x)]
    /\ exists content,
        lookup (files r) (js "contract.sol") = JStr content
        /\ content = x
        /\ parseSourceCode JSON_parse content = r.
Proof.
  intros JSON_parse x r Hr Hty. subst r.
  rewrite (parse_single JSON_parse x Hty). split; [reflexivity|].
  exists x. repeat split. now apply parse_single.
Qed.

Lemma C10_single_file_idempotent_witness :
  files (parseSourceCode Demo.JSON_parse (js "contract A {}")) =
    [(js "contract.sol", JStr (js "contract A {}"))]
  /\ exists content,
      lookup (files (parseSourceCode Demo.JSON_parse (js "contract A {}")))
        (js "contract.sol") = JStr content
      /\ content = js "contract A {}"
      /\ parseSourceCode Demo.JSON_parse content =
         parseSourceCode Demo.JSON_parse (js "contract A {}").
Proof.
  apply (C10_single_file_idempotent Demo.JSON_parse (js "contract A {}"));
    reflexivity.
Defined.

(** ** Comment stripping *)

Lemma last_cons {A} (l : list A) (b d : A) : last (b :: l) d = last l b.
Proof.
  revert b d. induction l as [|x l IH]; intros b d; [reflexivity|].
  change (last (b :: x :: l) d) with (last (x :: l) d).
  rewrite (IH x d). now rewrite (IH x b).
Qed.

Lemma skipBlock_step (k : N -> jsstring -> jsstring) prev c d r :
  skipBlock k prev (c :: d :: r) =
  if (c =? STAR) && (d =? SLASH) then k d r else skipBlock k c (d :: r).
Proof. reflexivity. Qed.

Lemma skipBlock_unterminated (k : N -> jsstring -> jsstring) :
  forall body c prev,
    unterminated (body ++ [c]) = true ->
    skipBlock k prev (body ++ [c]) = k (last body prev) [c].
Proof.
  induction body as [|b body IH]; intros c prev H; [reflexivity|].
  rewrite last_cons. cbn [app] in *.
  destruct (body ++ [c]) as [|d r'] eqn:E.
  - now destruct body.
  - rewrite skipBlock_step.
    change (negb ((b =? STAR) && (d =? SLASH)) && unterminated (d :: r') = true)
      in H.
    apply andb_true_iff in H as [Hno Hr].
    apply negb_true_iff in Hno. rewrite Hno.
    rewrite <- E. apply IH. now rewrite E.
Qed.

Lemma scan_single (prev : option N) (c : N) : scan prev [c] = [c].
Proof.
  cbn. destruct ((c =? QUOTE) && negb (escaped prev)); [reflexivity|].
  destruct ((c =? DQUOTE) && negb (escaped prev)); reflexivity.
Qed.

(** C7 on the code.  A block comment that is not closed is not discarded
    to the end of the input: the loop that skips it stops one unit before
    the end, and the scan copies the last unit of the input to the output.
    So [a /* bc] is stripped to [a c]. *)
Theorem C7_unterminated_block_keeps_last_unit :
  (forall prev body c,
      unterminated (body ++ [c]) = true ->
      scan prev (SLASH :: STAR :: body ++ [c]) = [c])
  /\ stripSolidityComments (js "a /* bc") = js "a c" ++ [NL].
Proof.
  split; [|reflexivity]. intros prev body c H.
  cbn [scan]. cbn [N.eqb Pos.eqb QUOTE DQUOTE SLASH STAR andb].
  rewrite (skipBlock_unterminated _ body c STAR H). apply scan_single.
Qed.

Lemma C7_unterminated_block_keeps_last_unit_witness :
  unterminated (js " b" ++ [99]) = true
  /\ scan (Some 32) (SLASH :: STAR :: js " b" ++ [99]) = [99].
Proof.
  split; [reflexivity|].
  apply (proj1 C7_unterminated_block_keeps_last_unit (Some 32) (js " b") 99).
  reflexivity.
Defined.

Lemma copyLiteral_body (q : N) (k : N -> jsstring -> jsstring) :
  forall body prev rest,
    literalBody q prev body = true ->
    copyLiteral q k prev (body ++ q :: rest) = body ++ q :: k q rest.
Proof.
  induction body as [|c body IH]; intros prev rest H; cbn in *.
  - now rewrite N.eqb_refl, H.
  - apply andb_true_iff in H as [Hc Hb]. apply negb_true_iff in Hc.
    rewrite Hc. f_equal. now apply IH.
Qed.

Lemma scan_literal (q : N) (prev : option N) (body rest : jsstring) :
  isQuote q = true ->
  escaped prev = false ->
  literalBody q q body = true ->
  scan prev (q :: body ++ q :: rest) = q :: body ++ q :: scan (Some q) rest.
Proof.
  intros Hq Hesc Hbody. unfold isQuote in Hq. cbn [scan]. rewrite Hesc.
  cbn [negb]. rewrite !andb_true_r.
  destruct (q =? QUOTE) eqn:E1.
  - apply N.eqb_eq in E1. subst q. f_equal.
    now rewrite copyLiteral_body.
  - cbn in Hq. rewrite Hq. apply N.eqb_eq in Hq. subst q. f_equal.
    now rewrite copyLiteral_body.
Qed.

(** One turn of the main loop. *)
Lemma scan_turn (prev : option N) (c : N) (r : jsstring) :
  scan prev (c :: r) =
  if (c =? QUOTE) && negb (escaped prev) then
    c :: copyLiteral QUOTE (fun p t => scan (Some p) t) c r
  else if (c =? DQUOTE) && negb (escaped prev) then
    c :: copyLiteral DQUOTE (fun p t => scan (Some p) t) c r
  else
    match r with
    | d :: r' =>
        if (c =? SLASH) && (d =? STAR) then
          skipBlock (fun p t => scan (Some p) t) d r'
        else if (c =? SLASH) && (d =? SLASH) then
          skipLine (fun p t => scan (Some p) t) r
        else c :: scan (Some c) r
    | [] => c :: scan (Some c) r
    end.
Proof. reflexivity. Qed.

(** Code that opens no literal and no comment is copied up to the quote
    that follows it. *)
Lemma scan_code_prefix (prefix : jsstring) :
  forall prev q t,
    commentFree prefix = true ->
    isQuote q = true ->
    scan prev (prefix ++ q :: t) =
    prefix ++ scan (unitBefore prev prefix) (q :: t).
Proof.
  induction prefix as [|c r IH]; intros prev q t H Hq; [reflexivity|].
  cbn [commentFree] in H.
  apply andb_true_iff in H as [H Hr]. apply andb_true_iff in H as [Hc Hs].
  apply negb_true_iff in Hc. apply negb_true_iff in Hs.
  unfold isQuote in Hc. apply orb_false_iff in Hc as [Hc1 Hc2].
  change (unitBefore prev (c :: r)) with (unitBefore (Some c) r).
  change ((c :: r) ++ q :: t) with (c :: r ++ q :: t).
  rewrite scan_turn, Hc1, Hc2. cbn [andb app].
  rewrite <- (IH (Some c) q t Hr Hq).
  destruct r as [|d r'].
  - cbn [app]. unfold isQuote in Hq.
    assert (Hq' : (q =? STAR) = false /\ (q =? SLASH) = false).
    { apply orb_true_iff in Hq as [Hq|Hq]; apply N.eqb_eq in Hq; subst q;
        now split. }
    destruct Hq' as [-> ->]. now rewrite !andb_false_r.
  - change ((d :: r') ++ q :: t) with (d :: r' ++ q :: t). cbv iota.
    destruct (c =? SLASH) eqn:Ec; cbn [andb] in *; [|reflexivity].
    apply orb_false_iff in Hs as [Hs1 Hs2]. now rewrite Hs1, Hs2.
Qed.

(** Text without the quote and without a backslash does not close the
    literal before the quote that follows it. *)
Lemma literalBody_plain (q : N) (text : jsstring) :
  forall prev,
    (prev =? BACKSLASH) = false ->
    forallb (fun c => negb (c =? q) && negb (c =? BACKSLASH)) text = true ->
    literalBody q prev text = true.
Proof.
  induction text as [|c r IH]; intros prev Hp H; cbn [literalBody].
  - now rewrite Hp.
  - cbn [forallb] in H. apply andb_true_iff in H as [Hc Hr].
    apply andb_true_iff in Hc as [Hcq Hcb].
    apply negb_true_iff in Hcq. apply negb_true_iff in Hcb.
    rewrite Hcq. cbn [andb negb]. now apply IH.
Qed.

(** C8 on the code.  The scan takes a quote for escaped whenever the unit
    before it is a backslash, also when that backslash is itself escaped.
    A literal that ends in an escaped backslash is therefore not closed
    at its closing quote: the text after it is copied as literal text up
    to the next quote, which opens the next literal of the line, and the
    content of that literal is scanned as code.  So in
    [string a = "\\"; string b = "x // y";] the second literal is cut at
    its [//].  The line [string s = "a // b";] of the claim comes out
    unchanged. *)
Theorem C8_escaped_backslash_hides_closing_quote :
  (forall q prefix between body tail,
      isQuote q = true ->
      commentFree prefix = true ->
      escaped (unitBefore None prefix) = false ->
      forallb (fun c => negb (c =? q) && negb (c =? BACKSLASH)) between
      = true ->
      scan None
        (prefix ++ q :: BACKSLASH :: BACKSLASH :: q :: between
         ++ q :: body ++ q :: tail)
      = prefix ++ q :: BACKSLASH :: BACKSLASH :: q :: between
        ++ q :: scan (Some q) (body ++ q :: tail))
  /\ stripSolidityComments LINE_AFTER_BACKSLASH =
     js "string a = " ++ DQUOTE :: BACKSLASH :: BACKSLASH :: DQUOTE
     :: js "; string b = " ++ DQUOTE :: js "x" ++ [NL]
  /\ stripSolidityComments LINE_WITH_MARKER = LINE_WITH_MARKER ++ [NL].
Proof.
  split; [|split; reflexivity].
  intros q prefix between body tail Hq Hprefix Hesc Hbetween.
  rewrite (scan_code_prefix prefix None q _ Hprefix Hq). f_equal.
  assert (Hqb : (q =? BACKSLASH) = false).
  { unfold isQuote in Hq. apply orb_true_iff in Hq as [H|H];
      apply N.eqb_eq in H; now subst q. }
  assert (Hbq : (BACKSLASH =? q) = false) by now rewrite N.eqb_sym.
  assert (Hbody : literalBody q q (BACKSLASH :: BACKSLASH :: q :: between)
                  = true).
  { cbn [literalBody]. rewrite Hbq. cbn [andb negb].
    rewrite andb_false_r. cbn [andb negb].
    now apply literalBody_plain. }
  exact (scan_literal q (unitBefore None prefix)
           (BACKSLASH :: BACKSLASH :: q :: between) (body ++ q :: tail)
           Hq Hesc Hbody).
Qed.

Lemma C8_escaped_backslash_hides_closing_quote_witness :
  scan None LINE_AFTER_BACKSLASH =
  js "string a = " ++ DQUOTE :: BACKSLASH :: BACKSLASH :: DQUOTE
  :: js "; string b = " ++ DQUOTE :: js "x ".
Proof.
  unfold LINE_AFTER_BACKSLASH.
  rewrite (proj1 C8_escaped_backslash_hides_closing_quote DQUOTE
             (js "string a = ") (js "; string b = ") (js "x // y") (js ";")
             eq_refl eq_refl eq_refl eq_refl).
  reflexivity.
Defined.

Lemma splitOn_cons (sep : N) (s : jsstring) :
  exists l ls, splitOn sep s = l :: ls.
Proof.
  destruct s as [|c r]; cbn; [eauto|].
  destruct (c =? sep); [eauto|]. destruct (splitOn sep r); eauto.
Qed.

Lemma join_cons (c : N) (x : jsstring) (ps : list jsstring) :
  join NL ((c :: x) :: ps) = c :: join NL (x :: ps).
Proof. destruct ps; reflexivity. Qed.

Lemma trimLines_newline (s : jsstring) :
  trimLines (NL :: s) = NL :: trimLines s.
Proof.
  unfold trimLines. cbn [splitOn]. rewrite N.eqb_refl.
  destruct (splitOn_cons NL s) as (l & ls & ->). reflexivity.
Qed.

Lemma trimEnd_keep (a : jsstring) (q : N) (t : jsstring) :
  isWhite q = false ->
  trimEnd (a ++ q :: t) = a ++ q :: trimEnd t.
Proof.
  intros Hw. induction a as [|c a IH]; cbn.
  - rewrite Hw. now destruct (trimEnd t).
  - rewrite IH. now destruct a.
Qed.

(** ** Proxy detection *)

Section ChainFacts.

Variable getAddress : jsstring -> option jsstring.
Variable connect : option jsstring -> Provider.
Variable provider : Provider.

Lemma tryStorageSlot_run address slot :
  tryStorageSlot getAddress provider address slot =
  (Ok (slotAnswer getAddress provider address slot), [GetStorage address slot]).
Proof.
  unfold tryStorageSlot, slotAnswer, catch, bind, request, ret.
  destruct (getStorage provider address slot); reflexivity.
Qed.

Lemma tryContractCall_run address abi method :
  existsb (JS.eqb method) abi = true ->
  tryContractCall getAddress provider address abi method =
  (Ok (callAnswer getAddress provider address method),
   [CallView address method]).
Proof.
  intros Habi. unfold tryContractCall, callAnswer. rewrite Habi.
  unfold catch, bind, request, ret, throw.
  destruct (callView provider address method) as [a|e]; [|reflexivity].
  destruct (found (Some a) && negb (JS.eqb a ZERO_ADDRESS)); [|reflexivity].
  destruct (getAddress a); reflexivity.
Qed.

Lemma beaconProbe_run contractAddress :
  beaconProbe getAddress provider contractAddress =
  (Ok (beaconAnswer getAddress provider contractAddress),
   beaconRequests getAddress provider contractAddress).
Proof.
  unfold beaconProbe, beaconAnswer, beaconRequests.
  rewrite tryStorageSlot_run. unfold bind at 1.
  destruct (found (slotAnswer getAddress provider contractAddress
                     EIP_1967_BEACON_SLOT));
    [|reflexivity].
  rewrite tryContractCall_run by reflexivity. unfold bind.
  destruct (found (callAnswer getAddress provider _ (js "implementation")));
    cbn [negb].
  - reflexivity.
  - now rewrite tryContractCall_run by reflexivity.
Qed.

Lemma detectionMethods_run contractAddress code :
  detectionMethods getAddress provider contractAddress code =
  map ran (combine (probeAnswers getAddress provider contractAddress code)
                   (probeRequests getAddress provider contractAddress)).
Proof.
  unfold detectionMethods, probeAnswers, probeRequests. cbn [combine map].
  rewrite !tryStorageSlot_run, !tryContractCall_run, beaconProbe_run
    by reflexivity.
  reflexivity.
Qed.

Lemma firstImplementation_run (l : list (option jsstring * list Event)) :
  firstImplementation (map ran l) = (Ok (firstFound (map fst l)), attempted l).
Proof.
  induction l as [|[a t] l IH]; [reflexivity|].
  cbn [map firstImplementation firstFound attempted fst].
  unfold ran at 1. cbn [fst snd]. unfold bind.
  destruct (found a).
  - reflexivity.
  - now rewrite IH.
Qed.

Lemma first_at (l : list (option jsstring * list Event)) :
  forall k a,
    nth_error (map fst l) k = Some a ->
    found a = true ->
    (forall j b, (j < k)%nat -> nth_error (map fst l) j = Some b ->
                 found b = false) ->
    firstFound (map fst l) = a
    /\ attempted l = concat (firstn (S k) (map snd l)).
Proof.
  induction l as [|[a0 t0] l IH]; intros k a Hk Ha Hbefore.
  - now destruct k.
  - destruct k as [|k].
    + cbn in Hk. injection Hk as ->. cbn. rewrite Ha.
      split; [reflexivity|]. now rewrite !app_nil_r.
    + cbn [map fst firstFound attempted].
      rewrite (Hbefore 0%nat a0 (Nat.lt_0_succ k) eq_refl).
      destruct (IH k a Hk Ha) as [H1 H2].
      * intros j b Hj Hb. apply (Hbefore (S j) b); [lia|exact Hb].
      * split; [exact H1|]. rewrite H2. reflexivity.
Qed.

Lemma none_found (l : list (option jsstring * list Event)) :
  (forall b, In b (map fst l) -> found b = false) ->
  firstFound (map fst l) = None /\ attempted l = concat (map snd l).
Proof.
  induction l as [|[a0 t0] l IH]; intros Hnone; [now split|].
  cbn [map fst snd firstFound attempted concat].
  rewrite (Hnone a0) by now left.
  destruct IH as [H1 H2]; [intros b Hb; apply Hnone; now right|].
  now rewrite H1, H2.
Qed.

Lemma map_fst_combine {A B} (xs : list A) (ys : list B) :
  List.length xs = List.length ys -> map fst (combine xs ys) = xs.
Proof.
  revert ys. induction xs as [|x xs IH]; intros [|y ys] H;
    try discriminate; [reflexivity|].
  cbn. f_equal. apply IH. now injection H.
Qed.

Lemma map_snd_combine {A B} (xs : list A) (ys : list B) :
  List.length xs = List.length ys -> map snd (combine xs ys) = ys.
Proof.
  revert ys. induction xs as [|x xs IH]; intros [|y ys] H;
    try discriminate; [reflexivity|].
  cbn. f_equal. apply IH. now injection H.
Qed.

(** A handler that returns makes the [try] return. *)
Lemma catch_returns {A} (m : M A) (h : jsstring -> M A) :
  (forall e, exists a t, h e = (Ok a, t)) ->
  exists a t, catch m h = (Ok a, t).
Proof.
  intros Hh. unfold catch. destruct m as [[a|e] t]; [now eauto|].
  destruct (Hh e) as (a & t' & ->). eauto.
Qed.

Lemma detectProxyFromSource_returns address sd :
  exists a t,
    detectProxyFromSource getAddress provider address sd = (Ok a, t).
Proof.
  unfold detectProxyFromSource. apply catch_returns.
  intros e. unfold bind, console_error, ret. eauto.
Qed.

(** The part after the shortcut: the first found answer is the result,
    untagged, and the events are those of the probes up to it. *)
Lemma detectOnChain_found contractAddress code sd k impl :
  nth_error (probeAnswers getAddress provider contractAddress code) k
    = Some impl ->
  found impl = true ->
  (forall j b, (j < k)%nat ->
     nth_error (probeAnswers getAddress provider contractAddress code) j
       = Some b ->
     found b = false) ->
  detectOnChain getAddress provider contractAddress code sd =
  (Ok (proxyTo contractAddress impl None),
   concat (firstn (S k) (probeRequests getAddress provider contractAddress))).
Proof.
  intros Hk Hf Hbefore. unfold detectOnChain.
  rewrite detectionMethods_run, firstImplementation_run.
  set (l := combine _ _).
  assert (Hfst : map fst l =
                 probeAnswers getAddress provider contractAddress code)
    by (apply map_fst_combine; reflexivity).
  assert (Hsnd : map snd l =
                 probeRequests getAddress provider contractAddress)
    by (apply map_snd_combine; reflexivity).
  destruct (first_at l k impl) as [H1 H2];
    [now rewrite Hfst | exact Hf | now rewrite Hfst |].
  rewrite H1, H2, Hsnd. unfold bind. rewrite Hf. unfold ret.
  now rewrite app_nil_r.
Qed.

Lemma detectOnChain_none contractAddress code sd :
  (forall b, In b (probeAnswers getAddress provider contractAddress code) ->
             found b = false) ->
  exists info rest,
    detectOnChain getAddress provider contractAddress code sd =
    (Ok info,
     concat (probeRequests getAddress provider contractAddress) ++ rest)
    /\ (isProxy info = true ->
        detectionMethod info = Some (js "source-code-analysis")).
Proof.
  intros Hnone. unfold detectOnChain.
  rewrite detectionMethods_run, firstImplementation_run.
  set (l := combine _ _).
  assert (Hfst : map fst l =
                 probeAnswers getAddress provider contractAddress code)
    by (apply map_fst_combine; reflexivity).
  assert (Hsnd : map snd l =
                 probeRequests getAddress provider contractAddress)
    by (apply map_snd_combine; reflexivity).
  destruct (none_found l) as [H1 H2]; [now rewrite Hfst|].
  rewrite H1, H2, Hsnd. unfold bind at 1. cbn [found].
  destruct sd as [sd|].
  - destruct (isVerified sd).
    + destruct (detectProxyFromSource_returns contractAddress sd)
        as (a & t & ->).
      unfold bind. destruct (found a); unfold ret; eexists; eexists;
        (split; [reflexivity|]); cbn; intros; congruence.
    + unfold ret. eexists; exists []. split; [reflexivity|]. cbn. congruence.
  - unfold ret. eexists; exists []. split; [reflexivity|]. cbn. congruence.
Qed.

Lemma detectOnChain_returns contractAddress code sd :
  exists info t,
    detectOnChain getAddress provider contractAddress code sd = (Ok info, t).
Proof.
  unfold detectOnChain.
  rewrite detectionMethods_run, firstImplementation_run. unfold bind at 1.
  destruct (found _); [unfold ret; eauto|].
  destruct sd as [sd|]; [|unfold ret; eauto].
  destruct (isVerified sd); [|unfold ret; eauto].
  destruct (detectProxyFromSource_returns contractAddress sd) as (a & t & ->).
  unfold bind, ret. destruct (found a); eauto.
Qed.

Lemma detectWith_empty contractAddress sd code :
  getCode provider contractAddress = Ok code ->
  deployed code = false ->
  detectWith getAddress provider contractAddress sd =
  (Ok (notProxy contractAddress (Some (js "No contract at address"))),
   [GetCode contractAddress]).
Proof.
  intros Hcode Hd. unfold detectWith, request. rewrite Hcode.
  unfold deployed in Hd. apply negb_false_iff in Hd.
  unfold bind at 1. rewrite Hd. reflexivity.
Qed.

Lemma detectWith_declared contractAddress sd code d a :
  getCode provider contractAddress = Ok code ->
  deployed code = true ->
  declared sd = Some d -> getAddress d = Some a ->
  detectWith getAddress provider contractAddress sd =
  (Ok (proxyTo contractAddress (Some a) (Some (js "etherscan-api"))),
   [GetCode contractAddress; reportLog a]).
Proof.
  intros Hcode Hd Hdecl Ha. unfold detectWith, request. rewrite Hcode.
  unfold deployed in Hd. apply negb_true_iff in Hd.
  unfold bind at 1. rewrite Hd, Hdecl, Ha. reflexivity.
Qed.

Lemma detectWith_invalid contractAddress sd code d info t :
  getCode provider contractAddress = Ok code ->
  deployed code = true ->
  declared sd = Some d -> getAddress d = None ->
  detectOnChain getAddress provider contractAddress code sd = (Ok info, t) ->
  detectWith getAddress provider contractAddress sd =
  (Ok info, GetCode contractAddress :: invalidLog d :: t).
Proof.
  intros Hcode Hd Hdecl Ha Hon. unfold detectWith, request. rewrite Hcode.
  unfold deployed in Hd. apply negb_true_iff in Hd.
  unfold bind at 1. rewrite Hd, Hdecl, Ha.
  unfold bind, console_log. rewrite Hon. reflexivity.
Qed.

Lemma detectWith_undeclared contractAddress sd code info t :
  getCode provider contractAddress = Ok code ->
  deployed code = true ->
  declared sd = None ->
  detectOnChain getAddress provider contractAddress code sd = (Ok info, t) ->
  detectWith getAddress provider contractAddress sd =
  (Ok info, GetCode contractAddress :: t).
Proof.
  intros Hcode Hd Hdecl Hon. unfold detectWith, request. rewrite Hcode.
  unfold deployed in Hd. apply negb_true_iff in Hd.
  unfold bind at 1. rewrite Hd, Hdecl, Hon. reflexivity.
Qed.

(** Without the shortcut the resolution is the on-chain part, after the
    code request and at most one console line. *)
Lemma detectWith_noShortcut contractAddress sd code info t :
  getCode provider contractAddress = Ok code ->
  deployed code = true ->
  (noShortcut getAddress) sd ->
  detectOnChain getAddress provider contractAddress code sd = (Ok info, t) ->
  fst (detectWith getAddress provider contractAddress sd) = Ok info
  /\ requestsOf (snd (detectWith getAddress provider contractAddress sd)) =
     GetCode contractAddress :: requestsOf t.
Proof.
  intros Hcode Hd [Hdecl|(d & Hdecl & Ha)] Hon.
  - rewrite (detectWith_undeclared _ _ _ _ _ Hcode Hd Hdecl Hon). now split.
  - rewrite (detectWith_invalid _ _ _ _ _ _ Hcode Hd Hdecl Ha Hon). now split.
Qed.

Lemma requestsOf_requests (t : list Event) :
  forallb isRequest t = true -> requestsOf t = t.
Proof.
  induction t as [|e t IH]; [reflexivity|]. cbn. intros H.
  apply andb_true_iff in H as [He Ht]. unfold isRequest in He.
  destruct e; try discriminate; cbn; f_equal; now apply IH.
Qed.

Lemma probeRequests_requests contractAddress n :
  forallb isRequest
    (concat (firstn n (probeRequests getAddress provider contractAddress)))
  = true.
Proof.
  assert (Hb : forallb isRequest
                 (beaconRequests getAddress provider contractAddress) = true).
  { unfold beaconRequests. cbn [forallb isRequest andb].
    destruct (found _); [|reflexivity]. cbn [forallb isRequest andb].
    destruct (found _); reflexivity. }
  unfold probeRequests.
  do 7 (destruct n as [|n]; [cbn; rewrite ?Hb; reflexivity|]).
  cbn [firstn concat app]. rewrite firstn_nil. cbn [concat].
  rewrite app_nil_r. cbn - [beaconRequests]. exact Hb.
Qed.

(** The test of line 262 in the words of the record. *)
Lemma registryDeclares_declared sd d :
  registryDeclares sd d <-> declared sd = Some d.
Proof.
  unfold registryDeclares, declared. split.
  - intros (record & -> & Hp & <- & Hne). rewrite Hp.
    destruct (implementation record); [contradiction|reflexivity].
  - destruct sd as [record|]; [|discriminate].
    destruct (sd_isProxy record) eqn:Hp; [|discriminate].
    destruct (implementation record) as [|c r] eqn:Hi; [discriminate|].
    cbn. intros H. injection H as <-. exists record.
    repeat split; try assumption. discriminate.
Qed.

Lemma registryUntrusted_noShortcut sd :
  registryUntrusted getAddress sd -> noShortcut getAddress sd.
Proof.
  unfold registryUntrusted, noShortcut, declared.
  destruct sd as [record|]; [|now left]. intros H.
  destruct (sd_isProxy record) eqn:Hp; [|now left].
  destruct (implementation record) as [|c r] eqn:Hi; [now left|].
  cbn. destruct H as [H|[H|H]]; try discriminate.
  right. exists (c :: r). now split.
Qed.

End ChainFacts.

Lemma detectProxy_with getAddress connect chainName provider address sd :
  createProvider connect chainName = Ok provider ->
  detectProxy getAddress connect chainName address sd =
  detectWith getAddress provider address sd.
Proof. intros H. unfold detectProxy. now rewrite H. Qed.

(** C6.  When the bytecode fetched at the address is empty, [detectProxy]
    does not throw: it returns [isProxy = false], no implementation
    address and the error text [No contract at address], after the one
    request for the code. *)
Theorem C6_no_contract_at_address :
  forall getAddress connect chainName address sd provider code,
    createProvider connect chainName = Ok provider ->
    getCode provider address = Ok code ->
    code = js "0x" \/ code = js "0x0" ->
    detectProxy getAddress connect chainName address sd =
    (Ok {| isProxy := false;
           proxyAddress := address;
           implementationAddress := None;
           detectionMethod := None;
           error := Some (js "No contract at address") |},
     [GetCode address]).
Proof.
  intros getAddress connect chainName address sd provider code Hp Hc Hempty.
  rewrite (detectProxy_with _ _ _ _ _ _ Hp).
  apply detectWith_empty with code; [exact Hc|].
  now destruct Hempty as [-> | ->].
Qed.

Lemma C6_no_contract_at_address_witness :
  detectProxy Demo.getAddress (fun _ => Demo.bareChain) (js "ethereum")
    Demo.PROXY None =
  (Ok {| isProxy := false;
         proxyAddress := Demo.PROXY;
         implementationAddress := None;
         detectionMethod := None;
         error := Some (js "No contract at address") |},
   [GetCode Demo.PROXY]).
Proof.
  apply (C6_no_contract_at_address Demo.getAddress (fun _ => Demo.bareChain)
           (js "ethereum") Demo.PROXY None Demo.bareChain (js "0x"));
    [reflexivity | reflexivity | now left].
Defined.

(** C1, as amended.  For an address with code: when the registry record
    declares a proxy and names a valid implementation, that address is
    returned under the tag [etherscan-api]; when the registry gives
    nothing to trust, the first detection method that answers gives the
    implementation address and the result carries no method tag; in
    particular, when the EIP-1967 logic slot holds a valid non-zero
    address, the result is a proxy whose implementation is that address,
    untagged.  When no method answers, a proxy found from the source is
    tagged [source-code-analysis]. *)
Theorem C1_method_tag_of_resolution :
  forall getAddress connect chainName address sd provider code,
    createProvider connect chainName = Ok provider ->
    getCode provider address = Ok code ->
    deployed code = true ->
    let run := detectProxy getAddress connect chainName address sd in
    (forall d a,
        registryDeclares sd d -> getAddress d = Some a ->
        fst run =
        Ok (proxyTo address (Some a) (Some (js "etherscan-api"))))
    /\ (registryUntrusted getAddress sd ->
        forall value a,
          getStorage provider address EIP_1967_LOGIC_SLOT = Ok value ->
          readAddressFromSlot getAddress value = Some a -> a <> [] ->
          fst run =
          Ok {| isProxy := true;
                proxyAddress := address;
                implementationAddress := Some a;
                detectionMethod := None;
                error := None |})
    /\ (registryUntrusted getAddress sd ->
        forall k impl,
          nth_error (probeAnswers getAddress provider address code) k
            = Some impl ->
          found impl = true ->
          (forall j b, (j < k)%nat ->
             nth_error (probeAnswers getAddress provider address code) j
               = Some b ->
             found b = false) ->
          fst run = Ok (proxyTo address impl None))
    /\ (registryUntrusted getAddress sd ->
        (forall b, In b (probeAnswers getAddress provider address code) ->
                   found b = false) ->
        exists info,
          fst run = Ok info
          /\ (isProxy info = true ->
              detectionMethod info = Some (js "source-code-analysis"))).
Proof.
  intros getAddress connect chainName address sd provider code Hp Hc Hd run.
  subst run. rewrite (detectProxy_with _ _ _ _ _ _ Hp).
  assert (Hchain : registryUntrusted getAddress sd ->
            forall k impl,
              nth_error (probeAnswers getAddress provider address code) k
                = Some impl ->
              found impl = true ->
              (forall j b, (j < k)%nat ->
                 nth_error (probeAnswers getAddress provider address code) j
                   = Some b ->
                 found b = false) ->
              fst (detectWith getAddress provider address sd) =
              Ok (proxyTo address impl None)).
  { intros Hno k impl Hk Hf Hbefore.
    apply registryUntrusted_noShortcut in Hno.
    pose proof (detectOnChain_found getAddress provider address code sd
                  k impl Hk Hf Hbefore) as Hon.
    apply (detectWith_noShortcut _ _ _ _ _ _ _ Hc Hd Hno Hon). }
  split; [|split; [|split]].
  - intros d a Hdecl Ha. apply registryDeclares_declared in Hdecl.
    now rewrite (detectWith_declared _ _ _ _ _ _ _ Hc Hd Hdecl Ha).
  - intros Hno value a Hv Ha Hne.
    apply (Hchain Hno 0%nat (Some a)).
    + unfold probeAnswers. cbn [nth_error]. unfold slotAnswer.
      now rewrite Hv, Ha.
    + now destruct a.
    + intros j b Hj. lia.
  - exact Hchain.
  - intros Hno Hnone. apply registryUntrusted_noShortcut in Hno.
    destruct (detectOnChain_none getAddress provider address code sd Hnone)
      as (info & rest & Hon & Htag).
    exists info. split; [|exact Htag].
    apply (detectWith_noShortcut _ _ _ _ _ _ _ Hc Hd Hno Hon).
Qed.

Lemma C1_method_tag_of_resolution_witness :
  fst (detectProxy Demo.getAddress
         (fun _ => Demo.chainWith EIP_1967_LOGIC_SLOT Demo.LOGIC)
         (js "ethereum") Demo.PROXY (Some (registryRecord true Demo.LEGACY)))
  = Ok (proxyTo Demo.PROXY (Some Demo.LEGACY) (Some (js "etherscan-api")))
  /\ fst (detectProxy Demo.getAddress
            (fun _ => Demo.chainWith EIP_1967_LOGIC_SLOT Demo.LOGIC)
            (js "ethereum") Demo.PROXY
            (Some (registryRecord false Demo.LEGACY)))
     = Ok {| isProxy := true;
             proxyAddress := Demo.PROXY;
             implementationAddress := Some Demo.LOGIC;
             detectionMethod := None;
             error := None |}.
Proof.
  split.
  - refine (proj1
      (C1_method_tag_of_resolution Demo.getAddress
         (fun _ => Demo.chainWith EIP_1967_LOGIC_SLOT Demo.LOGIC)
         (js "ethereum") Demo.PROXY (Some (registryRecord true Demo.LEGACY))
         (Demo.chainWith EIP_1967_LOGIC_SLOT Demo.LOGIC) (js "0x6080604052")
         eq_refl eq_refl eq_refl)
      Demo.LEGACY Demo.LEGACY _ eq_refl).
    exists (registryRecord true Demo.LEGACY).
    repeat split. discriminate.
  - refine (proj1 (proj2
      (C1_method_tag_of_resolution Demo.getAddress
         (fun _ => Demo.chainWith EIP_1967_LOGIC_SLOT Demo.LOGIC)
         (js "ethereum") Demo.PROXY (Some (registryRecord false Demo.LEGACY))
         (Demo.chainWith EIP_1967_LOGIC_SLOT Demo.LOGIC) (js "0x6080604052")
         eq_refl eq_refl eq_refl))
      (or_introl eq_refl)
      (js "0x" ++ repeat 48 24%nat ++ skipn 2 Demo.LOGIC) Demo.LOGIC
      eq_refl _ _).
    + vm_compute. reflexivity.
    + discriminate.
Defined.

(** C1 as stated fails: with the EIP-1967 logic slot holding a valid
    address, the result of [detectProxy] names that address and has no
    method tag, so the tag is not [eip1967]. *)
Lemma C1_eip1967_result_has_no_tag :
  ~ (forall getAddress connect chainName address sd provider value a,
        createProvider connect chainName = Ok provider ->
        getStorage provider address EIP_1967_LOGIC_SLOT = Ok value ->
        readAddressFromSlot getAddress value = Some a ->
        exists info,
          fst (detectProxy getAddress connect chainName address sd) = Ok info
          /\ detectionMethod info = Some (js "eip1967")
          /\ implementationAddress info = Some a).
Proof.
  intros H.
  destruct (H Demo.getAddress
              (fun _ => Demo.chainWith EIP_1967_LOGIC_SLOT Demo.LOGIC)
              (js "ethereum") Demo.PROXY None
              (Demo.chainWith EIP_1967_LOGIC_SLOT Demo.LOGIC)
              (js "0x" ++ repeat 48 24%nat ++ skipn 2 Demo.LOGIC) Demo.LOGIC
              eq_refl eq_refl)
    as (info & Hrun & Htag & _).
  - vm_compute. reflexivity.
  - vm_compute in Hrun. injection Hrun as <-. discriminate Htag.
Qed.

(** C4.  For an address with code, [detectProxy] follows one priority
    chain.  The implementation a registry record declares comes first:
    when it is a valid address it is trusted at once, without any probe;
    when it is not, this is logged and the probes run.  The probes run in
    the order of [probeAnswers]: EIP-1967 logic slot, OpenZeppelin slot,
    EIP-1822 slot, EIP-1167 bytecode, [implementation()],
    [masterCopy()], EIP-1967 beacon.  The first one that answers gives
    the result, and the requests made are exactly those of the probes up
    to it: a later probe is attempted only when every earlier one gave no
    answer. *)
Theorem C4_priority_chain :
  forall getAddress connect chainName address sd provider code,
    createProvider connect chainName = Ok provider ->
    getCode provider address = Ok code ->
    deployed code = true ->
    let run := detectProxy getAddress connect chainName address sd in
    let answers := probeAnswers getAddress provider address code in
    let requests := probeRequests getAddress provider address in
    (forall d a,
        registryDeclares sd d -> getAddress d = Some a ->
        run = (Ok (proxyTo address (Some a) (Some (js "etherscan-api"))),
               [GetCode address; reportLog a]))
    /\ (forall d,
        registryDeclares sd d -> getAddress d = None ->
        exists info t,
          detectOnChain getAddress provider address code sd = (Ok info, t)
          /\ run = (Ok info, GetCode address :: invalidLog d :: t))
    /\ (registryUntrusted getAddress sd ->
        forall k impl,
          nth_error answers k = Some impl ->
          found impl = true ->
          (forall j b, (j < k)%nat -> nth_error answers j = Some b ->
                       found b = false) ->
          fst run = Ok (proxyTo address impl None)
          /\ requestsOf (snd run) =
             GetCode address :: concat (firstn (S k) requests))
    /\ (registryUntrusted getAddress sd ->
        (forall b, In b answers -> found b = false) ->
        exists rest,
          requestsOf (snd run) = GetCode address :: concat requests ++ rest).
Proof.
  intros getAddress connect chainName address sd provider code Hp Hc Hd
         run answers requests.
  subst run answers requests. rewrite (detectProxy_with _ _ _ _ _ _ Hp).
  split; [|split; [|split]].
  - intros d a Hdecl Ha. apply registryDeclares_declared in Hdecl.
    apply (detectWith_declared _ _ _ _ _ _ _ Hc Hd Hdecl Ha).
  - intros d Hdecl Ha. apply registryDeclares_declared in Hdecl.
    destruct (detectOnChain_returns getAddress provider address code sd)
      as (info & t & Hon).
    exists info, t. split; [exact Hon|].
    apply (detectWith_invalid _ _ _ _ _ _ _ _ Hc Hd Hdecl Ha Hon).
  - intros Hno k impl Hk Hf Hbefore.
    apply registryUntrusted_noShortcut in Hno.
    pose proof (detectOnChain_found getAddress provider address code sd
                  k impl Hk Hf Hbefore) as Hon.
    destruct (detectWith_noShortcut _ _ _ _ _ _ _ Hc Hd Hno Hon) as [H1 H2].
    split; [exact H1|]. rewrite H2. f_equal.
    apply requestsOf_requests, probeRequests_requests.
  - intros Hno Hnone. apply registryUntrusted_noShortcut in Hno.
    destruct (detectOnChain_none getAddress provider address code sd Hnone)
      as (info & rest & Hon & _).
    destruct (detectWith_noShortcut _ _ _ _ _ _ _ Hc Hd Hno Hon) as [_ H2].
    exists (requestsOf rest). rewrite H2. f_equal.
    unfold requestsOf at 1. rewrite filter_app. f_equal.
    change (filter _ ?l) with (requestsOf l).
    apply requestsOf_requests.
    exact (probeRequests_requests getAddress provider address 7).
Qed.

Lemma C4_priority_chain_witness :
  detectProxy Demo.getAddress
    (fun _ => Demo.chainWith OPEN_ZEPPELIN_IMPLEMENTATION_SLOT Demo.LEGACY)
    (js "ethereum") Demo.PROXY (Some (registryRecord true Demo.LOGIC))
  = (Ok (proxyTo Demo.PROXY (Some Demo.LOGIC) (Some (js "etherscan-api"))),
     [GetCode Demo.PROXY; reportLog Demo.LOGIC])
  /\ fst (detectProxy Demo.getAddress
            (fun _ => Demo.chainWith OPEN_ZEPPELIN_IMPLEMENTATION_SLOT
                        Demo.LEGACY)
            (js "ethereum") Demo.PROXY
            (Some (registryRecord true (js "0x1234"))))
     = Ok (proxyTo Demo.PROXY (Some Demo.LEGACY) None)
  /\ requestsOf
       (snd (detectProxy Demo.getAddress
               (fun _ => Demo.chainWith OPEN_ZEPPELIN_IMPLEMENTATION_SLOT
                           Demo.LEGACY)
               (js "ethereum") Demo.PROXY
               (Some (registryRecord true (js "0x1234")))))
     = [GetCode Demo.PROXY;
        GetStorage Demo.PROXY EIP_1967_LOGIC_SLOT;
        GetStorage Demo.PROXY OPEN_ZEPPELIN_IMPLEMENTATION_SLOT].
Proof.
  split.
  - refine (proj1
      (C4_priority_chain Demo.getAddress
         (fun _ => Demo.chainWith OPEN_ZEPPELIN_IMPLEMENTATION_SLOT Demo.LEGACY)
         (js "ethereum") Demo.PROXY (Some (registryRecord true Demo.LOGIC))
         (Demo.chainWith OPEN_ZEPPELIN_IMPLEMENTATION_SLOT Demo.LEGACY)
         (js "0x6080604052") eq_refl eq_refl eq_refl)
      Demo.LOGIC Demo.LOGIC _ eq_refl).
    exists (registryRecord true Demo.LOGIC). repeat split. discriminate.
  - refine (proj1 (proj2 (proj2
      (C4_priority_chain Demo.getAddress
         (fun _ => Demo.chainWith OPEN_ZEPPELIN_IMPLEMENTATION_SLOT Demo.LEGACY)
         (js "ethereum") Demo.PROXY
         (Some (registryRecord true (js "0x1234")))
         (Demo.chainWith OPEN_ZEPPELIN_IMPLEMENTATION_SLOT Demo.LEGACY)
         (js "0x6080604052") eq_refl eq_refl eq_refl)))
      _ 1%nat (Some Demo.LEGACY) _ eq_refl _).
    + right. right. reflexivity.
    + vm_compute. reflexivity.
    + intros j b Hj Hb. destruct j as [|j]; [|lia].
      vm_compute in Hb. injection Hb as <-. reflexivity.
Defined.

(** * Further properties *)

(** ** Trimming *)

Lemma trimEnd_cons (c : N) (r : jsstring) :
  trimEnd (c :: r) =
  match trimEnd r with
  | [] => if isWhite c then [] else [c]
  | r' => c :: r'
  end.
Proof. reflexivity. Qed.

Lemma trimEnd_trimEnd (s : jsstring) : trimEnd (trimEnd s) = trimEnd s.
Proof.
  induction s as [|c r IH]; [reflexivity|]. rewrite trimEnd_cons.
  destruct (trimEnd r) as [|x r'] eqn:E.
  - destruct (isWhite c) eqn:Hw; [reflexivity|]. cbn. now rewrite Hw.
  - rewrite trimEnd_cons, IH. reflexivity.
Qed.

Lemma trimStart_head (s : jsstring) :
  match trimStart s with
  | [] => True
  | c :: _ => isWhite c = false
  end.
Proof.
  induction s as [|c r IH]; cbn; [exact I|].
  destruct (isWhite c) eqn:Hw; [exact IH|exact Hw].
Qed.

Lemma trim_trim (s : jsstring) : trim (trim s) = trim s.
Proof.
  unfold trim. pose proof (trimStart_head s) as H.
  destruct (trimStart s) as [|c r]; [reflexivity|].
  pose proof (trimEnd_keep [] c r H) as K. cbn [app] in K.
  rewrite K. cbn [trimStart]. rewrite H. rewrite <- K.
  apply trimEnd_trimEnd.
Qed.

(** ** Comment stripping, further *)

Lemma skipBlock_closed (k : N -> jsstring -> jsstring) :
  forall body prev rest,
    unterminated (body ++ [STAR]) = true ->
    skipBlock k prev (body ++ STAR :: SLASH :: rest) = k SLASH rest.
Proof.
  induction body as [|b body IH]; intros prev rest H.
  - reflexivity.
  - cbn [app] in *. destruct body as [|d body'].
    + cbn [app] in *. rewrite skipBlock_step.
      change (negb ((b =? STAR) && (STAR =? SLASH)) && true = true) in H.
      apply andb_true_iff in H as [Hno _]. apply negb_true_iff in Hno.
      rewrite Hno. apply (IH b rest). reflexivity.
    + cbn [app] in *. rewrite skipBlock_step.
      change (negb ((b =? STAR) && (d =? SLASH))
              && unterminated (d :: body' ++ [STAR]) = true) in H.
      apply andb_true_iff in H as [Hno Hr]. apply negb_true_iff in Hno.
      rewrite Hno. apply (IH b rest Hr).
Qed.

(** X1.  A block comment that is closed is dropped whole: the scan goes
    on in code state right after the first closing marker that follows
    the opening one, and nothing of the comment reaches the result. *)
Theorem X1_closed_block_comment_is_dropped :
  forall prev body rest,
    unterminated (body ++ [STAR]) = true ->
    scan prev (SLASH :: STAR :: body ++ STAR :: SLASH :: rest) =
    scan (Some SLASH) rest.
Proof.
  intros prev body rest H. cbn [scan].
  cbn [N.eqb Pos.eqb QUOTE DQUOTE SLASH STAR andb].
  now rewrite (skipBlock_closed _ body STAR rest H).
Qed.

Lemma X1_closed_block_comment_is_dropped_witness :
  scan None (SLASH :: STAR :: js "* a 'b' / " ++ STAR :: SLASH :: js " x") =
  scan (Some SLASH) (js " x").
Proof.
  apply (X1_closed_block_comment_is_dropped None (js "* a 'b' / ") (js " x")).
  reflexivity.
Defined.

Lemma skipLine_newline (k : N -> jsstring -> jsstring) :
  forall body rest,
    noNewline body = true ->
    skipLine k (body ++ NL :: rest) = NL :: k NL rest.
Proof.
  induction body as [|c body IH]; intros rest H; cbn [app skipLine].
  - now rewrite N.eqb_refl.
  - cbn in H. apply andb_true_iff in H as [Hc Hb].
    apply negb_true_iff in Hc. rewrite Hc. now apply IH.
Qed.

Lemma skipLine_end (k : N -> jsstring -> jsstring) :
  forall body, noNewline body = true -> skipLine k body = [].
Proof.
  induction body as [|c body IH]; intros H; [reflexivity|].
  cbn in *. apply andb_true_iff in H as [Hc Hb].
  apply negb_true_iff in Hc. rewrite Hc. now apply IH.
Qed.

(** X2.  A line comment is dropped up to the end of its line, whatever it
    holds (quotes and block markers included); the newline that ends it
    is kept and the scan goes on after it.  A line comment that runs to
    the end of the input is dropped with nothing kept. *)
Theorem X2_line_comment_is_dropped :
  forall prev body,
    noNewline body = true ->
    (forall rest,
        scan prev (SLASH :: SLASH :: body ++ NL :: rest) =
        NL :: scan (Some NL) rest)
    /\ scan prev (SLASH :: SLASH :: body) = [].
Proof.
  intros prev body H. split; [intros rest|]; cbn [scan];
    cbn [N.eqb Pos.eqb QUOTE DQUOTE SLASH STAR andb].
  - change (SLASH :: body ++ NL :: rest) with ((SLASH :: body) ++ NL :: rest).
    apply skipLine_newline. cbn. exact H.
  - apply skipLine_end. cbn. exact H.
Qed.

Lemma X2_line_comment_is_dropped_witness :
  (forall rest,
      scan None (SLASH :: SLASH :: js " it's /* here" ++ NL :: rest) =
      NL :: scan (Some NL) rest)
  /\ scan None (SLASH :: SLASH :: js " it's /* here") = [].
Proof.
  apply (X2_line_comment_is_dropped None (js " it's /* here")). reflexivity.
Defined.

Lemma scan_commentFree :
  forall s prev, commentFree s = true -> scan prev s = s.
Proof.
  induction s as [|c r IH]; intros prev H; [reflexivity|].
  cbn [commentFree] in H.
  apply andb_true_iff in H as [H Hr]. apply andb_true_iff in H as [Hq Hs].
  apply negb_true_iff in Hq. apply negb_true_iff in Hs.
  unfold isQuote in Hq. apply orb_false_iff in Hq as [Hq1 Hq2].
  cbn [scan]. rewrite Hq1, Hq2. cbn [andb].
  destruct r as [|d r']; [reflexivity|].
  destruct (c =? SLASH) eqn:Hc; cbn [andb] in *.
  - apply orb_false_iff in Hs as [Hs1 Hs2]. rewrite Hs1, Hs2.
    f_equal. now apply IH.
  - f_equal. now apply IH.
Qed.

Lemma white_commentFree (s : jsstring) :
  forallb isWhite s = true -> commentFree s = true.
Proof.
  induction s as [|c r IH]; [reflexivity|]. cbn [forallb commentFree].
  intros H. apply andb_true_iff in H as [Hc Hr]. rewrite (IH Hr).
  assert (Hq : isQuote c = false /\ (c =? SLASH) = false).
  { unfold isQuote. split; [apply orb_false_iff; split|];
      apply N.eqb_neq; intros ->; discriminate Hc. }
  destruct Hq as [-> ->]. reflexivity.
Qed.

Lemma collapse_white (s : jsstring) :
  forall n, forallb isWhite s = true ->
            forallb isWhite (collapseNewlines n s) = true.
Proof.
  induction s as [|c r IH]; intros n H; [reflexivity|].
  cbn [forallb] in H. apply andb_true_iff in H as [Hc Hr].
  cbn [collapseNewlines]. destruct (c =? NL).
  - destruct (n <? 2)%nat; [cbn [forallb]|]; rewrite ?IH; auto.
  - cbn [forallb]. now rewrite Hc, IH.
Qed.

Lemma trimLines_white (s : jsstring) :
  forallb isWhite s = true -> forallb isWhite (trimLines s) = true.
Proof.
  induction s as [|c r IH]; intros H; [reflexivity|].
  cbn [forallb] in H. apply andb_true_iff in H as [Hc Hr].
  specialize (IH Hr). destruct (c =? NL) eqn:E.
  - apply N.eqb_eq in E. subst c. rewrite trimLines_newline. cbn [forallb].
    now rewrite IH.
  - unfold trimLines in *. cbn [splitOn]. rewrite E.
    destruct (splitOn_cons NL r) as (l & ls & El). rewrite El in *.
    cbn [map] in *. cbn [trimEnd]. rewrite Hc.
    destruct (trimEnd l) as [|x r'] eqn:Et; cbv beta iota.
    + exact IH.
    + rewrite join_cons. cbn [forallb]. now rewrite Hc, IH.
Qed.

(** X3.  The output of [stripSolidityComments] is a text that is already
    trimmed, followed by one newline: it is never empty and carries no
    white space at its start nor before its final newline.  A source that
    is empty or blank gives the single newline. *)
Theorem X3_strip_output_shape :
  (forall source,
      exists text,
        stripSolidityComments source = text ++ [NL] /\ trim text = text)
  /\ forall source,
      forallb isWhite source = true ->
      stripSolidityComments source = [NL].
Proof.
  split.
  - intros source. eexists. split; [reflexivity|]. apply trim_trim.
  - intros source H. unfold stripSolidityComments.
    rewrite (scan_commentFree source None (white_commentFree source H)).
    unfold trim. rewrite trimStart_blank; [reflexivity|].
    apply trimLines_white, collapse_white, H.
Qed.

Lemma X3_strip_output_shape_witness :
  stripSolidityComments [32; NL; 9; NL; NL; NL; 32] = [NL].
Proof.
  apply (proj2 X3_strip_output_shape [32; NL; 9; NL; NL; NL; 32]).
  reflexivity.
Defined.

(** X4.  Code that holds no quote and no slash followed by a slash or a
    star goes through the scan unchanged (a lone slash, as in a division,
    is kept); of such a source only the finishing passes change
    anything. *)
Theorem X4_code_is_copied :
  forall source,
    commentFree source = true ->
    (forall prev, scan prev source = source)
    /\ stripSolidityComments source =
       trim (trimLines (collapseNewlines 0 source)) ++ [NL].
Proof.
  intros source H. split.
  - intros prev. now apply scan_commentFree.
  - unfold stripSolidityComments. now rewrite scan_commentFree.
Qed.

Lemma X4_code_is_copied_witness :
  (forall prev,
      scan prev (js "uint256 public ratio = 100 / 2;") =
      js "uint256 public ratio = 100 / 2;")
  /\ stripSolidityComments (js "uint256 public ratio = 100 / 2;") =
     trim (trimLines
             (collapseNewlines 0 (js "uint256 public ratio = 100 / 2;")))
     ++ [NL].
Proof.
  apply (X4_code_is_copied (js "uint256 public ratio = 100 / 2;")).
  reflexivity.
Defined.

(** ** Triage, further *)

Lemma unique_content (files : list (jsstring * jsstring)) p c c' :
  NoDup (map fst files) ->
  In (p, c) files -> In (p, c') files -> c = c'.
Proof.
  induction files as [|[q d] rest IH]; intros Hnd H1 H2; [contradiction|].
  cbn [map fst] in Hnd. inversion Hnd as [|? ? Hnotin Hrest]; subst.
  destruct H1 as [H1|H1], H2 as [H2|H2].
  - congruence.
  - inversion H1; subst. exfalso. apply Hnotin.
    now apply (in_map fst _ (p, c')).
  - inversion H2; subst. exfalso. apply Hnotin.
    now apply (in_map fst _ (p, c)).
  - now apply IH.
Qed.

Lemma in_criticalOf_inv main files p :
  In p (criticalOf main files) ->
  exists c, In (p, c) files /\ isMain p main = false
            /\ isPureInterface c = false.
Proof.
  unfold criticalOf. intros H. apply in_map_iff in H as ([q c] & Hq & Hf).
  cbn in Hq. subst q. apply filter_In in Hf as [Hin Hb]. cbn in Hb.
  apply andb_true_iff in Hb as [Hm Hp]. exists c.
  apply negb_true_iff in Hm. apply negb_true_iff in Hp. now repeat split.
Qed.

Lemma in_interfacesOf_inv main files p :
  In p (interfacesOf main files) ->
  exists c, In (p, c) files /\ isMain p main = false
            /\ isPureInterface c = true.
Proof.
  unfold interfacesOf. intros H. apply in_map_iff in H as ([q c] & Hq & Hf).
  cbn in Hq. subst q. apply filter_In in Hf as [Hin Hb]. cbn in Hb.
  apply andb_true_iff in Hb as [Hm Hp]. exists c.
  apply negb_true_iff in Hm. now repeat split.
Qed.

(** X5.  [categorizeFilesForAudit] gives every file of the tree exactly
    one of three classes: the main file, an interface, or a critical
    file; [interfaces] and [criticalFiles] hold no path twice over and
    never the main file. *)
Theorem X5_one_class_per_file :
  forall files main filePath content,
    NoDup (map fst files) ->
    In (filePath, content) files ->
    let cat := categorizeFilesForAudit files main in
    (isMain filePath main = true
     /\ ~ In filePath (interfaces cat) /\ ~ In filePath (criticalFiles cat))
    \/ (isMain filePath main = false /\ isPureInterface content = true
        /\ In filePath (interfaces cat)
        /\ ~ In filePath (criticalFiles cat))
    \/ (isMain filePath main = false /\ isPureInterface content = false
        /\ ~ In filePath (interfaces cat)
        /\ In filePath (criticalFiles cat)).
Proof.
  intros files main filePath content Hnd Hin cat. subst cat.
  rewrite categorize_closed. cbn [interfaces criticalFiles].
  assert (Hi : In filePath (interfacesOf main files) ->
               isMain filePath main = false
               /\ isPureInterface content = true).
  { intros H. apply in_interfacesOf_inv in H as (c & Hc & Hm & Hp).
    now rewrite (unique_content files filePath content c Hnd Hin Hc). }
  assert (Hc : In filePath (criticalOf main files) ->
               isMain filePath main = false
               /\ isPureInterface content = false).
  { intros H. apply in_criticalOf_inv in H as (c & Hc & Hm & Hp).
    now rewrite (unique_content files filePath content c Hnd Hin Hc). }
  destruct (isMain filePath main) eqn:Hm.
  - left. split; [reflexivity|]. split; intros H;
      [apply Hi in H|apply Hc in H]; destruct H; discriminate.
  - right. destruct (isPureInterface content) eqn:Hp.
    + left. repeat split.
      * now apply in_interfacesOf with content.
      * intros H. apply Hc in H. destruct H; discriminate.
    + right. repeat split.
      * intros H. apply Hi in H. destruct H; discriminate.
      * now apply in_criticalOf with content.
Qed.

Lemma X5_one_class_per_file_witness :
  let files := [(js "Main.sol", js "contract Main {}");
                (js "IFoo.sol", js "interface IFoo { function f() external; }");
                (js "Lib.sol", js "library Lib {}")] in
  let cat := categorizeFilesForAudit files (Some (js "Main.sol")) in
  (isMain (js "IFoo.sol") (Some (js "Main.sol")) = true
   /\ ~ In (js "IFoo.sol") (interfaces cat)
   /\ ~ In (js "IFoo.sol") (criticalFiles cat))
  \/ (isMain (js "IFoo.sol") (Some (js "Main.sol")) = false
      /\ isPureInterface (js "interface IFoo { function f() external; }")
         = true
      /\ In (js "IFoo.sol") (interfaces cat)
      /\ ~ In (js "IFoo.sol") (criticalFiles cat))
  \/ (isMain (js "IFoo.sol") (Some (js "Main.sol")) = false
      /\ isPureInterface (js "interface IFoo { function f() external; }")
         = false
      /\ ~ In (js "IFoo.sol") (interfaces cat)
      /\ In (js "IFoo.sol") (criticalFiles cat)).
Proof.
  apply (X5_one_class_per_file
           [(js "Main.sol", js "contract Main {}");
            (js "IFoo.sol", js "interface IFoo { function f() external; }");
            (js "Lib.sol", js "library Lib {}")]
           (Some (js "Main.sol")) (js "IFoo.sol")
           (js "interface IFoo { function f() external; }")).
  - repeat constructor; cbn; intuition discriminate.
  - right. left. reflexivity.
Defined.

(** ** The blacklist, further *)

Lemma startsWith_app (s b p : jsstring) :
  startsWith s p = true -> startsWith (s ++ b) p = true.
Proof.
  revert s. induction p as [|x p IH]; intros s H;
    [now destruct (s ++ b)|].
  destruct s as [|y s]; [discriminate|]. cbn in *.
  apply andb_true_iff in H as [Hxy Hs]. rewrite Hxy. now apply IH.
Qed.

Lemma includes_unfold (s p : jsstring) :
  includes s p =
  startsWith s p || match s with [] => false | _ :: r => includes r p end.
Proof. destruct s; reflexivity. Qed.

Lemma includes_app_r (s b p : jsstring) :
  includes s p = true -> includes (s ++ b) p = true.
Proof.
  induction s as [|c s IH]; intros H.
  - rewrite includes_unfold in H. rewrite orb_false_r in H.
    destruct p; [|discriminate]. now destruct b.
  - rewrite includes_unfold in H. cbn [app]. rewrite includes_unfold.
    apply orb_true_iff in H as [H|H]; apply orb_true_iff.
    + left. now apply (startsWith_app (c :: s) b p).
    + right. now apply IH.
Qed.

Lemma includes_app_l (a s p : jsstring) :
  includes s p = true -> includes (a ++ s) p = true.
Proof.
  intros H. induction a as [|c a IH]; [exact H|].
  cbn [app]. rewrite includes_unfold. apply orb_true_iff. now right.
Qed.

Lemma startsWith_units (s p : jsstring) :
  startsWith s p = true -> forall c, In c p -> In c s.
Proof.
  revert s. induction p as [|x p IH]; intros s H c Hc; [contradiction|].
  destruct s as [|y s]; [discriminate|]. cbn in H.
  apply andb_true_iff in H as [Hxy Hs]. apply N.eqb_eq in Hxy. subst y.
  destruct Hc as [->|Hc]; [now left|]. right. now apply (IH s).
Qed.

Lemma includes_units (s p : jsstring) :
  includes s p = true -> forall c, In c p -> In c s.
Proof.
  induction s as [|y s IH]; intros H c Hc; rewrite includes_unfold in H.
  - rewrite orb_false_r in H. now apply (startsWith_units [] p).
  - apply orb_true_iff in H as [H|H].
    + now apply (startsWith_units (y :: s) p).
    + right. now apply IH.
Qed.

Lemma forwardSlashes_twice (s : jsstring) :
  forwardSlashes (forwardSlashes s) = forwardSlashes s.
Proof.
  unfold forwardSlashes. rewrite map_map. apply map_ext. intros c.
  destruct (c =? BACKSLASH) eqn:E; [reflexivity|]. now rewrite E.
Qed.

Lemma forwardSlashes_no_backslash (s : jsstring) :
  ~ In BACKSLASH (forwardSlashes s).
Proof.
  unfold forwardSlashes. intros H. apply in_map_iff in H as (c & Hc & _).
  destruct (c =? BACKSLASH) eqn:E; [discriminate|].
  apply N.eqb_neq in E. congruence.
Qed.

(** X6.  Blacklisting looks for the entries anywhere in the path, after
    turning backslashes into slashes: a path written with backslashes is
    treated as the one written with slashes, and a blacklisted path stays
    blacklisted when directories are put before it or text after it. *)
Theorem X6_blacklist_matches_substrings :
  forall cfg filePath,
    isBlacklisted cfg (forwardSlashes filePath) = isBlacklisted cfg filePath
    /\ forall before after,
        isBlacklisted cfg filePath = true ->
        isBlacklisted cfg (before ++ filePath ++ after) = true.
Proof.
  intros cfg filePath. split.
  - unfold isBlacklisted. rewrite forwardSlashes_twice.
    destruct filePath; reflexivity.
  - intros before after H.
    apply isBlacklisted_spec in H as [Hne (pattern & Hin & Hinc)].
    apply isBlacklisted_spec. split.
    + destruct before; [destruct filePath; [contradiction|discriminate]
                       |discriminate].
    + exists pattern. split; [exact Hin|].
      unfold forwardSlashes in *. rewrite !map_app.
      now apply includes_app_l, includes_app_r.
Qed.

Lemma X6_blacklist_matches_substrings_witness :
  isBlacklisted (Loaded (Some [js "@openzeppelin/"]))
    (js "proxy\" ++ js "@openzeppelin\contracts\Ownable" ++ js ".sol") = true.
Proof.
  apply (proj2 (X6_blacklist_matches_substrings
                  (Loaded (Some [js "@openzeppelin/"]))
                  (js "@openzeppelin\contracts\Ownable"))
           (js "proxy\") (js ".sol")).
  reflexivity.
Defined.

(** X7.  A blacklist entry that holds a backslash matches no path: the
    path is searched after its backslashes have become slashes, the
    entries are taken as they are. *)
Theorem X7_backslash_entries_match_nothing :
  forall cfg filePath,
    (forall pattern, In pattern (loadBlacklist cfg) -> In BACKSLASH pattern) ->
    isBlacklisted cfg filePath = false.
Proof.
  intros cfg filePath Hall.
  destruct (isBlacklisted cfg filePath) eqn:E; [|reflexivity].
  apply isBlacklisted_spec in E as [_ (pattern & Hin & Hinc)].
  exfalso. apply (forwardSlashes_no_backslash filePath).
  apply (includes_units _ pattern Hinc). now apply Hall.
Qed.

Lemma X7_backslash_entries_match_nothing_witness :
  isBlacklisted (Loaded (Some [js "@openzeppelin\"]))
    (js "@openzeppelin\contracts\Ownable.sol") = false.
Proof.
  apply (X7_backslash_entries_match_nothing
           (Loaded (Some [js "@openzeppelin\"]))
           (js "@openzeppelin\contracts\Ownable.sol")).
  intros pattern [<-|[]]. vm_compute. tauto.
Defined.



(** ** Proxy resolution, further *)

Section ChainFurther.

Variable getAddress : jsstring -> option jsstring.
Variable provider : Provider.

Lemma detectWith_returns contractAddress sd :
  exists info t,
    detectWith getAddress provider contractAddress sd = (Ok info, t).
Proof.
  unfold detectWith. apply catch_returns.
  intros e. unfold bind, console_error, ret. eauto.
Qed.

Lemma detectOnChain_coherent contractAddress code sd info t :
  detectOnChain getAddress provider contractAddress code sd = (Ok info, t) ->
  coherent contractAddress info /\ error info = None.
Proof.
  unfold detectOnChain.
  rewrite detectionMethods_run, firstImplementation_run. unfold bind at 1.
  set (impl := firstFound _).
  assert (Hyes : forall a m,
             found a = true ->
             coherent contractAddress (proxyTo contractAddress a m)
             /\ error (proxyTo contractAddress a m) = None).
  { intros a m Ha. split; [|reflexivity]. split; [reflexivity|].
    split; cbn; [|discriminate]. intros _. split; [|reflexivity].
    intros ->. discriminate. }
  assert (Hno : coherent contractAddress (notProxy contractAddress None)
                /\ error (notProxy contractAddress None) = None).
  { split; [|reflexivity]. split; [reflexivity|].
    split; cbn; [discriminate|]. now split. }
  destruct (found impl) eqn:F.
  - unfold ret. intros H. injection H as <- _. now apply Hyes.
  - destruct sd as [sd|]; [|unfold ret; intros H; now injection H as <- _].
    destruct (isVerified sd);
      [|unfold ret; intros H; now injection H as <- _].
    destruct (detectProxyFromSource_returns getAddress provider
                contractAddress sd) as (a & t' & ->).
    unfold bind, ret. destruct (found a) eqn:Fa; intros H;
      injection H as <- _; [now apply Hyes|exact Hno].
Qed.

(** The ways a resolution with the provider ends. *)
Lemma detectWith_cases contractAddress sd :
  (exists m,
      getCode provider contractAddress = Throw m
      /\ detectWith getAddress provider contractAddress sd =
         (Ok (notProxy contractAddress (Some m)),
          [GetCode contractAddress;
           ConsoleError (js "Error detecting proxy for " ++ contractAddress
                         ++ js ": " ++ m)]))
  \/ (exists code,
         getCode provider contractAddress = Ok code
         /\ deployed code = false
         /\ detectWith getAddress provider contractAddress sd =
            (Ok (notProxy contractAddress (Some (js "No contract at address"))),
             [GetCode contractAddress]))
  \/ (exists code d a,
         getCode provider contractAddress = Ok code
         /\ deployed code = true
         /\ declared sd = Some d /\ getAddress d = Some a
         /\ detectWith getAddress provider contractAddress sd =
            (Ok (proxyTo contractAddress (Some a) (Some (js "etherscan-api"))),
             [GetCode contractAddress; reportLog a]))
  \/ (exists code info t,
         getCode provider contractAddress = Ok code
         /\ deployed code = true
         /\ detectOnChain getAddress provider contractAddress code sd
            = (Ok info, t)
         /\ fst (detectWith getAddress provider contractAddress sd) = Ok info
         /\ requestsOf (snd (detectWith getAddress provider contractAddress sd))
            = GetCode contractAddress :: requestsOf t).
Proof.
  destruct (getCode provider contractAddress) as [code|m] eqn:Hcode.
  - right. destruct (deployed code) eqn:Hd.
    + right.
      destruct (detectOnChain_returns getAddress provider contractAddress
                  code sd) as (info & t & Hon).
      destruct (declared sd) as [d|] eqn:Hdecl.
      * destruct (getAddress d) as [a|] eqn:Ha.
        -- left. exists code, d, a. repeat split; try assumption.
           now apply (detectWith_declared _ _ _ _ code d a).
        -- right. exists code, info, t. split; [reflexivity|].
           split; [exact Hd|]. split; [exact Hon|].
           apply (detectWith_noShortcut _ _ _ _ code info t Hcode Hd);
             [|exact Hon]. right. now exists d.
      * right. exists code, info, t. split; [reflexivity|].
        split; [exact Hd|]. split; [exact Hon|].
        apply (detectWith_noShortcut _ _ _ _ code info t Hcode Hd);
          [|exact Hon]. now left.
    + left. exists code. repeat split; try assumption.
      now apply (detectWith_empty _ _ _ _ code).
  - left. exists m. split; [reflexivity|].
    unfold detectWith, request. rewrite Hcode. reflexivity.
Qed.



End ChainFurther.

(** X9.  [detectProxy] throws in one case only, an unsupported chain
    name, and then before any request or console line; on a supported
    chain it returns a result whatever the chain answers. *)
Theorem X9_detectProxy_throws_only_on_unknown_chain :
  forall getAddress connect chainName contractAddress sourceData,
    match getChainConfig chainName with
    | None =>
        detectProxy getAddress connect chainName contractAddress sourceData
        = (Throw (js "Unsupported chain: " ++ chainName), [])
    | Some _ =>
        exists info events,
          detectProxy getAddress connect chainName contractAddress sourceData
          = (Ok info, events)
    end.
Proof.
  intros getAddress connect chainName contractAddress sourceData.
  unfold detectProxy, createProvider.
  destruct (getChainConfig chainName) as [rpcUrl|]; [|reflexivity].
  apply detectWith_returns.
Qed.

(** X10.  Every result of [detectProxy] is coherent: it carries the
    address asked about; a result with [isProxy] true has an
    implementation address and no [error]; a result with [isProxy] false
    has neither an implementation address nor a [detectionMethod]. *)
Theorem X10_result_is_coherent :
  forall getAddress connect chainName contractAddress sourceData info events,
    detectProxy getAddress connect chainName contractAddress sourceData
    = (Ok info, events) ->
    coherent contractAddress info.
Proof.
  intros getAddress connect chainName contractAddress sourceData info events.
  unfold detectProxy.
  destruct (createProvider connect chainName) as [provider|m];
    [|discriminate].
  intros H.
  destruct (detectWith_cases getAddress provider contractAddress sourceData)
    as [(m & _ & E)|[(code & _ & _ & E)|[(code & d & a & _ & _ & _ & _ & E)
       |(code & info' & t & _ & _ & Hon & E & _)]]].
  - rewrite E in H. injection H as <- _. split; [reflexivity|].
    split; cbn; [discriminate|]. now split.
  - rewrite E in H. injection H as <- _. split; [reflexivity|].
    split; cbn; [discriminate|]. now split.
  - rewrite E in H. injection H as <- _. split; [reflexivity|].
    split; cbn; [|discriminate]. intros _. split; [discriminate|reflexivity].
  - rewrite H in E. cbn [fst] in E. injection E as <-.
    now apply (detectOnChain_coherent getAddress provider contractAddress
                 code sourceData info t).
Qed.

Lemma X10_result_is_coherent_witness :
  coherent Demo.PROXY
    (proxyTo Demo.PROXY (Some Demo.LOGIC) None).
Proof.
  apply (X10_result_is_coherent Demo.getAddress
           (fun _ => Demo.chainWith EIP_1967_LOGIC_SLOT Demo.LOGIC)
           (js "ethereum") Demo.PROXY None
           (proxyTo Demo.PROXY (Some Demo.LOGIC) None)
           [GetCode Demo.PROXY; GetStorage Demo.PROXY EIP_1967_LOGIC_SLOT]).
  vm_compute. reflexivity.
Defined.

(** X11.  The [error] of a result speaks of the first code request only:
    it is the message that request failed with, or
    ['No contract at address'] when the request answered ['0x'] or
    ['0x0'].  A failed code request ends the resolution at once, with one
    line on the error console and no further request. *)
Theorem X11_error_comes_from_the_code_request :
  forall getAddress connect chainName provider contractAddress sourceData,
    createProvider connect chainName = Ok provider ->
    (forall info events message,
        detectProxy getAddress connect chainName contractAddress sourceData
        = (Ok info, events) ->
        error info = Some message ->
        getCode provider contractAddress = Throw message
        \/ (message = js "No contract at address"
            /\ exists code, getCode provider contractAddress = Ok code
                            /\ deployed code = false))
    /\ (forall message,
           getCode provider contractAddress = Throw message ->
           detectProxy getAddress connect chainName contractAddress sourceData
           = (Ok (notProxy contractAddress (Some message)),
              [GetCode contractAddress;
               ConsoleError (js "Error detecting proxy for "
                             ++ contractAddress ++ js ": " ++ message)])).
Proof.
  intros getAddress connect chainName provider contractAddress sourceData Hp.
  unfold detectProxy. rewrite Hp.
  destruct (detectWith_cases getAddress provider contractAddress sourceData)
    as [(m & Hm & E)|[(code & Hc & Hd & E)|[(code & d & a & Hc & _ & _ & _ & E)
       |(code & info' & t & Hc & _ & Hon & E & _)]]].
  - split.
    + intros info events message H He. rewrite E in H. injection H as <- _.
      cbn in He. injection He as <-. now left.
    + intros message Hthrow. rewrite Hm in Hthrow. injection Hthrow as <-.
      exact E.
  - split.
    + intros info events message H He. rewrite E in H. injection H as <- _.
      cbn in He. injection He as <-. right. split; [reflexivity|].
      now exists code.
    + intros message Hthrow. rewrite Hc in Hthrow. discriminate.
  - split.
    + intros info events message H He. rewrite E in H. injection H as <- _.
      discriminate.
    + intros message Hthrow. rewrite Hc in Hthrow. discriminate.
  - split.
    + intros info events message H He. rewrite H in E. cbn [fst] in E.
      injection E as <-.
      destruct (detectOnChain_coherent getAddress provider contractAddress
                  code sourceData info t Hon) as [_ Hnone].
      rewrite Hnone in He. discriminate.
    + intros message Hthrow. rewrite Hc in Hthrow. discriminate.
Qed.

Lemma X11_error_comes_from_the_code_request_witness :
  detectProxy Demo.getAddress (fun _ => unreachableChain) (js "base")
    Demo.PROXY None
  = (Ok (notProxy Demo.PROXY (Some (js "timeout"))),
     [GetCode Demo.PROXY;
      ConsoleError (js "Error detecting proxy for " ++ Demo.PROXY
                    ++ js ": " ++ js "timeout")]).
Proof.
  apply (proj2 (X11_error_comes_from_the_code_request Demo.getAddress
                  (fun _ => unreachableChain) (js "base") unreachableChain
                  Demo.PROXY None eq_refl)).
  reflexivity.
Defined.



(** ** Storage words and minimal proxies *)

(** X13.  Of a storage word of thirty-two bytes [readAddressFromSlot]
    reads the low twenty: the high twelve bytes are ignored, whatever
    they hold, and a word whose low twenty bytes are zero holds no
    address. *)
Theorem X13_slot_address_is_the_low_twenty_bytes :
  forall getAddress high low,
    List.length high = 24%nat ->
    List.length low = 40%nat ->
    readAddressFromSlot getAddress (js "0x" ++ high ++ low) =
    if JS.eqb (js "0x" ++ low) ZERO_ADDRESS then None
    else getAddress (js "0x" ++ low).
Proof.
  intros getAddress high low Hh Hl. unfold readAddressFromSlot.
  assert (E : removeFirst (js "0x") (js "0x" ++ high ++ low) = high ++ low)
    by (cbn; now destruct (high ++ low)).
  rewrite E.
  assert (L : List.length (high ++ low) = 64%nat)
    by now rewrite length_app, Hh, Hl.
  assert (P : padStart 64 (high ++ low) = high ++ low)
    by (unfold padStart; now rewrite L).
  rewrite P. unfold lastUnits. rewrite L.
  change (64 - 40)%nat with 24%nat.
  replace (skipn 24 (high ++ low)) with low; [reflexivity|].
  rewrite <- Hh, skipn_app, skipn_all, Nat.sub_diag. reflexivity.
Qed.

Lemma X13_slot_address_is_the_low_twenty_bytes_witness :
  readAddressFromSlot Demo.getAddress
    (js "0x" ++ js "ffffffffffffffffffffffff"
     ++ js "00000000000000000000000000000000000000a1")
  = Some (js "0x00000000000000000000000000000000000000a1").
Proof.
  rewrite (X13_slot_address_is_the_low_twenty_bytes Demo.getAddress
             (js "ffffffffffffffffffffffff")
             (js "00000000000000000000000000000000000000a1")
             eq_refl eq_refl).
  reflexivity.
Defined.

Lemma run_chars {R : Type} (l : jsstring) :
  forall prev s cap (k : option N -> jsstring -> option jsstring -> option R),
    run (seqs (map chr l)) prev (l ++ s) cap k = k (unitBefore prev l) s cap.
Proof.
  induction l as [|x l IH]; intros prev s cap k; [reflexivity|].
  destruct l as [|y l'].
  - cbn. now rewrite N.eqb_refl.
  - change (seqs (map chr (x :: y :: l')))
      with (Seq (chr x) (seqs (map chr (y :: l')))).
    change ((x :: y :: l') ++ s) with (x :: (y :: l') ++ s).
    cbn [run chr]. rewrite N.eqb_refl. now rewrite IH.
Qed.

Lemma run_rep_cls {R : Type} (p : N -> bool) (l : jsstring) :
  forall n prev s cap
         (k : option N -> jsstring -> option jsstring -> option R),
    List.length l = n ->
    forallb p l = true ->
    run (rep n (Cls p)) prev (l ++ s) cap k = k (unitBefore prev l) s cap.
Proof.
  induction l as [|x l IH]; intros n prev s cap k Hn Hp; subst n;
    [reflexivity|].
  cbn [forallb] in Hp. apply andb_true_iff in Hp as [Hx Hl].
  destruct l as [|y l'].
  - cbn. now rewrite Hx.
  - change (rep (List.length (x :: y :: l')) (Cls p))
      with (Seq (Cls p) (rep (List.length (y :: l')) (Cls p))).
    change ((x :: y :: l') ++ s) with (x :: (y :: l') ++ s).
    cbn [run]. rewrite Hx. now rewrite (IH _ _ _ _ _ eq_refl Hl).
Qed.

Lemma firstn_consumed {A : Type} (a b : list A) :
  firstn (List.length (a ++ b) - List.length b) (a ++ b) = a.
Proof.
  rewrite length_app, Nat.add_sub, firstn_app, Nat.sub_diag, firstn_all.
  cbn [firstn]. apply app_nil_r.
Qed.

Lemma exec_from_here (r : re) (prev : option N) (s : jsstring) (m : Match) :
  matchAt r prev s = Some m -> exec_from r prev s = Some m.
Proof. intros H. destruct s; cbn [exec_from]; now rewrite H. Qed.

(** A pattern that starts with [^] matches at the start or nowhere. *)
Lemma exec_from_anchored (r : re) (s : jsstring) :
  forall c, exec_from (Seq Bos r) (Some c) s = None.
Proof.
  induction s as [|d s IH]; intros c; [reflexivity|].
  cbn [exec_from]. unfold matchAt. cbn [run]. apply IH.
Qed.

Lemma exec_anchored (r : re) (s : jsstring) :
  exec (Seq Bos r) s = matchAt (Seq Bos r) None s.
Proof.
  unfold exec. destruct s as [|c t]; cbn [exec_from];
    destruct (matchAt (Seq Bos r) None _); try reflexivity.
  apply exec_from_anchored.
Qed.

Lemma minimalProxy_standard (target : jsstring) :
  List.length target = 40%nat ->
  forallb isHex target = true ->
  exists m,
    exec RE_EIP1167 (minimalProxyCode target) = Some m
    /\ group1 m = Some target.
Proof.
  intros Hlen Hhex. eexists. split.
  - apply exec_from_here. unfold matchAt, RE_EIP1167, minimalProxyCode.
    cbn [seqs run]. unfold lit at 1. rewrite run_chars.
    rewrite (run_rep_cls isHex target 40 _ _ _ _ Hlen Hhex).
    rewrite firstn_consumed.
    rewrite <- (app_nil_r (js "5af43d82803e903d91602b57fd5bf3")) at 1.
    unfold lit. rewrite run_chars. reflexivity.
  - reflexivity.
Qed.

Lemma minimalProxy_alternative (target : jsstring) :
  exec RE_EIP1167_ALT (minimalProxyCode target) = None.
Proof.
  change RE_EIP1167_ALT
    with (Seq Bos (seqs [liti "0x36600080376020363660203736"; Star hex;
                         liti "73"; Group (rep 40 hex); Star hex; Eos])).
  rewrite exec_anchored. reflexivity.
Qed.

(** X14.  On the runtime code of an EIP-1167 minimal proxy, the standard
    template around forty hexadecimal digits, [parseEIP1167Bytecode]
    answers what [ethers.getAddress] makes of these digits; the
    alternative pattern never steps in for the standard one. *)
Theorem X14_minimal_proxy_code_gives_its_target :
  forall getAddress target,
    List.length target = 40%nat ->
    forallb isHex target = true ->
    parseEIP1167Bytecode getAddress (minimalProxyCode target)
    = getAddress (js "0x" ++ target).
Proof.
  intros getAddress target Hlen Hhex.
  destruct (minimalProxy_standard target Hlen Hhex) as ([matched g] & E & Hg).
  cbn [group1] in Hg. subst g.
  unfold parseEIP1167Bytecode. cbn [parsePatterns]. rewrite E.
  rewrite minimalProxy_alternative.
  destruct target as [|c g]; [discriminate|].
  now destruct (getAddress (js "0x" ++ c :: g)).
Qed.

Lemma X14_minimal_proxy_code_gives_its_target_witness :
  parseEIP1167Bytecode Demo.getAddress
    (minimalProxyCode (js "bebebebebebebebebebebebebebebebebebebebe"))
  = Some (js "0xbebebebebebebebebebebebebebebebebebebebe").
Proof.
  rewrite (X14_minimal_proxy_code_gives_its_target Demo.getAddress
             (js "bebebebebebebebebebebebebebebebebebebebe")
             eq_refl eq_refl).
  reflexivity.
Defined.

(** ** [getBytecode] *)

(** X15.  [getBytecode] answers only code that is neither ['0x'] nor
    ['0x0'], after one code request.  An unsupported chain is reported
    as such before any request; every other failure, the function's own
    complaint about an address without code included, is thrown again
    under ['Failed to get bytecode for <address>: ']. *)
Theorem X15_getBytecode_returns_code_or_throws :
  forall connect chainName contractAddress,
    let run := getBytecode connect chainName contractAddress in
    match getChainConfig chainName with
    | None => run = (Throw (js "Unsupported chain: " ++ chainName), [])
    | Some rpcUrl =>
        snd run = [GetCode contractAddress]
        /\ match getCode (connect rpcUrl) contractAddress with
           | Ok code =>
               if deployed code then fst run = Ok code
               else
                 fst run =
                 Throw (js "Failed to get bytecode for " ++ contractAddress
                        ++ js ": " ++ js "No bytecode found at address "
                        ++ contractAddress
                        ++ js ". This might be an EOA or non-existent contract.")
           | Throw cause =>
               fst run =
               Throw (js "Failed to get bytecode for " ++ contractAddress
                      ++ js ": " ++ cause)
           end
    end.
Proof.
  intros connect chainName contractAddress run. subst run.
  unfold getBytecode, createProvider.
  destruct (getChainConfig chainName) as [rpcUrl|]; [|reflexivity].
  unfold request, deployed.
  destruct (getCode (connect rpcUrl) contractAddress) as [code|cause].
  - unfold bind. destruct (JS.eqb code (js "0x") || JS.eqb code (js "0x0"));
      split; reflexivity.
  - split; reflexivity.
Qed.

(** ** Chain names *)

Lemma jseqb_eq (a b : jsstring) : JS.eqb a b = true <-> a = b.
Proof.
  revert b. induction a as [|x a IH]; intros [|y b]; cbn;
    try (split; [discriminate|discriminate]); [now split|].
  rewrite andb_true_iff, N.eqb_eq, IH. split.
  - now intros [-> ->].
  - intros H. now injection H.
Qed.

Lemma jseqb_sym (a b : jsstring) : JS.eqb a b = JS.eqb b a.
Proof.
  revert b. induction a as [|x a IH]; intros [|y b]; cbn; try reflexivity.
  now rewrite IH, N.eqb_sym.
Qed.

Lemma assoc_keys (l : list (jsstring * jsstring)) (key : jsstring) :
  (exists v, assoc l key = Some v) <->
  existsb (JS.eqb key) (map fst l) = true.
Proof.
  induction l as [|[k0 v0] l IH]; cbn.
  - split; [now intros [v H]|discriminate].
  - rewrite (jseqb_sym key k0). destruct (JS.eqb k0 key); cbn.
    + split; [reflexivity|]. intros _. now exists v0.
    + exact IH.
Qed.

Lemma existsb_jseqb (l : list jsstring) (key : jsstring) :
  existsb (JS.eqb key) l = true <-> In key l.
Proof.
  rewrite existsb_exists. split.
  - intros (x & Hx & E). apply jseqb_eq in E. now subst.
  - intros H. exists key. split; [exact H|]. now apply jseqb_eq.
Qed.

(** X16.  [isChainSupported] and [getChainConfig] agree: a name is
    supported exactly when it has a configuration, which is exactly when
    [createProvider] does not throw.  The names [getSupportedChains]
    lists are those whose configuration has an RPC address. *)
Theorem X16_supported_means_configured :
  forall chainName,
    (isChainSupported chainName = true <-> getChainConfig chainName <> None)
    /\ (forall connect,
           isChainSupported chainName = true <->
           exists provider, createProvider connect chainName = Ok provider)
    /\ (In (trim (toLowerCase chainName)) getSupportedChains <->
        exists rpcUrl, getChainConfig chainName = Some (Some rpcUrl)).
Proof.
  intros chainName.
  assert (H1 : isChainSupported chainName = true <->
               getChainConfig chainName <> None).
  { unfold isChainSupported, getChainConfig, getSupportedChains.
    set (n := trim (toLowerCase chainName)).
    pose proof (assoc_keys CHAIN_CONFIG n) as K.
    destruct (assoc CHAIN_CONFIG n) as [url|].
    - split; [discriminate|]. intros _. apply orb_true_iff. left.
      apply K. now exists url.
    - destruct (existsb (JS.eqb n) (map fst CHAIN_CONFIG)).
      + destruct (proj2 K eq_refl) as [v Hv]. discriminate.
      + cbn [orb]. destruct (existsb (JS.eqb n) INHERITED).
        * split; [discriminate|reflexivity].
        * split; [discriminate|]. intros H. now contradiction H. }
  split; [exact H1|]. split.
  - intros connect. rewrite H1. unfold createProvider.
    destruct (getChainConfig chainName) as [rpcUrl|].
    + split; [intros _; now eexists|discriminate].
    + split; [intros H; now contradiction H|]. intros [provider H].
      discriminate.
  - unfold getChainConfig, getSupportedChains.
    set (n := trim (toLowerCase chainName)).
    rewrite <- existsb_jseqb, <- assoc_keys.
    destruct (assoc CHAIN_CONFIG n) as [url|].
    + split; intros _; now exists url.
    + destruct (existsb (JS.eqb n) INHERITED);
        (split; [intros [v H]; discriminate|intros [u H]; discriminate]).
Qed.

Lemma trimEnd_blank (s : jsstring) :
  forallb isWhite s = true -> trimEnd s = [].
Proof.
  induction s as [|c r IH]; [reflexivity|]. cbn [forallb]. intros H.
  apply andb_true_iff in H as [Hc Hr]. rewrite trimEnd_cons, (IH Hr).
  now rewrite Hc.
Qed.

Lemma trimStart_padding (pre s : jsstring) :
  forallb isWhite pre = true -> trimStart (pre ++ s) = trimStart s.
Proof.
  induction pre as [|c r IH]; [reflexivity|]. cbn [forallb app trimStart].
  intros H. apply andb_true_iff in H as [Hc Hr]. rewrite Hc. now apply IH.
Qed.

Lemma trimEnd_padding (s post : jsstring) :
  forallb isWhite post = true -> trimEnd (s ++ post) = trimEnd s.
Proof.
  intros H. induction s as [|c r IH].
  - now apply trimEnd_blank.
  - cbn [app]. now rewrite !trimEnd_cons, IH.
Qed.

Lemma trim_padding (pre s post : jsstring) :
  forallb isWhite pre = true ->
  forallb isWhite post = true ->
  trim (pre ++ s ++ post) = trim s.
Proof.
  intros Hpre Hpost. unfold trim. rewrite trimStart_padding by exact Hpre.
  induction s as [|c r IH].
  - cbn [app]. now rewrite (trimStart_blank post Hpost).
  - cbn [app trimStart]. destruct (isWhite c); [exact IH|].
    now apply (trimEnd_padding (c :: r) post).
Qed.

Lemma isWhite_letter (c : N) : 65 <= c <= 122 -> isWhite c = false.
Proof.
  intros Hc. destruct (isWhite c) eqn:W; [|reflexivity]. exfalso.
  unfold isWhite in W.
  repeat (apply orb_true_iff in W as [W|W]);
    try (apply andb_true_iff in W as [W1 W2];
         apply N.leb_le in W1; apply N.leb_le in W2; lia);
    apply N.eqb_eq in W; lia.
Qed.

Lemma toLowerCase_white (s : jsstring) :
  forallb isWhite (toLowerCase s) = forallb isWhite s.
Proof.
  unfold toLowerCase. induction s as [|c r IH]; [reflexivity|].
  cbn [map forallb]. rewrite IH. f_equal.
  destruct (c =? 8490) eqn:K.
  - apply N.eqb_eq in K. now subst c.
  - unfold toLower, isUpper.
    destruct ((65 <=? c) && (c <=? 90)) eqn:U; [|reflexivity].
    apply andb_true_iff in U as [U1 U2].
    apply N.leb_le in U1. apply N.leb_le in U2.
    rewrite !isWhite_letter by lia. reflexivity.
Qed.

Lemma toLowerCase_toUpper (s : jsstring) :
  toLowerCase (map toUpper s) = toLowerCase s.
Proof.
  unfold toLowerCase. rewrite map_map. apply map_ext. intros c.
  unfold toUpper, isLower.
  destruct ((97 <=? c) && (c <=? 122)) eqn:L; [|reflexivity].
  apply andb_true_iff in L as [L1 L2].
  apply N.leb_le in L1. apply N.leb_le in L2.
  assert (K1 : (c - 32 =? 8490) = false) by (apply N.eqb_neq; lia).
  assert (K2 : (c =? 8490) = false) by (apply N.eqb_neq; lia).
  rewrite K1, K2. unfold toLower, isUpper.
  assert (U1 : (65 <=? c - 32) && (c - 32 <=? 90) = true).
  { apply andb_true_iff. split; apply N.leb_le; lia. }
  assert (U2 : (65 <=? c) && (c <=? 90) = false).
  { apply andb_false_iff. right. apply N.leb_gt. lia. }
  rewrite U1, U2. lia.
Qed.

(** X17.  Chain names are looked up without regard to the case of ASCII
    letters and to white space around them: such variants of a name have
    the same configuration and the same answer of [isChainSupported]. *)
Theorem X17_chain_names_are_normalised :
  forall chainName before after,
    forallb isWhite before = true ->
    forallb isWhite after = true ->
    getChainConfig (before ++ map toUpper chainName ++ after)
    = getChainConfig chainName
    /\ isChainSupported (before ++ map toUpper chainName ++ after)
       = isChainSupported chainName.
Proof.
  intros chainName before after Hb Ha.
  assert (E : trim (toLowerCase (before ++ map toUpper chainName ++ after))
              = trim (toLowerCase chainName)).
  { assert (Hs : toLowerCase (before ++ map toUpper chainName ++ after) =
                 toLowerCase before ++ toLowerCase chainName
                 ++ toLowerCase after).
    { rewrite <- (toLowerCase_toUpper chainName). unfold toLowerCase.
      now rewrite !map_app. }
    rewrite Hs. apply trim_padding; now rewrite toLowerCase_white. }
  unfold getChainConfig, isChainSupported. now rewrite E.
Qed.

Lemma X17_chain_names_are_normalised_witness :
  getChainConfig (js "  " ++ map toUpper (js "Arbitrum") ++ [NL])
  = Some (Some (js "https://arbitrum.publicnode.com"))
  /\ isChainSupported (js "  " ++ map toUpper (js "Arbitrum") ++ [NL]) = true.
Proof.
  destruct (X17_chain_names_are_normalised (js "Arbitrum") (js "  ") [NL]
              eq_refl eq_refl) as [H1 H2].
  rewrite H1, H2. split; reflexivity.
Defined.

(** ** The main file *)

Section MainFileFacts.

Variable path_basename : jsstring -> jsstring.
Variable path_basename_ext : jsstring -> jsstring -> jsstring.
Variable RegExp_test : jsstring -> Res (jsstring -> bool).

Lemma byFileName_in contractFileName fileEntries filePath :
  byFileName path_basename contractFileName fileEntries = Some filePath ->
  In filePath (map fst fileEntries).
Proof.
  induction fileEntries as [|[q d] rest IH]; [discriminate|].
  cbn [byFileName map fst]. intros H.
  destruct (endsWith q contractFileName); [injection H as <-; now left|].
  destruct (JS.eqb (path_basename q) contractFileName);
    [injection H as <-; now left|].
  right. now apply IH.
Qed.

Lemma byContractName_in contractName fileEntries filePath :
  byContractName path_basename_ext RegExp_test contractName fileEntries
  = Ok (Some filePath) ->
  In filePath (map fst fileEntries).
Proof.
  induction fileEntries as [|[q d] rest IH]; [discriminate|].
  cbn [byContractName map fst]. intros H.
  destruct (JS.eqb (path_basename_ext q (js ".sol")) contractName);
    [injection H as <-; now left|].
  destruct (RegExp_test (contractPatternSource contractName)) as [pattern|m];
    [|discriminate].
  destruct (pattern d); [injection H as <-; now left|].
  right. now apply IH.
Qed.

Lemma byLargest_in fileEntries :
  forall acc n,
    fst (byLargest fileEntries acc n) = acc
    \/ exists filePath,
        fst (byLargest fileEntries acc n) = Some filePath
        /\ In filePath (map fst fileEntries).
Proof.
  induction fileEntries as [|[q d] rest IH]; intros acc n; [now left|].
  cbn [byLargest shouldExcludeFromAudit shouldExclude map fst].
  destruct (n <? List.length d)%nat.
  - right. destruct (IH (Some q) (List.length d)) as [E|(f & E & Hin)].
    + exists q. split; [exact E|now left].
    + exists f. split; [exact E|now right].
  - destruct (IH acc n) as [E|(f & E & Hin)]; [now left|].
    right. exists f. split; [exact E|now right].
Qed.

Lemma byFunctions_in fileEntries :
  forall acc n,
    fst (byFunctions fileEntries acc n) = acc
    \/ exists filePath,
        fst (byFunctions fileEntries acc n) = Some filePath
        /\ In filePath (map fst fileEntries).
Proof.
  induction fileEntries as [|[q d] rest IH]; intros acc n; [now left|].
  cbn [byFunctions shouldExcludeFromAudit shouldExclude map fst].
  destruct (n <? List.length (matchAll RE_PUBLIC_FUNCTION d))%nat.
  - right.
    destruct (IH (Some q) (List.length (matchAll RE_PUBLIC_FUNCTION d)))
      as [E|(f & E & Hin)].
    + exists q. split; [exact E|now left].
    + exists f. split; [exact E|now right].
  - destruct (IH acc n) as [E|(f & E & Hin)]; [now left|].
    right. exists f. split; [exact E|now right].
Qed.

Lemma byLargest_small fileEntries :
  forall acc n,
    (forall e, In e fileEntries -> (List.length (snd e) <= n)%nat) ->
    byLargest fileEntries acc n = (acc, n).
Proof.
  induction fileEntries as [|[q d] rest IH]; intros acc n H; [reflexivity|].
  cbn [byLargest shouldExcludeFromAudit shouldExclude].
  assert (Hd : (n <? List.length d)%nat = false).
  { apply Nat.ltb_ge. apply (H (q, d)). now left. }
  rewrite Hd. apply IH. intros e He. apply H. now right.
Qed.

Lemma byLargest_first_maximum (before : list (jsstring * jsstring))
    (filePath content : jsstring) (after : list (jsstring * jsstring)) :
  (forall e, In e after ->
             (List.length (snd e) <= List.length content)%nat) ->
  forall acc n,
    (n < List.length content)%nat ->
    (forall e, In e before ->
               (List.length (snd e) < List.length content)%nat) ->
    byLargest (before ++ (filePath, content) :: after) acc n
    = (Some filePath, List.length content).
Proof.
  intros Ha. induction before as [|[q d] rest IH]; intros acc n Hn Hb.
  - cbn [app byLargest shouldExcludeFromAudit shouldExclude].
    apply Nat.ltb_lt in Hn. rewrite Hn. now apply byLargest_small.
  - cbn [app byLargest shouldExcludeFromAudit shouldExclude].
    assert (Hd : (List.length d < List.length content)%nat)
      by (apply (Hb (q, d)); now left).
    assert (Hrest : forall e, In e rest ->
                      (List.length (snd e) < List.length content)%nat)
      by (intros e He; apply Hb; now right).
    destruct (n <? List.length d)%nat; now apply IH.
Qed.

Lemma byFunctions_blank fileEntries :
  forall acc,
    (forall e, In e fileEntries -> snd e = []) ->
    byFunctions fileEntries acc 0 = (acc, 0%nat).
Proof.
  induction fileEntries as [|[q d] rest IH]; intros acc H; [reflexivity|].
  cbn [byFunctions shouldExcludeFromAudit shouldExclude].
  assert (Hd : d = []) by (apply (H (q, d)); now left). subst d.
  change (List.length (matchAll RE_PUBLIC_FUNCTION [])) with 0%nat.
  cbn [Nat.ltb Nat.leb]. apply IH. intros e He. apply H. now right.
Qed.

Lemma byFileName_first contractFileName before filePath content after :
  (forall q, In q (map fst before) ->
             endsWith q contractFileName = false
             /\ JS.eqb (path_basename q) contractFileName = false) ->
  endsWith filePath contractFileName = true
  \/ JS.eqb (path_basename filePath) contractFileName = true ->
  byFileName path_basename contractFileName
    (before ++ (filePath, content) :: after) = Some filePath.
Proof.
  intros Hb Hp. induction before as [|[q d] rest IH].
  - cbn [app byFileName]. destruct Hp as [-> | ->]; [reflexivity|].
    now destruct (endsWith filePath contractFileName).
  - cbn [app byFileName]. destruct (Hb q) as [-> ->]; [now left|].
    apply IH. intros q' Hq'. apply Hb. now right.
Qed.

End MainFileFacts.

Lemma detectMainContract_in :
  forall path_basename path_basename_ext RegExp_test fileEntries
         contractName contractFileName filePath,
    detectMainContract path_basename path_basename_ext RegExp_test
      fileEntries contractName contractFileName = Ok (Some filePath) ->
    In filePath (map fst fileEntries).
Proof.
  intros pb pbe rt fileEntries contractName contractFileName filePath.
  unfold detectMainContract.
  destruct (match contractFileName with
            | [] => None
            | _ :: _ => byFileName pb contractFileName fileEntries
            end) as [p1|] eqn:E1.
  - intros H. injection H as <-.
    destruct contractFileName; [discriminate|].
    now apply byFileName_in in E1.
  - destruct (match contractName with
              | [] => Ok None
              | _ :: _ => byContractName pbe rt contractName fileEntries
              end) as [[p2|]|m] eqn:E2; [| |discriminate].
    + intros H. injection H as <-.
      destruct contractName; [discriminate|].
      now apply byContractName_in in E2.
    + cbv zeta.
      destruct (byLargest_in fileEntries None 0) as [E|(f & E & Hin)].
      * rewrite E. cbn [found negb]. intros H. injection H as H.
        destruct (byFunctions_in fileEntries None 0) as [E'|(g & E' & Hin')];
          rewrite E' in H; [discriminate|]. injection H as <-. exact Hin'.
      * rewrite E. destruct (negb (found (Some f))); intros H.
        -- injection H as H.
           destruct (byFunctions_in fileEntries (Some f) 0)
             as [E'|(g & E' & Hin')]; rewrite E' in H;
             injection H as <-; assumption.
        -- injection H as <-. exact Hin.
Qed.

(** X18.  What [detectMainContract] answers is [null] or the path of one
    of the files it was given. *)
Theorem X18_main_file_is_one_of_the_files :
  forall path_basename path_basename_ext RegExp_test fileEntries
         contractName contractFileName filePath,
    detectMainContract path_basename path_basename_ext RegExp_test
      fileEntries contractName contractFileName = Ok (Some filePath) ->
    In filePath (map fst fileEntries).
Proof.
  intros pb pbe rt fileEntries contractName contractFileName filePath H.
  now apply (detectMainContract_in pb pbe rt fileEntries contractName
               contractFileName).
Qed.

Lemma X18_main_file_is_one_of_the_files_witness :
  In (js "src/Vault.sol")
     (map fst [(js "src/IVault.sol", js "interface IVault {}");
               (js "src/Vault.sol", js "contract Vault { uint256 x; }")]).
Proof.
  apply (X18_main_file_is_one_of_the_files basename basename_ext noRegExp
           [(js "src/IVault.sol", js "interface IVault {}");
            (js "src/Vault.sol", js "contract Vault { uint256 x; }")]
           [] []).
  reflexivity.
Defined.

(** X19.  When the registry names the main file, the first file whose
    path ends with that name, or whose base name is that name, is the
    main file: the contract name and the contents are not looked at, and
    no pattern is built from the contract name. *)
Theorem X19_declared_file_name_wins :
  forall path_basename path_basename_ext RegExp_test before filePath content
         after contractName contractFileName,
    contractFileName <> [] ->
    (forall q, In q (map fst before) ->
               endsWith q contractFileName = false
               /\ JS.eqb (path_basename q) contractFileName = false) ->
    endsWith filePath contractFileName = true
    \/ JS.eqb (path_basename filePath) contractFileName = true ->
    detectMainContract path_basename path_basename_ext RegExp_test
      (before ++ (filePath, content) :: after) contractName contractFileName
    = Ok (Some filePath).
Proof.
  intros pb pbe rt before filePath content after contractName
    contractFileName Hne Hb Hp.
  unfold detectMainContract.
  destruct contractFileName as [|c r]; [contradiction|].
  now rewrite (byFileName_first pb (c :: r) before filePath content after
                 Hb Hp).
Qed.

Lemma X19_declared_file_name_wins_witness :
  detectMainContract basename basename_ext noRegExp
    ([(js "src/Math.sol", js "library Math {}")]
     ++ (js "src/MyToken.sol", js "contract MyToken {}")
     :: [(js "src/Token.sol", js "contract Token {}")])
    (js "(") (js "Token.sol")
  = Ok (Some (js "src/MyToken.sol")).
Proof.
  apply (X19_declared_file_name_wins basename basename_ext noRegExp
           [(js "src/Math.sol", js "library Math {}")]
           (js "src/MyToken.sol") (js "contract MyToken {}")
           [(js "src/Token.sol", js "contract Token {}")]
           (js "(") (js "Token.sol")).
  - discriminate.
  - intros q [<-|[]]. split; reflexivity.
  - left. reflexivity.
Defined.

(** X20.  Without a contract name and a file name, the main file is the
    first of the files with the longest content, provided that content is
    not empty and the path is not the empty string; when every content
    is empty there is no main file: the count of public functions, the
    last strategy, selects nothing then. *)
Theorem X20_without_names_the_largest_file_is_main :
  forall path_basename path_basename_ext RegExp_test,
    (forall (before : list (jsstring * jsstring))
            (filePath content : jsstring)
            (after : list (jsstring * jsstring)),
        filePath <> [] ->
        (0 < List.length content)%nat ->
        (forall e, In e before ->
                   (List.length (snd e) < List.length content)%nat) ->
        (forall e, In e after ->
                   (List.length (snd e) <= List.length content)%nat) ->
        detectMainContract path_basename path_basename_ext RegExp_test
          (before ++ (filePath, content) :: after) [] []
        = Ok (Some filePath))
    /\ (forall fileEntries,
           (forall e, In e fileEntries -> snd e = []) ->
           detectMainContract path_basename path_basename_ext RegExp_test
             fileEntries [] []
           = Ok None).
Proof.
  intros pb pbe rt. split.
  - intros before filePath content after Hne Hlen Hb Ha.
    unfold detectMainContract. cbv beta iota zeta.
    rewrite (byLargest_first_maximum before filePath content after Ha
               None 0 Hlen Hb).
    cbn [fst]. destruct filePath; [contradiction|reflexivity].
  - intros fileEntries Hall. unfold detectMainContract.
    cbv beta iota zeta. rewrite byLargest_small.
    + cbn [fst found negb]. now rewrite byFunctions_blank.
    + intros e He. rewrite (Hall e He). apply Nat.le_refl.
Qed.

Lemma X20_without_names_the_largest_file_is_main_witness :
  detectMainContract basename basename_ext noRegExp
    ([(js "A.sol", js "contract A {}")]
     ++ (js "B.sol", js "contract B { uint256 x; }")
     :: [(js "C.sol", js "contract C { uint256 y; }")]) [] []
  = Ok (Some (js "B.sol")).
Proof.
  apply (proj1 (X20_without_names_the_largest_file_is_main
                  basename basename_ext noRegExp)
           [(js "A.sol", js "contract A {}")]
           (js "B.sol") (js "contract B { uint256 x; }")
           [(js "C.sol", js "contract C { uint256 y; }")]).
  - discriminate.
  - cbn. lia.
  - intros e [<-|[]]. cbn. lia.
  - intros e [<-|[]]. cbn. lia.
Defined.

(** ** Parsing, further *)

Lemma startsWith_nil (s : jsstring) : startsWith s [] = true.
Proof. now destruct s. Qed.

Lemma startsWith_first (s : jsstring) (a : N) (p : jsstring) :
  startsWith s (a :: p) = true -> startsWith s [a] = true.
Proof.
  destruct s as [|c r]; [discriminate|]. cbn. intros H.
  apply andb_true_iff in H as [-> _]. now rewrite startsWith_nil.
Qed.

Lemma setOwn_fresh {V : Type} (o : list (jsstring * V)) (key : jsstring)
    (v : V) :
  ~ In key (map fst o) -> setOwn o key v = o ++ [(key, v)].
Proof.
  induction o as [|[k0 v0] o IH]; intros Hnot; [reflexivity|].
  cbn [setOwn app]. destruct (JS.eqb k0 key) eqn:E.
  - apply jseqb_eq in E. subst k0. exfalso. apply Hnot. now left.
  - f_equal. apply IH. intros H. apply Hnot. now right.
Qed.

Lemma sourcesLoop_listing (es : list (jsstring * JValue)) :
  forall acc,
    NoDup (map fst acc ++ map fst es) ->
    ~ In (js "__proto__") (map fst es) ->
    (forall e, In e es -> getProp (snd e) (js "content") <> None) ->
    sourcesLoop es acc
    = Some (acc ++ map (fun e => (fst e, contentOf (snd e))) es).
Proof.
  induction es as [|[k d] es IH]; intros acc Hnd Hproto Hall.
  - cbn. now rewrite app_nil_r.
  - cbn [sourcesLoop map fst snd].
    pose proof (Hall (k, d) (or_introl eq_refl)) as Hd. cbn [snd] in Hd.
    unfold contentOf. destruct (getProp d (js "content")) as [c|];
      [|contradiction].
    assert (Hk : JS.eqb k (js "__proto__") = false).
    { destruct (JS.eqb k (js "__proto__")) eqn:E; [|reflexivity].
      apply jseqb_eq in E. exfalso. apply Hproto. now left. }
    cbn [map fst] in Hnd. unfold setProp. rewrite Hk.
    rewrite setOwn_fresh.
    + rewrite IH.
      * now rewrite <- app_assoc.
      * rewrite map_app, <- app_assoc. exact Hnd.
      * intros H. apply Hproto. now right.
      * intros e He. apply Hall. now right.
    + intros H. apply NoDup_remove_2 in Hnd. apply Hnd.
      apply in_or_app. now left.
Qed.

Lemma sourcesLoop_null (es : list (jsstring * JValue)) :
  forall acc e,
    In e es -> getProp (snd e) (js "content") = None ->
    sourcesLoop es acc = None.
Proof.
  induction es as [|[k d] es IH]; intros acc e Hin He; [contradiction|].
  cbn [sourcesLoop]. destruct Hin as [<-|Hin].
  - cbn [snd] in He. now rewrite He.
  - destruct (getProp d (js "content")); [|reflexivity].
    now apply (IH _ e).
Qed.

Lemma unwrap_plain (s : jsstring) :
  startsWith (trim s) (js "{") = false -> unwrap s = trim s.
Proof.
  intros H. unfold unwrap.
  destruct (startsWith (trim s) (js "{{")) eqn:E; [|reflexivity].
  apply startsWith_first in E.
  change (startsWith (trim s) (js "{") = true) in E.
  rewrite E in H. discriminate.
Qed.

(** X21.  When the source is parsed as a single file and the registry
    gives a contract name, [processAndSaveSource] hands on one file named
    after the contract, with the source as content; for a contract named
    [contract] the new name is the old one, and the deletion that follows
    the assignment leaves no file at all. *)
Theorem X21_single_file_takes_the_contract_name :
  forall JSON_parse source contractName,
    type (parseSourceCode JSON_parse source) = js "single-file" ->
    contractName <> [] ->
    sourceToSave JSON_parse true source contractName =
    Some {| type := js "single-file";
            files := if JS.eqb contractName (js "contract") then []
                     else [(contractName ++ js ".sol", JStr source)];
            settings := None; language := None |}.
Proof.
  intros JSON_parse source contractName Hty Hne.
  unfold sourceToSave. cbn [negb]. rewrite (parse_single JSON_parse _ Hty).
  unfold renameSingleFile, singleFile.
  destruct contractName as [|c r]; [contradiction|]. cbn [type files settings
    language].
  change (JS.eqb (js "single-file") (js "single-file")) with true.
  cbv iota. f_equal. f_equal.
  set (name := c :: r). set (newKey := name ++ js ".sol").
  change (lookup [(js "contract.sol", JStr source)] (js "contract.sol"))
    with (JStr source).
  assert (Hproto : JS.eqb newKey (js "__proto__") = false).
  { destruct (JS.eqb newKey (js "__proto__")) eqn:E; [|reflexivity].
    apply jseqb_eq in E. apply (f_equal (@rev N)) in E. subst newKey.
    rewrite rev_app_distr in E. cbn in E. discriminate. }
  unfold setProp. rewrite Hproto. cbn [setOwn].
  assert (Hsame : JS.eqb (js "contract.sol") newKey
                  = JS.eqb name (js "contract")).
  { destruct (JS.eqb name (js "contract")) eqn:E.
    - apply jseqb_eq in E. apply jseqb_eq. subst newKey. now rewrite E.
    - destruct (JS.eqb (js "contract.sol") newKey) eqn:E'; [|reflexivity].
      apply jseqb_eq in E'. subst newKey.
      change (js "contract.sol") with (js "contract" ++ js ".sol") in E'.
      apply app_inv_tail in E'. symmetry in E'. apply jseqb_eq in E'.
      congruence. }
  rewrite Hsame. destruct (JS.eqb name (js "contract")) eqn:E.
  - unfold deleteProp. cbn [filter fst].
    change (JS.eqb (js "contract.sol") (js "contract.sol")) with true.
    reflexivity.
  - unfold deleteProp. cbn [filter fst].
    change (JS.eqb (js "contract.sol") (js "contract.sol")) with true.
    assert (K : JS.eqb newKey (js "contract.sol") = false)
      by (rewrite (jseqb_sym newKey (js "contract.sol")); exact Hsame).
    rewrite K. reflexivity.
Qed.

Lemma X21_single_file_takes_the_contract_name_witness :
  sourceToSave Demo.JSON_parse true (js "contract Vault {}") (js "Vault")
  = Some {| type := js "single-file";
            files := [(js "Vault.sol", JStr (js "contract Vault {}"))];
            settings := None; language := None |}.
Proof.
  rewrite (X21_single_file_takes_the_contract_name Demo.JSON_parse
             (js "contract Vault {}") (js "Vault") eq_refl).
  - reflexivity.
  - discriminate.
Defined.

(** X22.  A source whose text, white space around it apart, does not
    start with a brace is never given to [JSON.parse]; such a source, and
    one that [JSON.parse] rejects, is kept as the single file
    [contract.sol] whose content is the source as received. *)
Theorem X22_text_that_is_not_json_is_one_file :
  forall JSON_parse source,
    source <> [] ->
    startsWith (trim source) (js "{") = false
    \/ JSON_parse (unwrap source) = None ->
    parseSourceCode JSON_parse source = singleFile source.
Proof.
  intros JSON_parse source Hne H. unfold parseSourceCode, singleFile.
  destruct source as [|c r]; [contradiction|].
  destruct H as [H|H].
  - rewrite (unwrap_plain _ H), H. reflexivity.
  - unfold parseJson. rewrite H.
    now destruct (startsWith (unwrap (c :: r)) (js "{")).
Qed.

Lemma X22_text_that_is_not_json_is_one_file_witness :
  parseSourceCode Demo.JSON_parse (js "pragma solidity ^0.8.0;")
  = singleFile (js "pragma solidity ^0.8.0;").
Proof.
  apply (X22_text_that_is_not_json_is_one_file Demo.JSON_parse
           (js "pragma solidity ^0.8.0;")).
  - discriminate.
  - left. reflexivity.
Defined.

(** X23.  Of a text wrapped in two pairs of braces, with white space
    around it or not, exactly the outer pair is taken off before
    [JSON.parse]; when the [try] fails all the same, the single file
    holds the source as received, wrapping and white space included. *)
Theorem X23_double_braces_lose_one_pair :
  forall JSON_parse before body after,
    forallb isWhite before = true ->
    forallb isWhite after = true ->
    let source := before ++ (js "{{" ++ body ++ js "}}") ++ after in
    unwrap source = js "{" ++ body ++ js "}"
    /\ parseSourceCode JSON_parse source =
       match parseJson JSON_parse (js "{" ++ body ++ js "}") with
       | Some result => result
       | None => singleFile source
       end.
Proof.
  intros JSON_parse before body after Hb Ha source.
  assert (Htrim : trim source = js "{{" ++ body ++ js "}}").
  { subst source. rewrite (trim_padding _ _ _ Hb Ha). unfold trim.
    change (js "{{" ++ body ++ js "}}")
      with (123 :: 123 :: body ++ js "}}").
    cbn [trimStart]. change (isWhite 123) with false. cbv iota.
    change (123 :: 123 :: body ++ js "}}")
      with ((123 :: 123 :: body) ++ 125 :: [125]).
    rewrite (trimEnd_keep _ 125 [125] eq_refl). reflexivity. }
  assert (Hun : unwrap source = js "{" ++ body ++ js "}").
  { unfold unwrap. rewrite Htrim.
    assert (Hs : startsWith (js "{{" ++ body ++ js "}}") (js "{{") = true)
      by (cbn; apply startsWith_nil).
    assert (He : endsWith (js "{{" ++ body ++ js "}}") (js "}}") = true).
    { unfold endsWith. rewrite !rev_app_distr. cbn. apply startsWith_nil. }
    rewrite Hs, He. cbn [andb]. unfold slice_1_m1.
    assert (Ht : tl (js "{{" ++ body ++ js "}}")
                 = (js "{" ++ body ++ js "}") ++ [125])
      by (cbn; now rewrite <- app_assoc).
    rewrite Ht. apply removelast_last. }
  split; [exact Hun|].
  unfold parseSourceCode. rewrite Hun.
  assert (Hsrc : exists c r, source = c :: r).
  { subst source. destruct before as [|c r]; [|now exists c, (r ++ (js "{{" ++ body ++ js "}}") ++ after)].
    now exists 123, (123 :: (body ++ js "}}") ++ after). }
  destruct Hsrc as (c & r & Hsrc). rewrite Hsrc.
  change (startsWith (js "{" ++ body ++ js "}") (js "{"))
    with (startsWith (body ++ js "}") []).
  rewrite startsWith_nil. reflexivity.
Qed.

Lemma X23_double_braces_lose_one_pair_witness :
  unwrap ([NL] ++ (js "{{" ++ js "x" ++ js "}}") ++ js " ")
  = js "{" ++ js "x" ++ js "}".
Proof.
  apply (X23_double_braces_lose_one_pair Demo.JSON_parse [NL] (js "x")
           (js " ") eq_refl eq_refl).
Defined.

(** X24.  For a JSON text with a [sources] object, the tree is of type
    [multi-file] and lists the entries of [sources] in their order, each
    path with [content] of its entry or, when that is missing or falsy,
    the empty string; [settings] and [language] default to an empty
    object and to ['Solidity']. *)
Theorem X24_sources_are_listed_in_order :
  forall JSON_parse source props sources,
    source <> [] ->
    startsWith (unwrap source) (js "{") = true ->
    JSON_parse (unwrap source) = Some (JObj props) ->
    lookup props (js "sources") = JObj sources ->
    NoDup (map fst sources) ->
    ~ In (js "__proto__") (map fst sources) ->
    (forall e, In e sources -> snd e <> JNull /\ snd e <> JUndefined) ->
    parseSourceCode JSON_parse source =
    {| type := js "multi-file";
       files := map (fun e => (fst e, contentOf (snd e))) sources;
       settings := Some (orElse (lookup props (js "settings")) (JObj []));
       language :=
         Some (orElse (lookup props (js "language")) (JStr (js "Solidity")))
    |}.
Proof.
  intros JSON_parse source props sources Hne Hbrace Hparse Hsources Hnd
    Hproto Hall.
  unfold parseSourceCode. destruct source as [|c r]; [contradiction|].
  rewrite Hbrace. unfold parseJson. rewrite Hparse.
  cbn [getProp]. rewrite Hsources. cbn [isTruthy entries].
  rewrite sourcesLoop_listing; [reflexivity|exact Hnd|exact Hproto|].
  intros e He. destruct (Hall e He) as [H1 H2].
  destruct (snd e); cbn; congruence.
Qed.

Lemma X24_sources_are_listed_in_order_witness :
  parseSourceCode Demo.JSON_parse Demo.KNOWN_JSON =
  {| type := js "multi-file";
     files := [(js "A.sol", JStr (js "X"))];
     settings := Some (JObj []);
     language := Some (JStr (js "Solidity")) |}.
Proof.
  apply (X24_sources_are_listed_in_order Demo.JSON_parse Demo.KNOWN_JSON
           [(js "sources",
             JObj [(js "A.sol", JObj [(js "content", JStr (js "X"))])])]
           [(js "A.sol", JObj [(js "content", JStr (js "X"))])]).
  - discriminate.
  - reflexivity.
  - reflexivity.
  - reflexivity.
  - repeat constructor. intros [].
  - intros [H|[]]. discriminate H.
  - intros e [<-|[]]. split; discriminate.
Defined.

(** X25.  One entry of [sources] that is [null] makes the whole listing
    fail: reading its [content] throws, the [catch] swallows it, and the
    JSON text is kept as the content of the single file [contract.sol]. *)
Theorem X25_null_entry_drops_the_listing :
  forall JSON_parse source props sources e,
    source <> [] ->
    JSON_parse (unwrap source) = Some (JObj props) ->
    lookup props (js "sources") = JObj sources ->
    In e sources -> snd e = JNull ->
    parseSourceCode JSON_parse source = singleFile source.
Proof.
  intros JSON_parse source props sources e Hne Hparse Hsources Hin He.
  unfold parseSourceCode, singleFile.
  destruct source as [|c r]; [contradiction|].
  destruct (startsWith (unwrap (c :: r)) (js "{")); [|reflexivity].
  unfold parseJson. rewrite Hparse. cbn [getProp]. rewrite Hsources.
  cbn [isTruthy entries].
  rewrite (sourcesLoop_null sources [] e Hin); [reflexivity|].
  now rewrite He.
Qed.

Lemma X25_null_entry_drops_the_listing_witness :
  parseSourceCode
    (fun _ => Some (JObj [(js "sources", JObj [(js "A.sol", JNull)])]))
    (js "{}")
  = singleFile (js "{}").
Proof.
  apply (X25_null_entry_drops_the_listing
           (fun _ => Some (JObj [(js "sources", JObj [(js "A.sol", JNull)])]))
           (js "{}")
           [(js "sources", JObj [(js "A.sol", JNull)])]
           [(js "A.sol", JNull)] (js "A.sol", JNull)).
  - discriminate.
  - reflexivity.
  - reflexivity.
  - now left.
  - reflexivity.
Defined.

(** ** Pruning of empty directories *)

Lemma Node_induction (P : Node -> Prop) :
  (forall content, P (File content)) ->
  (forall entries, Forall (fun e => P (snd e)) entries -> P (Dir entries)) ->
  forall node, P node.
Proof.
  intros HF HD. fix IH 1. intros [content|entries]; [apply HF|].
  apply HD. induction entries as [|[name child] rest IHrest];
    constructor; [apply IH|exact IHrest].
Qed.

Lemma leaves_dir (entries : list (jsstring * Node)) :
  leaves (Dir entries) = leavesIn entries.
Proof.
  unfold leavesIn. cbn [leaves].
  induction entries as [|[name child] rest IH]; [reflexivity|].
  cbn [flat_map fst snd]. now rewrite <- IH.
Qed.

Lemma tidy_dir (entries : list (jsstring * Node)) :
  tidy (Dir entries) = forallb (fun e => keptChild (snd e)) entries.
Proof.
  cbn [tidy]. induction entries as [|[name child] rest IH]; [reflexivity|].
  cbn [forallb snd]. rewrite <- IH. reflexivity.
Qed.

Section PruneFacts.

Variable path_join : list jsstring -> jsstring.
Variable path_basename : jsstring -> jsstring.

Lemma cleanup_dir (directory : jsstring) (entries : list (jsstring * Node)) :
  cleanupEmptyDirectories path_join path_basename directory (Dir entries) =
  match remaining path_join path_basename directory entries with
  | [] => if retained path_basename directory then Some (Dir []) else None
  | _ :: _ =>
      Some (Dir (remaining path_join path_basename directory entries))
  end.
Proof.
  cbn [cleanupEmptyDirectories].
  match goal with
  | |- match ?f entries with _ => _ end = _ =>
      assert (E : forall es,
                 f es = remaining path_join path_basename directory es)
  end.
  { induction es as [|[file child] rest IH]; [reflexivity|].
    cbn [remaining]. rewrite <- IH. reflexivity. }
  rewrite E. reflexivity.
Qed.

Lemma remaining_facts (entries : list (jsstring * Node)) :
  Forall (fun e => pruned path_join path_basename (snd e)) entries ->
  forall directory,
    let left := remaining path_join path_basename directory entries in
    leavesIn left = leavesIn entries
    /\ forallb (fun e => keptChild (snd e)) left = true
    /\ forall directory',
        remaining path_join path_basename directory' left = left.
Proof.
  induction 1 as [|[file child] rest Hchild Hrest IH]; intros directory left.
  - subst left. cbn. repeat split.
  - destruct (IH directory) as (IHa & IHb & IHc). subst left.
    cbn [snd] in Hchild. cbn [remaining].
    destruct child as [content|sub].
    + unfold leavesIn in *. cbn [flat_map forallb snd keptChild andb].
      rewrite IHa. repeat split; [exact IHb|]. intros directory'.
      cbn [remaining]. now rewrite IHc.
    + destruct (Hchild (path_join [directory; file])) as [Hl Hc].
      destruct (cleanupEmptyDirectories path_join path_basename
                  (path_join [directory; file]) (Dir sub))
        as [[content|[|x xs]]|] eqn:E; cbn [leavesOf] in Hl.
      * unfold leavesIn in *. cbn [flat_map forallb snd keptChild andb fst].
        rewrite IHa, Hl. repeat split; [exact IHb|]. intros directory'.
        cbn [remaining]. now rewrite IHc.
      * unfold leavesIn in *. cbn [flat_map snd fst]. rewrite <- Hl.
        cbn [leaves map app]. repeat split; assumption.
      * destruct (Hc _ eq_refl) as [Ht Hs].
        unfold leavesIn in *. cbn [flat_map forallb snd keptChild fst].
        rewrite IHa, Hl, Ht, IHb. repeat split. intros directory'.
        cbn [remaining].
        rewrite (Hs (path_join [directory'; file])) by discriminate.
        now rewrite IHc.
      * unfold leavesIn in *. cbn [flat_map snd fst]. rewrite <- Hl.
        cbn [map app]. repeat split; assumption.
Qed.

Lemma cleanup_pruned (node : Node) : pruned path_join path_basename node.
Proof.
  induction node as [content|entries Hentries] using Node_induction;
    intros directory.
  - cbn [cleanupEmptyDirectories leavesOf]. split; [reflexivity|].
    intros cleaned H. injection H as <-. split; [reflexivity|].
    intros directory' _. reflexivity.
  - destruct (remaining_facts entries Hentries directory) as (Ha & Hb & Hc).
    rewrite cleanup_dir, (leaves_dir entries), <- Ha.
    destruct (remaining path_join path_basename directory entries)
      as [|e left] eqn:E.
    + split; [now destruct (retained path_basename directory)|].
      intros cleaned H.
      destruct (retained path_basename directory); [|discriminate].
      injection H as <-. split; [reflexivity|].
      intros directory' Hr. rewrite cleanup_dir. cbn [remaining].
      now rewrite (Hr eq_refl).
    + split; [cbn [leavesOf]; apply leaves_dir|].
      intros cleaned H. injection H as <-. split.
      * rewrite tidy_dir. exact Hb.
      * intros directory' _. rewrite cleanup_dir, Hc. reflexivity.
Qed.

Lemma tidy_populated (node : Node) :
  tidy node = true -> node <> Dir [] -> leaves node <> [].
Proof.
  induction node as [content|entries Hentries] using Node_induction;
    intros Ht Hne; [discriminate|].
  destruct entries as [|[file child] rest]; [contradiction|].
  rewrite tidy_dir in Ht. cbn [forallb snd] in Ht.
  apply andb_true_iff in Ht as [Hk _].
  rewrite leaves_dir. unfold leavesIn. cbn [flat_map fst snd].
  inversion Hentries as [|? ? Hchild _]; subst. cbn [snd] in Hchild.
  assert (Hl : leaves child <> []).
  { destruct child as [content|[|x xs]]; [discriminate|discriminate|].
    apply Hchild; [exact Hk|discriminate]. }
  destruct (leaves child); [contradiction|discriminate].
Qed.

End PruneFacts.

(** X26.  [cleanupEmptyDirectories] touches no file: the files under the
    directory, with their paths, are the same afterwards.  The directory
    it is called on is removed exactly when no file lies under it, at
    whatever depth, and it is neither the contract directory nor a
    [proxy] or [implementation] folder. *)
Theorem X26_pruning_keeps_every_file :
  forall path_join path_basename directory node,
    leavesOf (cleanupEmptyDirectories path_join path_basename directory node)
    = leaves node
    /\ (cleanupEmptyDirectories path_join path_basename directory node = None
        <-> isDir node = true /\ leaves node = []
            /\ retained path_basename directory = false).
Proof.
  intros path_join path_basename directory node.
  destruct (cleanup_pruned path_join path_basename node directory)
    as [Hl Hc].
  split; [exact Hl|]. split.
  - intros H. destruct node as [content|entries]; [discriminate|].
    rewrite H in Hl. cbn [leavesOf] in Hl. split; [reflexivity|].
    split; [now symmetry|]. rewrite cleanup_dir in H.
    destruct (remaining path_join path_basename directory entries);
      [|discriminate].
    now destruct (retained path_basename directory).
  - intros (Hd & Hnone & Hr).
    destruct (cleanupEmptyDirectories path_join path_basename directory node)
      as [cleaned|] eqn:E; [|reflexivity].
    exfalso. destruct (Hc cleaned eq_refl) as [Ht _].
    cbn [leavesOf] in Hl. rewrite Hnone in Hl.
    apply (tidy_populated cleaned Ht); [|exact Hl].
    intros ->. destruct node as [content|entries]; [discriminate|].
    rewrite cleanup_dir, Hr in E.
    now destruct (remaining path_join path_basename directory entries).
Qed.

(** X27.  After [cleanupEmptyDirectories] no directory below the one it
    was called on is empty; the names [proxy] and [implementation]
    protect a directory only when the call is made on it, not when it is
    met below. *)
Theorem X27_no_empty_directory_below :
  forall path_join path_basename directory node cleaned,
    cleanupEmptyDirectories path_join path_basename directory node
    = Some cleaned ->
    tidy cleaned = true.
Proof.
  intros path_join path_basename directory node cleaned H.
  destruct (cleanup_pruned path_join path_basename node directory)
    as [_ Hc].
  now destruct (Hc cleaned H).
Qed.

Lemma X27_no_empty_directory_below_witness :
  tidy (Dir [(js "src", Dir [(js "A.sol", File (js "contract A {}"))])])
  = true.
Proof.
  apply (X27_no_empty_directory_below Demo.path_join basename
           (js "output/ethereum/0x" ++ repeat 49 40%nat) OUTPUT_TREE).
  vm_compute. reflexivity.
Defined.

(** X28.  A second pass of [cleanupEmptyDirectories] over a directory it
    has left in place changes nothing. *)
Theorem X28_pruning_twice_is_pruning_once :
  forall path_join path_basename directory node cleaned,
    cleanupEmptyDirectories path_join path_basename directory node
    = Some cleaned ->
    cleanupEmptyDirectories path_join path_basename directory cleaned
    = Some cleaned.
Proof.
  intros path_join path_basename directory node cleaned H.
  destruct (cleanup_pruned path_join path_basename node directory)
    as [_ Hc].
  destruct (Hc cleaned H) as [_ Hs]. apply Hs. intros ->.
  destruct node as [content|entries]; [discriminate|].
  rewrite cleanup_dir in H.
  destruct (remaining path_join path_basename directory entries);
    [|discriminate].
  now destruct (retained path_basename directory).
Qed.

Lemma X28_pruning_twice_is_pruning_once_witness :
  cleanupEmptyDirectories Demo.path_join basename (js "output/base/proxy")
    (Dir [])
  = Some (Dir []).
Proof.
  apply (X28_pruning_twice_is_pruning_once Demo.path_join basename
           (js "output/base/proxy")
           (Dir [(js "lib", Dir [(js "proxy", Dir [])])])).
  vm_compute. reflexivity.
Defined.

(** ** Audit metadata *)

Lemma triage_count (main : option jsstring)
    (files : list (jsstring * jsstring)) :
  (List.length (criticalOf main files)
   + List.length (interfacesOf main files)
   + List.length (filter (fun e => isMain (fst e) main) files))%nat
  = List.length files.
Proof.
  unfold criticalOf, interfacesOf. rewrite !length_map.
  induction files as [|[q d] rest IH]; [reflexivity|].
  cbn [filter fst snd List.length].
  destruct (isMain q main), (isPureInterface d); cbn [negb andb List.length];
    lia.
Qed.

Lemma main_once (filePath : jsstring) (files : list (jsstring * jsstring)) :
  NoDup (map fst files) ->
  In filePath (map fst files) ->
  List.length (filter (fun e => isMain (fst e) (Some filePath)) files) = 1%nat.
Proof.
  induction files as [|[q d] rest IH]; intros Hnd Hin; [contradiction|].
  cbn [map fst] in Hnd, Hin. inversion Hnd as [|? ? Hnot Hrest]; subst.
  cbn [filter fst isMain]. destruct (JS.eqb q filePath) eqn:E.
  - apply jseqb_eq in E. subst q. cbn [List.length]. f_equal.
    assert (Hnone : forall l : list (jsstring * jsstring),
               ~ In filePath (map fst l) ->
               filter (fun e => JS.eqb (fst e) filePath) l = []).
    { induction l as [|[q' d'] l IHl]; intros Hl; [reflexivity|].
      cbn [filter fst]. destruct (JS.eqb q' filePath) eqn:E'.
      - apply jseqb_eq in E'. subst q'. exfalso. apply Hl. now left.
      - apply IHl. intros H. apply Hl. now right. }
    now rewrite Hnone.
  - apply IH; [exact Hrest|]. destruct Hin as [->|Hin]; [|exact Hin].
    assert (JS.eqb filePath filePath = true) by now apply jseqb_eq.
    congruence.
Qed.

Lemma main_never (files : list (jsstring * jsstring)) :
  filter (fun e => isMain (fst e) None) files = [].
Proof. induction files as [|[q d] rest IH]; [reflexivity|exact IH]. Qed.

(** X29.  In the metadata [totalFiles] counts the files and nothing is
    excluded or flagged.  [auditFiles], one more than the critical
    files, counts a main file whether there is one or not: with a main
    file the audited files and the interfaces add up to the total,
    without one they exceed it by one. *)
Theorem X29_audit_counts :
  forall path_basename path_basename_ext RegExp_test roundPercent files
         contractName contractFileName,
    NoDup (map fst files) ->
    match Metadata.generateAuditMetadata path_basename path_basename_ext
            RegExp_test roundPercent files contractName contractFileName with
    | Throw _ => True
    | Ok md =>
        Metadata.totalFiles md = List.length files
        /\ Metadata.excludedFiles md = 0%nat
        /\ Metadata.hasWarnings md = false
        /\ Metadata.hasRedFlags md = false
        /\ (Metadata.auditFiles md
            + List.length (Metadata.interfaces (Metadata.categories md)))%nat
           = match detectMainContract path_basename path_basename_ext
                     RegExp_test files contractName contractFileName with
             | Ok (Some _) => Metadata.totalFiles md
             | _ => S (Metadata.totalFiles md)
             end
    end.
Proof.
  intros pb pbe rt roundPercent files contractName contractFileName Hnd.
  unfold Metadata.generateAuditMetadata.
  destruct (detectMainContract pb pbe rt files contractName contractFileName)
    as [main|m] eqn:E; [|exact I].
  rewrite categorize_closed.
  cbn [Metadata.totalFiles Metadata.excludedFiles Metadata.hasWarnings
       Metadata.hasRedFlags Metadata.auditFiles Metadata.interfaces
       Metadata.categories Triage.criticalFiles Triage.interfaces
       Triage.excluded Triage.warnings Triage.redFlagFiles List.length].
  repeat (split; [reflexivity|]).
  pose proof (triage_count main files) as Hc.
  destruct main as [filePath|].
  - rewrite (main_once filePath files Hnd) in Hc; [lia|].
    now apply (detectMainContract_in pb pbe rt files contractName
                 contractFileName).
  - rewrite main_never in Hc. cbn [List.length] in Hc. lia.
Qed.

Lemma X29_audit_counts_witness :
  match Metadata.generateAuditMetadata basename basename_ext noRegExp
          roundPercent [] [] [] with
  | Throw _ => True
  | Ok md =>
      Metadata.totalFiles md = 0%nat
      /\ Metadata.excludedFiles md = 0%nat
      /\ Metadata.hasWarnings md = false
      /\ Metadata.hasRedFlags md = false
      /\ (Metadata.auditFiles md
          + List.length (Metadata.interfaces (Metadata.categories md)))%nat
         = match detectMainContract basename basename_ext noRegExp [] [] []
           with
           | Ok (Some _) => Metadata.totalFiles md
           | _ => S (Metadata.totalFiles md)
           end
  end.
Proof.
  apply (X29_audit_counts basename basename_ext noRegExp roundPercent
           [] [] []).
  constructor.
Defined.


(** ** Runs of the embedding on the cases the specification and the tests
       of the repository give *)

Example strip_two_blocks :
  stripSolidityComments (js "/* a */ code /* b */") = js "code" ++ [NL].
Proof. reflexivity. Qed.

Example strip_line_comments :
  stripSolidityComments
    (js "// SPDX" ++ NL :: js "uint256 public value; // Inline" ++ NL
     :: js "uint256 public ratio = 100 / 2;")
  = js "uint256 public value;" ++ NL
    :: js "uint256 public ratio = 100 / 2;" ++ [NL].
Proof. reflexivity. Qed.

Example strip_keeps_url_in_literal :
  stripSolidityComments
    (js "string public url = " ++ DQUOTE :: js "https://example.com"
     ++ DQUOTE :: js "; /* c */")
  = js "string public url = " ++ DQUOTE :: js "https://example.com"
    ++ DQUOTE :: js ";" ++ [NL].
Proof. reflexivity. Qed.

Example red_flag_paths :
  matchesRedFlag (js "Contracts/Vendor/Foo.sol") = true
  /\ matchesRedFlag (js "lib/x.sol") = true
  /\ matchesRedFlag (js "x/contracts/vendor/Foo.sol") = false
  /\ matchesRedFlag (js "@openzeppelin/contracts/utils/Address.sol") = false.
Proof. repeat split; vm_compute; reflexivity. Qed.

Example pure_interfaces :
  isPureInterface (js "interface IFoo { function f() external; }") = true
  /\ isPureInterface
       (js "interface IFoo { function f() external { x; } }") = false
  /\ isPureInterface
       (js "contract Foo { function f() external { x; } }") = false
  /\ isPureInterface
       (js "// interface IFoo" ++ NL :: js "contract A {}") = false.
Proof. repeat split; vm_compute; reflexivity. Qed.

Example blacklist_cases :
  let cfg := Loaded (Some [js "@openzeppelin-contracts/"; js "chainlink/"]) in
  isBlacklisted cfg
    (js "@openzeppelin-contracts/contracts/token/ERC20/ERC20.sol") = true
  /\ isBlacklisted cfg (js "contracts/MyCustomContract.sol") = false
  /\ isBlacklisted cfg (js "contracts/openzeppelin-wrapper.sol") = false
  /\ isBlacklisted cfg (js "chainlink\contracts\Feed.sol") = true
  /\ isBlacklisted Unreadable (js "chainlink/contracts/Feed.sol") = false.
Proof. repeat split; vm_compute; reflexivity. Qed.

(** The key [''] under the blacklist entry ['']: for a proxy the content
    is written as the file [out/proxy]; for a main contract the path is
    the contract directory itself and [writeFileSync] throws. *)
Example empty_key_of_a_proxy_is_written :
  effects
    (saveSourceFiles Demo.path_join Demo.path_dirname SampleDisk.Disk
       SampleDisk.existsSync SampleDisk.mkdirSync SampleDisk.writeFileSync
       (Loaded (Some [[]])) (js "out") (js "proxy") SampleDisk.FRESH
       [([], js "x")])
  = ([(js "out/proxy", SampleDisk.Document (js "x"));
      (js "out", SampleDisk.Folder)],
     [WriteFile (js "out/proxy") (js "x")], None).
Proof. reflexivity. Qed.

Example empty_key_of_a_main_contract_throws :
  effects
    (saveSourceFiles Demo.path_join Demo.path_dirname SampleDisk.Disk
       SampleDisk.existsSync SampleDisk.mkdirSync SampleDisk.writeFileSync
       (Loaded (Some [[]])) (js "out/token") (js "main")
       [(js "out/token", SampleDisk.Folder); (js "out", SampleDisk.Folder)]
       [([], js "x")])
  = ([(js "out/token", SampleDisk.Folder); (js "out", SampleDisk.Folder)],
     [WriteFile (js "out/token") (js "x")],
     Some (js "EISDIR: illegal operation on a directory")).
Proof. reflexivity. Qed.

Example parse_double_braces :
  parseSourceCode Demo.JSON_parse
    (js "{{" ++ DQUOTE :: js "sources" ++ DQUOTE :: js ":{" ++ DQUOTE
     :: js "A.sol" ++ DQUOTE :: js ":{" ++ DQUOTE :: js "content" ++ DQUOTE
     :: js ":" ++ DQUOTE :: js "X" ++ DQUOTE :: js "}}}}")
  = {| type := js "multi-file";
       files := [(js "A.sol", JStr (js "X"))];
       settings := Some (JObj []);
       language := Some (JStr (js "Solidity")) |}.
Proof. vm_compute. reflexivity. Qed.

Example parse_flat_object_with_null_is_single_file :
  type (parseSourceCode (fun _ => Some (JObj [(js "A.sol", JNull)]))
          (js "{}")) = js "single-file".
Proof. reflexivity. Qed.

Example slot_value_to_address :
  readAddressFromSlot Demo.getAddress
    (js "0x" ++ repeat 48 24%nat ++ skipn 2 Demo.LOGIC) = Some Demo.LOGIC
  /\ readAddressFromSlot Demo.getAddress Demo.WORD_ZERO = None
  /\ readAddressFromSlot Demo.getAddress (js "0x1") =
     Some (js "0x" ++ repeat 48 39%nat ++ js "1").
Proof. repeat split; vm_compute; reflexivity. Qed.

Example minimal_proxy_bytecode :
  parseEIP1167Bytecode Demo.getAddress
    (js "0x363d3d373d3d3d363d73" ++ repeat 97 40%nat
     ++ js "5af43d82803e903d91602b57fd5bf3")
  = Some (js "0x" ++ repeat 97 40%nat)
  /\ parseEIP1167Bytecode Demo.getAddress (js "0x6080604052") = None.
Proof. split; vm_compute; reflexivity. Qed.

Example minimal_proxy_end_to_end :
  fst (detectProxy Demo.getAddress
         (fun _ => Demo.minimalProxyChain Demo.LOGIC)
         (js " Ethereum ") Demo.PROXY None)
  = Ok (proxyTo Demo.PROXY (Some Demo.LOGIC) None)
  /\ requestsOf
       (snd (detectProxy Demo.getAddress
               (fun _ => Demo.minimalProxyChain Demo.LOGIC)
               (js " Ethereum ") Demo.PROXY None))
     = [GetCode Demo.PROXY;
        GetStorage Demo.PROXY EIP_1967_LOGIC_SLOT;
        GetStorage Demo.PROXY OPEN_ZEPPELIN_IMPLEMENTATION_SLOT;
        GetStorage Demo.PROXY EIP_1822_LOGIC_SLOT].
Proof. split; vm_compute; reflexivity. Qed.

Example unsupported_chain_throws :
  detectProxy Demo.getAddress (fun _ => Demo.bareChain) (js "solana")
    Demo.PROXY None
  = (Throw (js "Unsupported chain: solana"), []).
Proof. reflexivity. Qed.

Example source_signals :
  test RE_PROXY_INHERITANCE
    (js "contract MOSTProxy is TransparentUpgradeableProxy {") = true
  /\ test RE_PROXY_INHERITANCE (js "contract A is B { Proxy p; }") = false
  /\ test RE_IMPLEMENTATION_FUNCTION
       (js "function _implementation() internal view virtual override returns (address)")
     = true
  /\ test RE_IMPLEMENTATION_FUNCTION
       (js "function _implementation() internal view returns (address)")
     = false
  /\ option_map group1
       (exec RE_STORAGE_SLOT
          (js "bytes32 private constant _IMPL_STORAGE_SLOT = 0x"
           ++ repeat 55 64%nat ++ js ";"))
     = Some (Some (repeat 55 64%nat))
  /\ matchAll RE_ADDRESS_HEX (repeat 48 24%nat ++ repeat 49 40%nat
                              ++ repeat 50 30%nat)
     = [repeat 48 24%nat ++ repeat 49 16%nat;
        repeat 49 24%nat ++ repeat 50 16%nat].
Proof. repeat split; vm_compute; reflexivity. Qed.
